(** * Gradient-descent optimizers

    A shallow embedding of
    [NeuralNetworks/code/implementation/optimizers.py]: the batch planner
    [Optimizer.calculate_batch_size_and_iteration] and the optimizers
    [mini_batch_gradient_descent], [stochastic_gradient_descent],
    [full_batch_gradient_descent],
    [mini_batch_gradient_descent_with_momentum], [adagrad], [rmsprop] and
    [adam].

    - numpy arrays live in a store of objects addressed by location, so that
      rebinding a name ([X = X[shuffled_idx]]) and updating an array in place
      ([squared_gradients += ...]) are different things;
    - the store, the state of [np.random] and the log of the calls made to
      the gradient source are threaded through a state-and-exception monad;
    - the arithmetic is the arithmetic of an instance of [Scalar]: IEEE
      binary64 ([float], what the program runs on) or the real numbers
      ([R], the arithmetic the update rules are written for). *)

From Stdlib Require Import ZArith Reals Lra Lia Floats String.
From stdpp Require Import base list.

Set Default Proof Using "Type*".

(** ** Exceptions *)

Inductive exception : Type :=
  | AssertionError (msg : string)
  | ZeroDivisionError
  | ValueError
  | OverflowError
  | IndexError
  | TypeError.

(** ** Scalars *)

(** The operations the optimizers use on Python floats and on the elements
    of float64 arrays. [int_of] is Python's [int(x)]: truncation toward
    zero, which raises on a NaN or an infinity. *)
Class Scalar (F : Type) : Type := {
  of_int : Z → F;
  f_add : F → F → F;
  f_sub : F → F → F;
  f_mul : F → F → F;
  f_div : F → F → F;
  f_sqrt : F → F;
  f_pow : F → nat → F;
  f_ltb : F → F → bool;
  f_leb : F → F → bool;
  int_of : F → exception + Z
}.

Infix "⊕" := f_add (at level 50, left associativity).
Infix "⊖" := f_sub (at level 50, left associativity).
Infix "⊗" := f_mul (at level 40, left associativity).
Infix "⊘" := f_div (at level 40, left associativity).

(** A decimal literal of the source: [decimal 1 100] is [0.01]. On binary64
    the correctly rounded quotient of two exactly represented integers is
    the double nearest to the decimal, which is what Python's parser
    yields. *)
Definition decimal `{Scalar F} (num den : Z) : F := of_int num ⊘ of_int den.

(** *** IEEE binary64 *)

(** [float(z)], rounded to the nearest double. (Python raises
    [OverflowError] where this is an infinity, for integers beyond
    1.8e308.) *)
Definition float_of_int (z : Z) : float :=
  SF2Prim (binary_normalize prec emax z 0 false).

(** [int(x)] *)
Definition float_int_of (x : float) : exception + Z :=
  match Prim2SF x with
  | S754_zero _ => inr 0%Z
  | S754_infinity _ => inl OverflowError
  | S754_nan => inl ValueError
  | S754_finite s m e =>
      let magnitude :=
        match e with
        | Zneg k => Z.shiftr (Zpos m) (Zpos k)
        | _ => Z.shiftl (Zpos m) e
        end in
      inr (if s then - magnitude else magnitude)%Z
  end.

(** [x ** n] for an integer [n >= 0], by repeated multiplication: exact for
    the exponents 0 and 1. For larger exponents the C library's [pow] may
    differ from it in the last bit. *)
Fixpoint float_pow (x : float) (n : nat) : float :=
  match n with
  | O => 1%float
  | S n' => PrimFloat.mul x (float_pow x n')
  end.

#[export] Instance float_scalar : Scalar float := {
  of_int := float_of_int;
  f_add := PrimFloat.add;
  f_sub := PrimFloat.sub;
  f_mul := PrimFloat.mul;
  f_div := PrimFloat.div;
  f_sqrt := PrimFloat.sqrt;
  f_pow := float_pow;
  f_ltb := PrimFloat.ltb;
  f_leb := PrimFloat.leb;
  int_of := float_int_of
}.

(** *** Real numbers *)

(** The same operations with no rounding. [int(x)] truncates toward
    zero. *)

Definition R_ltb (x y : R) : bool := if Rlt_dec x y then true else false.
Definition R_leb (x y : R) : bool := if Rle_dec x y then true else false.

Definition R_trunc (x : R) : Z :=
  if Rle_dec 0 x then Int_part x else (- Int_part (- x))%Z.

#[export] Instance R_scalar : Scalar R := {
  of_int := IZR;
  f_add := Rplus;
  f_sub := Rminus;
  f_mul := Rmult;
  f_div := Rdiv;
  f_sqrt := R_sqrt.sqrt;
  f_pow := pow;
  f_ltb := R_ltb;
  f_leb := R_leb;
  int_of := λ x, inr (R_trunc x)
}.

(** ** Python numbers *)

(** An argument that may be a Python [int] or a Python [float]:
    [batch_size] (whose type the planner asserts) and [batch_fraction]
    ([full_batch_gradient_descent] passes the [int] 1). *)
Inductive py_number (F : Type) : Type :=
  | PyInt (z : Z)
  | PyFloat (x : F).
Arguments PyInt {F} z.
Arguments PyFloat {F} x.

Section python_numbers.
Context {F : Type} `{Scalar F}.

Definition to_float (a : py_number F) : F :=
  match a with PyInt z => of_int z | PyFloat x => x end.

(** [a < b] and [a <= b] *)
Definition py_lt (a b : py_number F) : bool :=
  match a, b with
  | PyInt x, PyInt y => (x <? y)%Z
  | _, _ => f_ltb (to_float a) (to_float b)
  end.

Definition py_le (a b : py_number F) : bool :=
  match a, b with
  | PyInt x, PyInt y => (x <=? y)%Z
  | _, _ => f_leb (to_float a) (to_float b)
  end.

(** [n * a] for an [int] [n] *)
Definition py_int_mul (n : Z) (a : py_number F) : py_number F :=
  match a with
  | PyInt z => PyInt (n * z)
  | PyFloat x => PyFloat (of_int n ⊗ x)
  end.

(** [int(a)] *)
Definition py_int (a : py_number F) : exception + Z :=
  match a with PyInt z => inr z | PyFloat x => int_of x end.

(** [n / d] for two [int]s: true division, a [float]. On binary64 this is
    the quotient of the two integers as doubles, which is Python's correctly
    rounded quotient as long as both are below 2^53 in magnitude. *)
Definition py_truediv (n d : Z) : exception + F :=
  if (d =? 0)%Z then inl ZeroDivisionError else inr (of_int n ⊘ of_int d).
End python_numbers.

(** ** numpy on one-dimensional float64 arrays *)

Section numpy.
Context {F : Type} `{Scalar F}.

(** [c * a], [a / c] and [a + c] for a Python scalar [c], [a ** 2],
    [np.sqrt(a)], [np.zeros_like(a)] *)
Definition scale (c : F) (a : list F) : list F := map (λ x, c ⊗ x) a.
Definition divide_by (a : list F) (c : F) : list F := map (λ x, x ⊘ c) a.
Definition add_scalar (a : list F) (c : F) : list F := map (λ x, x ⊕ c) a.
Definition square (a : list F) : list F := map (λ x, x ⊗ x) a.
Definition np_sqrt (a : list F) : list F := map f_sqrt a.
Definition zeros_like (a : list F) : list F := map (λ _, of_int 0) a.

(** A binary operator on two arrays: equal shapes go elementwise, a shape
    [(1,)] is broadcast against the other, and any other pair of shapes
    makes numpy raise [ValueError]. *)
Definition broadcast (op : F → F → F) (a b : list F) : exception + list F :=
  if decide (length a = length b) then inr (zip_with op a b)
  else match a, b with
       | [x], _ => inr (map (op x) b)
       | _, [y] => inr (map (λ x, op x y) a)
       | _, _ => inl ValueError
       end.

Definition np_add := broadcast f_add.
Definition np_sub := broadcast f_sub.
Definition np_div := broadcast f_div.

(** [a += b]: the result must have the shape of [a], so only [b] may be
    broadcast. *)
Definition np_iadd (a b : list F) : exception + list F :=
  if decide (length a = length b) then inr (zip_with f_add a b)
  else match b with
       | [y] => inr (map (λ x, x ⊕ y) a)
       | _ => inl ValueError
       end.
End numpy.

(** Rows of an array: [a[i:j]] for two [int]s, with Python's treatment of
    negative and out-of-range bounds, and [a[idx]] for an index array, which
    raises [IndexError] on an index out of range. *)
Section rows.
Context {A : Type}.

Definition clip (len i : Z) : Z :=
  if (i <? 0)%Z then Z.max 0 (i + len) else Z.min i len.

Definition py_slice (a : list A) (i j : Z) : list A :=
  let len := Z.of_nat (length a) in
  take (Z.to_nat (clip len j - clip len i)) (drop (Z.to_nat (clip len i)) a).

Fixpoint take_rows (a : list A) (idx : list nat) : exception + list A :=
  match idx with
  | [] => inr []
  | i :: idx' =>
      match a !! i, take_rows a idx' with
      | Some row, inr rest => inr (row :: rest)
      | None, _ => inl IndexError
      | _, inl e => inl e
      end
  end.
End rows.

(** ** The random source *)

(** [permutation r n] is [np.random.permutation(n)] drawn in the generator
    state [r], with the generator's next state. *)
Class RandomSource (Rng : Type) : Type := {
  permutation : Rng → nat → list nat * Rng;
  permutation_range : ∀ r n, (permutation r n).1 ≡ₚ seq 0 n
}.

(** ** The store and the monad *)

Definition loc := nat.

Section machine.
Context {F Row Rng : Type}.

(** An array of samples (its rows are all the optimizers look at) or a
    one-dimensional array of parameters. *)
Inductive object : Type :=
  | Rows (rows : list Row)
  | Tensor (values : list F).

(** The arrays, the state of [np.random], and the calls made to the
    gradient source so far, each with the values of its three arguments,
    the latest last. *)
Record state : Type := State {
  heap : list object;
  rng : Rng;
  gradient_log : list (list Row * list Row * list F)
}.

Definition M (A : Type) : Type := state → (exception + A) * state.

Definition ret {A} (x : A) : M A := λ st, (inr x, st).
Definition raise {A} (e : exception) : M A := λ st, (inl e, st).
Definition bind {A B} (m : M A) (k : A → M B) : M B :=
  λ st, match m st with
        | (inr x, st') => k x st'
        | (inl e, st') => (inl e, st')
        end.

Definition lift {A} (r : exception + A) : M A :=
  match r with inr x => ret x | inl e => raise e end.

(** Reading the array a name is bound to. *)
Definition load (l : loc) : M (list F) :=
  λ st, match heap st !! l with
        | Some (Tensor v) => (inr v, st)
        | _ => (inl TypeError, st)
        end.

Definition load_rows (l : loc) : M (list Row) :=
  λ st, match heap st !! l with
        | Some (Rows v) => (inr v, st)
        | _ => (inl TypeError, st)
        end.

(** A new array. *)
Definition alloc (o : object) : M loc :=
  λ st, (inr (length (heap st)),
         State (heap st ++ [o]) (rng st) (gradient_log st)).

(** Overwriting an array in place. *)
Definition store (l : loc) (v : list F) : M unit :=
  λ st, (inr tt,
         State (<[l := Tensor v]> (heap st)) (rng st) (gradient_log st)).

Definition np_random_permutation `{RandomSource Rng} (n : nat) : M (list nat) :=
  λ st, let '(p, r) := permutation (rng st) n in
        (inr p, State (heap st) r (gradient_log st)).

(** One call of the gradient source. The source is a function of the
    values of its arguments: it neither keeps nor writes the arrays it is
    given. *)
Definition call_gradient (source : list Row → list Row → list F → list F)
    (X_selected y_selected : list Row) (solution : list F) : M (list F) :=
  λ st, (inr (source X_selected y_selected solution),
         State (heap st) (rng st)
           (gradient_log st ++ [(X_selected, y_selected, solution)])).

(** [for i in range(n)], threading the names the body rebinds. *)
Fixpoint for_each {T} (body : nat → T → M T) (idxs : list nat) (s : T) : M T :=
  match idxs with
  | [] => ret s
  | i :: idxs' => bind (body i s) (for_each body idxs')
  end.

Definition for_range {T} (n : Z) (body : nat → T → M T) (s : T) : M T :=
  for_each body (seq 0 (Z.to_nat n)) s.
End machine.

Arguments object : clear implicits.
Arguments state : clear implicits.
Arguments M : clear implicits.

Notation "'let*' x ':=' m 'in' k" := (bind m (λ x, k))
  (at level 10, x name, m at level 100, k at level 200,
   format "'[v' 'let*'  x  :=  m  'in' '/' k ']'").
Notation "'let*' ' p ':=' m 'in' k" := (bind m (λ x, match x with p => k end))
  (at level 10, p pattern, m at level 100, k at level 200,
   format "'[v' 'let*'  ' p  :=  m  'in' '/' k ']'").

(** ** The parts the optimizers share *)

Section shared.
Context {F Row Rng : Type} `{Scalar F} `{RandomSource Rng}.
Local Abbreviation M := (M F Row Rng).

(** A gradient source: [calculate_gradient(X_selected, y_selected,
    current_solution)]. *)
Definition gradient_source : Type := list Row → list Row → list F → list F.

(** [X.shape[0]] *)
Definition shape0 (X : loc) : M Z :=
  let* rows := load_rows X in ret (Z.of_nat (length rows)).

(** [X[shuffled_idx]]: a new array *)
Definition index_rows (X : loc) (idx : list nat) : M loc :=
  let* rows := load_rows X in
  let* selected := lift (take_rows rows idx) in
  alloc (Rows selected).

(** [X[i:j]]: the gradient source only reads it *)
Definition slice_rows (X : loc) (i j : Z) : M (list Row) :=
  let* rows := load_rows X in ret (py_slice rows i j).

(** Binding a name to the array an expression evaluates to. *)
Definition new (v : list F) : M loc := alloc (Tensor v).

(** [np.zeros_like(a)] *)
Definition new_zeros_like (a : loc) : M loc :=
  let* v := load a in new (zeros_like v).

(** [calculate_gradient(X_selected, y_selected, current_solution)] *)
Definition gradient_at (calculate_gradient : gradient_source)
    (batch : list Row * list Row) (current_solution : loc) : M (list F) :=
  let '(X_selected, y_selected) := batch in
  let* solution := load current_solution in
  call_gradient calculate_gradient X_selected y_selected solution.

(** [Optimizer.transfer_data_to_numpy]: the inputs of the model are numpy
    arrays already, which the method returns as they are. *)
Definition transfer_data_to_numpy (X y : loc) : M (loc * loc) := ret (X, y).

Definition calculate_batch_size_and_iteration
    (batch_size : py_number F) (batch_fraction : option (py_number F))
    (X : loc) : M (Z * Z) :=
  match batch_size with
  | PyFloat _ => raise (AssertionError "batch_size must be an integer")
  | PyInt batch_size =>
      let* batch_size :=
        match batch_fraction with
        | None => ret batch_size
        | Some batch_fraction =>
            if py_lt (PyInt 0) batch_fraction && py_le batch_fraction (PyInt 1)
            then let* n := shape0 X in
                 lift (py_int (py_int_mul n batch_fraction))
            else raise (AssertionError "batch_fraction must be between 0 and 1")
        end in
      let* n := shape0 X in
      let* quotient := lift (py_truediv n batch_size) in
      let* iterations := lift (int_of quotient) in
      ret (batch_size, iterations)
  end.

(** The first three lines of an epoch of every optimizer but [adam]:
    [N = X.shape[0]], [shuffled_idx = np.random.permutation(N)],
    [X, y = X[shuffled_idx], y[shuffled_idx]]. *)
Definition shuffled (X y : loc) : M (loc * loc) :=
  let* N := shape0 X in
  let* shuffled_idx := np_random_permutation (Z.to_nat N) in
  let* X' := index_rows X shuffled_idx in
  let* y' := index_rows y shuffled_idx in
  ret (X', y').

(** [X_selected, y_selected = (X[idx * batch_size : (idx + 1) * batch_size],
    y[idx * batch_size : (idx + 1) * batch_size])] *)
Definition select_batch (X y : loc) (idx : nat) (batch_size : Z)
    : M (list Row * list Row) :=
  let idx := Z.of_nat idx in
  let* X_selected := slice_rows X (idx * batch_size) ((idx + 1) * batch_size) in
  let* y_selected := slice_rows y (idx * batch_size) ((idx + 1) * batch_size) in
  ret (X_selected, y_selected).

(** [learning_rate * gradient / (np.sqrt(squared_gradients) + epsilon)],
    the step of [adagrad], [rmsprop] and [adam] *)
Definition scaled_step (learning_rate epsilon : F)
    (gradient squared_gradients : list F) : exception + list F :=
  np_div (scale learning_rate gradient)
         (add_scalar (np_sqrt squared_gradients) epsilon).

(** [decay * average + (1 - decay) * value], the moving averages of
    [rmsprop] and [adam] *)
Definition moving_average (decay : F) (average value : list F)
    : exception + list F :=
  np_add (scale decay average) (scale (of_int 1 ⊖ decay) value).
End shared.

(** ** The optimizers

    An argument with a default value is an [option]: [None] when the caller
    leaves it out. [batch_fraction] is [None] for Python's [None], its
    default. The [print] that ends an epoch is left out. *)

(** Lines 48 to 97. *)
Module mini_batch_gradient_descent.
Section optimize.
Context {F Row Rng : Type} `{Scalar F} `{RandomSource Rng}.
Local Abbreviation M := (M F Row Rng).

Definition optimize (X y initial_solution : loc)
    (calculate_gradient : gradient_source)
    (learning_rate : option F) (max_num_epoch : option Z)
    (batch_size batch_fraction : option (py_number F)) : M loc :=
  let learning_rate := default (decimal 1 100) learning_rate in
  let max_num_epoch := default 1000%Z max_num_epoch in
  let batch_size := default (PyInt 42) batch_size in
  let* '(X, y) := transfer_data_to_numpy X y in
  let* '(batch_size, iterations) :=
    calculate_batch_size_and_iteration batch_size batch_fraction X in
  let current_solution := initial_solution in
  let* '(_, _, current_solution) :=
    for_range max_num_epoch (λ _ '(X, y, current_solution),
      let* '(X, y) := shuffled X y in
      let* current_solution :=
        for_range iterations (λ idx current_solution,
          let* batch := select_batch X y idx batch_size in
          let* gradient := gradient_at calculate_gradient batch current_solution in
          let* solution := load current_solution in
          let* updated :=
            lift (np_sub solution (scale learning_rate gradient)) in
          new updated) current_solution in
      ret (X, y, current_solution)) (X, y, current_solution) in
  ret current_solution.
End optimize.
End mini_batch_gradient_descent.

(** Lines 100 to 133: plain descent with [batch_size=1]. *)
Module stochastic_gradient_descent.
Section optimize.
Context {F Row Rng : Type} `{Scalar F} `{RandomSource Rng}.

Definition optimize (X y initial_solution : loc)
    (calculate_gradient : gradient_source)
    (learning_rate : option F) (max_num_epoch : option Z) : M F Row Rng loc :=
  let learning_rate := default (decimal 1 100) learning_rate in
  let max_num_epoch := default 1000%Z max_num_epoch in
  mini_batch_gradient_descent.optimize X y initial_solution
    calculate_gradient (Some learning_rate) (Some max_num_epoch)
    (Some (PyInt 1)) None.
End optimize.
End stochastic_gradient_descent.

(** Lines 136 to 168: plain descent with [batch_fraction=1]. *)
Module full_batch_gradient_descent.
Section optimize.
Context {F Row Rng : Type} `{Scalar F} `{RandomSource Rng}.

Definition optimize (X y initial_solution : loc)
    (calculate_gradient : gradient_source)
    (learning_rate : option F) (max_num_epoch : option Z) : M F Row Rng loc :=
  let learning_rate := default (decimal 1 100) learning_rate in
  let max_num_epoch := default 1000%Z max_num_epoch in
  mini_batch_gradient_descent.optimize X y initial_solution
    calculate_gradient (Some learning_rate) (Some max_num_epoch)
    None (Some (PyInt 1)).
End optimize.
End full_batch_gradient_descent.

(** Lines 171 to 223. *)
Module mini_batch_gradient_descent_with_momentum.
Section optimize.
Context {F Row Rng : Type} `{Scalar F} `{RandomSource Rng}.
Local Abbreviation M := (M F Row Rng).

(** The body of [optimize] up to its [return]: the arrays the names [X],
    [y], [current_solution] and [momentum] are bound to when the loops
    end. *)
Definition locals (X y initial_solution : loc)
    (calculate_gradient : gradient_source)
    (learning_rate momentum_decay : option F) (max_num_epoch : option Z)
    (batch_size batch_fraction : option (py_number F))
    : M (loc * loc * loc * loc) :=
  let learning_rate := default (decimal 1 100) learning_rate in
  let momentum_decay := default (decimal 9 10) momentum_decay in
  let max_num_epoch := default 1000%Z max_num_epoch in
  let batch_size := default (PyInt 1) batch_size in
  let* '(X, y) := transfer_data_to_numpy X y in
  let* '(batch_size, iterations) :=
    calculate_batch_size_and_iteration batch_size batch_fraction X in
  let current_solution := initial_solution in
  let* momentum := new_zeros_like initial_solution in
  for_range max_num_epoch (λ _ '(X, y, current_solution, momentum),
    let* '(X, y) := shuffled X y in
    let* '(current_solution, momentum) :=
      for_range iterations (λ idx '(current_solution, momentum),
        let* batch := select_batch X y idx batch_size in
        let* gradient := gradient_at calculate_gradient batch current_solution in
        let* velocity := load momentum in
        let* velocity' :=
          lift (np_sub (scale momentum_decay velocity)
                       (scale learning_rate gradient)) in
        let* momentum := new velocity' in
        let* solution := load current_solution in
        let* velocity := load momentum in
        let* updated := lift (np_add solution velocity) in
        let* current_solution := new updated in
        ret (current_solution, momentum)) (current_solution, momentum) in
    ret (X, y, current_solution, momentum))
    (X, y, current_solution, momentum).

Definition optimize (X y initial_solution : loc)
    (calculate_gradient : gradient_source)
    (learning_rate momentum_decay : option F) (max_num_epoch : option Z)
    (batch_size batch_fraction : option (py_number F)) : M loc :=
  let* '(_, _, current_solution, _) :=
    locals X y initial_solution calculate_gradient learning_rate
      momentum_decay max_num_epoch batch_size batch_fraction in
  ret current_solution.
End optimize.
End mini_batch_gradient_descent_with_momentum.

(** Lines 226 to 281. [squared_gradients] is bound once: the loop updates
    the array in place. *)
Module adagrad.
Section optimize.
Context {F Row Rng : Type} `{Scalar F} `{RandomSource Rng}.
Local Abbreviation M := (M F Row Rng).

Definition optimize (X y initial_solution : loc)
    (calculate_gradient : gradient_source)
    (learning_rate : option F) (max_num_epoch : option Z)
    (batch_size batch_fraction : option (py_number F))
    (epsilon : option F) : M loc :=
  let learning_rate := default (decimal 1 100) learning_rate in
  let max_num_epoch := default 1000%Z max_num_epoch in
  let batch_size := default (PyInt 1) batch_size in
  let epsilon := default (decimal 1 100000000) epsilon in
  let* '(X, y) := transfer_data_to_numpy X y in
  let* '(batch_size, iterations) :=
    calculate_batch_size_and_iteration batch_size batch_fraction X in
  let current_solution := initial_solution in
  let* squared_gradients := new_zeros_like initial_solution in
  let* '(_, _, current_solution) :=
    for_range max_num_epoch (λ _ '(X, y, current_solution),
      let* '(X, y) := shuffled X y in
      let* current_solution :=
        for_range iterations (λ idx current_solution,
          let* batch := select_batch X y idx batch_size in
          let* gradient := gradient_at calculate_gradient batch current_solution in
          let* accumulated := load squared_gradients in
          let* accumulated' := lift (np_iadd accumulated (square gradient)) in
          let* _ := store squared_gradients accumulated' in
          let* solution := load current_solution in
          let* accumulated := load squared_gradients in
          let* step :=
            lift (scaled_step learning_rate epsilon gradient accumulated) in
          let* updated := lift (np_sub solution step) in
          new updated) current_solution in
      ret (X, y, current_solution)) (X, y, current_solution) in
  ret current_solution.
End optimize.
End adagrad.

(** Lines 284 to 343. *)
Module rmsprop.
Section optimize.
Context {F Row Rng : Type} `{Scalar F} `{RandomSource Rng}.
Local Abbreviation M := (M F Row Rng).

Definition optimize (X y initial_solution : loc)
    (calculate_gradient : gradient_source)
    (learning_rate squared_gradient_decay : option F)
    (max_num_epoch : option Z)
    (batch_size batch_fraction : option (py_number F))
    (epsilon : option F) : M loc :=
  let learning_rate := default (decimal 1 100) learning_rate in
  let squared_gradient_decay := default (decimal 99 100) squared_gradient_decay in
  let max_num_epoch := default 1000%Z max_num_epoch in
  let batch_size := default (PyInt 1) batch_size in
  let epsilon := default (decimal 1 100000000) epsilon in
  let* '(X, y) := transfer_data_to_numpy X y in
  let* '(batch_size, iterations) :=
    calculate_batch_size_and_iteration batch_size batch_fraction X in
  let current_solution := initial_solution in
  let* squared_gradients := new_zeros_like initial_solution in
  let* '(_, _, current_solution, _) :=
    for_range max_num_epoch (λ _ '(X, y, current_solution, squared_gradients),
      let* '(X, y) := shuffled X y in
      let* '(current_solution, squared_gradients) :=
        for_range iterations (λ idx '(current_solution, squared_gradients),
          let* batch := select_batch X y idx batch_size in
          let* gradient := gradient_at calculate_gradient batch current_solution in
          let* accumulated := load squared_gradients in
          let* accumulated' :=
            lift (moving_average squared_gradient_decay accumulated
                    (square gradient)) in
          let* squared_gradients := new accumulated' in
          let* solution := load current_solution in
          let* accumulated := load squared_gradients in
          let* step :=
            lift (scaled_step learning_rate epsilon gradient accumulated) in
          let* updated := lift (np_sub solution step) in
          let* current_solution := new updated in
          ret (current_solution, squared_gradients))
          (current_solution, squared_gradients) in
      ret (X, y, current_solution, squared_gradients))
      (X, y, current_solution, squared_gradients) in
  ret current_solution.
End optimize.
End rmsprop.

(** Lines 346 to 426. The permutation of an epoch is drawn and left
    unused: the line that indexes [X] and [y] with it is a comment in the
    source. *)
Module adam.
Section optimize.
Context {F Row Rng : Type} `{Scalar F} `{RandomSource Rng}.
Local Abbreviation M := (M F Row Rng).

(** [neural_network.calculate_and_extract_gradient(X_selected, y_selected,
    current_solution, using_backpropagation)] *)
Definition network : Type := list Row → list Row → list F → bool → list F.

(** [momentum / (1 - momentum_decay**counter)] *)
Definition bias_correction (decay : F) (counter : nat) (average : list F)
    : list F :=
  divide_by average (of_int 1 ⊖ f_pow decay counter).

Definition optimize (X y initial_solution : loc)
    (neural_network : network) (using_backpropagation : bool)
    (learning_rate momentum_decay squared_gradient_decay : option F)
    (max_num_epoch : option Z)
    (batch_size batch_fraction : option (py_number F))
    (epsilon : option F) : M loc :=
  let learning_rate := default (decimal 1 100) learning_rate in
  let momentum_decay := default (decimal 9 10) momentum_decay in
  let squared_gradient_decay := default (decimal 99 100) squared_gradient_decay in
  let max_num_epoch := default 1000%Z max_num_epoch in
  let batch_size := default (PyInt 10) batch_size in
  let epsilon := default (decimal 1 100000000) epsilon in
  let* '(X, y) := transfer_data_to_numpy X y in
  let* '(batch_size, iterations) :=
    calculate_batch_size_and_iteration batch_size batch_fraction X in
  let current_solution := initial_solution in
  let* momentum := new_zeros_like initial_solution in
  let* squared_gradients := new_zeros_like initial_solution in
  let counter := 0%nat in
  let* '(current_solution, _, _, _) :=
    for_range max_num_epoch
      (λ i '(current_solution, momentum, squared_gradients, counter),
        let* N := shape0 X in
        let* shuffled_idx := np_random_permutation (Z.to_nat N) in
        for_range iterations
          (λ idx '(current_solution, momentum, squared_gradients, counter),
            let* batch := select_batch X y idx batch_size in
            let* gradient :=
              gradient_at
                (λ X_selected y_selected solution,
                   neural_network X_selected y_selected solution
                     using_backpropagation)
                batch current_solution in
            let* average := load momentum in
            let* average' :=
              lift (moving_average momentum_decay average gradient) in
            let* momentum := new average' in
            let* accumulated := load squared_gradients in
            let* accumulated' :=
              lift (moving_average squared_gradient_decay accumulated
                      (square gradient)) in
            let* squared_gradients := new accumulated' in
            let counter := S counter in
            let* average := load momentum in
            let corrected_momentum :=
              bias_correction momentum_decay counter average in
            let* accumulated := load squared_gradients in
            let corrected_squared_gradients :=
              bias_correction squared_gradient_decay counter accumulated in
            let* solution := load current_solution in
            let* step :=
              lift (scaled_step learning_rate epsilon corrected_momentum
                      corrected_squared_gradients) in
            let* updated := lift (np_sub solution step) in
            let* current_solution := new updated in
            ret (current_solution, momentum, squared_gradients, counter))
          (current_solution, momentum, squared_gradients, counter))
      (current_solution, momentum, squared_gradients, counter) in
  ret current_solution.
End optimize.
End adam.

(** ** Every optimizer at once *)

(** The five update rules, and the keyword arguments [optimize] is given:
    each optimizer takes from them the ones its signature has. *)
Inductive algorithm : Type := PlainDescent | Momentum | Adagrad | RMSProp | Adam.

Record keywords (F : Type) : Type := Keywords {
  kw_learning_rate : option F;
  kw_max_num_epoch : option Z;
  kw_batch_size : option (py_number F);
  kw_batch_fraction : option (py_number F);
  kw_momentum_decay : option F;
  kw_squared_gradient_decay : option F;
  kw_epsilon : option F
}.
Arguments Keywords {F}.
Arguments kw_learning_rate {F}.
Arguments kw_max_num_epoch {F}.
Arguments kw_batch_size {F}.
Arguments kw_batch_fraction {F}.
Arguments kw_momentum_decay {F}.
Arguments kw_squared_gradient_decay {F}.
Arguments kw_epsilon {F}.

Section every_optimizer.
Context {F Row Rng : Type} `{Scalar F} `{RandomSource Rng}.

Definition optimize (a : algorithm) (X y initial_solution : loc)
    (calculate_gradient : gradient_source) (kw : keywords F)
    : M F Row Rng loc :=
  match a with
  | PlainDescent =>
      mini_batch_gradient_descent.optimize X y initial_solution
        calculate_gradient (kw_learning_rate kw) (kw_max_num_epoch kw)
        (kw_batch_size kw) (kw_batch_fraction kw)
  | Momentum =>
      mini_batch_gradient_descent_with_momentum.optimize X y initial_solution
        calculate_gradient (kw_learning_rate kw) (kw_momentum_decay kw)
        (kw_max_num_epoch kw) (kw_batch_size kw) (kw_batch_fraction kw)
  | Adagrad =>
      adagrad.optimize X y initial_solution calculate_gradient
        (kw_learning_rate kw) (kw_max_num_epoch kw) (kw_batch_size kw)
        (kw_batch_fraction kw) (kw_epsilon kw)
  | RMSProp =>
      rmsprop.optimize X y initial_solution calculate_gradient
        (kw_learning_rate kw) (kw_squared_gradient_decay kw)
        (kw_max_num_epoch kw) (kw_batch_size kw) (kw_batch_fraction kw)
        (kw_epsilon kw)
  | Adam =>
      adam.optimize X y initial_solution
        (λ X_selected y_selected solution _,
           calculate_gradient X_selected y_selected solution) true
        (kw_learning_rate kw) (kw_momentum_decay kw)
        (kw_squared_gradient_decay kw) (kw_max_num_epoch kw)
        (kw_batch_size kw) (kw_batch_fraction kw) (kw_epsilon kw)
  end.
End every_optimizer.

(** ** A scripted random source *)

(** The generator state is the list of the rotations still to be drawn:
    each draw returns [0, ..., n-1] rotated by the head of the list, and the
    identity once the list is used up. *)
Definition scripted_permutation (r : list nat) (n : nat) : list nat * list nat :=
  match r with
  | [] => (seq 0 n, [])
  | k :: r' => (rotate k (seq 0 n), r')
  end.

#[export] Instance scripted : RandomSource (list nat).
Proof.
  refine {| permutation := scripted_permutation |}.
  intros [|k r] n; simpl; [done|].
  unfold rotate. by rewrite Permutation_app_comm, take_drop.
Defined.

(** * The vocabulary of the properties *)

Section vocabulary.
Context {F Row Rng : Type}.
Local Abbreviation state := (state F Row Rng).
Local Abbreviation M := (M F Row Rng).

(** The parameters a run returns: the values of the array [optimize]
    returned, when it returned one. *)
Definition returned (run : (exception + loc) * state) : option (list F) :=
  match run.1 with
  | inr l => match heap run.2 !! l with Some (Tensor v) => Some v | _ => None end
  | inl _ => None
  end.

(** [J] is an invariant of [m]: from a state that satisfies it, [m] ends,
    by a return or by an exception, in a state that satisfies it, and a
    value it returns satisfies [Q]. *)
Definition keeps {A} (J : state → Prop) (m : M A) (Q : A → Prop) : Prop :=
  ∀ st, J st → J (m st).2 ∧ ∀ x, (m st).1 = inr x → Q x.

(** The arrays at the locations below [n] are those of [h]. *)
Definition below (n : nat) (h : list (object F Row)) (st : state) : Prop :=
  take n (heap st) = h ∧ n ≤ length (heap st).

(** The array at [l] is the one the caller passed as [initial_solution], or
    one that was made after the store had [n] arrays. *)
Definition initial_or_new (n : nat) (initial_solution l : loc) : Prop :=
  l = initial_solution ∨ n ≤ l.

(** A call of the gradient source on the batch number [i] of the rows [xs]
    and [ys], for some [i]. *)
Definition is_batch (xs ys : list Row) (batch_size : Z)
    (call : list Row * list Row * list F) : Prop :=
  ∃ i : nat,
    call.1.1 = py_slice xs (Z.of_nat i * batch_size)
                 ((Z.of_nat i + 1) * batch_size) ∧
    call.1.2 = py_slice ys (Z.of_nat i * batch_size)
                 ((Z.of_nat i + 1) * batch_size).

(** [X] and [y] are bound to the rows [xs] and [ys], and every call of the
    gradient source since the log was [log] was on a batch of them. *)
Definition batches_of (X y : loc) (xs ys : list Row) (batch_size : Z)
    (log : list (list Row * list Row * list F)) (st : state) : Prop :=
  heap st !! X = Some (Rows xs) ∧ heap st !! y = Some (Rows ys) ∧
  ∃ calls, gradient_log st = log ++ calls ∧
           Forall (is_batch xs ys batch_size) calls.

(** Two states that differ in the state of the generator at most. *)
Definition same_arrays (st1 st2 : state) : Prop :=
  heap st1 = heap st2 ∧ gradient_log st1 = gradient_log st2.

(** [m] does the same from two such states: the same result, the same
    arrays, the same calls of the gradient source. *)
Definition blind {A} (m : M A) : Prop :=
  ∀ st1 st2, same_arrays st1 st2 →
    (m st1).1 = (m st2).1 ∧ same_arrays (m st1).2 (m st2).2.

(** [m], run in [st], ends in a result and a state that satisfy [Q]. *)
Definition wp {A} (m : M A) (st : state)
    (Q : exception + A → state → Prop) : Prop :=
  Q (m st).1 (m st).2.

(** Every array of [st] is in [st'], unchanged. *)
Definition extends (st st' : state) : Prop :=
  ∀ l o, heap st !! l = Some o → heap st' !! l = Some o.

(** [m] leaves the state as it is. *)
Definition reads {A} (m : M A) : Prop := ∀ st, (m st).2 = st.
End vocabulary.

(** ** The runs the examples are made of, on binary64 *)

(** A dataset of one sample, parameters [[0.0]] and a gradient source that
    returns [[1.0]] whatever it is given. *)
Definition one_sample : state float (list float) (list nat) :=
  State [Rows [[7%float]]; Rows [[3%float]]; Tensor [0%float]] [] [].

Definition constant_gradient : gradient_source (F:=float) (Row:=list float) :=
  λ _ _ _, [1%float].

(** [learning_rate=0.1], [max_num_epoch=1], [batch_size=1], and
    [momentum_decay=0.5] for the optimizers that take one. *)
Definition one_step : keywords float :=
  Keywords (Some (decimal 1 10)) (Some 1%Z) (Some (PyInt 1)) None
           (Some (decimal 1 2)) None None.

Definition with_batch_fraction (f : float) : keywords float :=
  Keywords None None None (Some (PyFloat f)) None None None.

(** One sample and two parameters, and a gradient source that returns
    three values whatever it is given. *)
Definition two_parameters : state float (list float) (list nat) :=
  State [Rows [[7%float]]; Rows [[3%float]]; Tensor [0%float; 0%float]] [] [].

Definition three_values : gradient_source (F:=float) (Row:=list float) :=
  λ _ _ _, [1%float; 1%float; 1%float].

(** Three samples, of which a batch of two leaves one out, in the generator
    state [r]; the gradient is the first feature of the first row of the
    batch. *)
Definition three_samples (r : list nat) : state float (list float) (list nat) :=
  State [Rows [[1%float]; [2%float]; [3%float]];
         Rows [[1%float]; [2%float]; [3%float]];
         Tensor [0%float]] r [].

Definition first_feature : gradient_source (F:=float) (Row:=list float) :=
  λ X_selected _ _,
    match X_selected with
    | (x :: _) :: _ => [x]
    | _ => [0%float]
    end.

Definition one_epoch_of_pairs : keywords float :=
  Keywords (Some (decimal 1 10)) (Some 1%Z) (Some (PyInt 2)) None None None None.

(** ** The vocabulary of the further properties *)

Section outcomes.
Context {F Row Rng : Type}.
Local Abbreviation state := (state F Row Rng).
Local Abbreviation M := (M F Row Rng).
Local Abbreviation call := (list Row * list Row * list F)%type.

(** What holds when [m] has ended: [Q] of the value and the state when it
    returned, [E] of the state when it raised. *)
Definition outcome {A} (Q : A → state → Prop) (E : exception → state → Prop)
    (r : exception + A) (st : state) : Prop :=
  match r with inr x => Q x st | inl e => E e st end.

(** [m] calls the gradient source [n] times when it returns, and no more
    than [n] times when it raises. *)
Definition makes {A} (n : nat) (m : M A) : Prop :=
  ∀ st, ∃ calls,
    gradient_log (m st).2 = gradient_log st ++ calls ∧
    length calls ≤ n ∧
    ∀ x, (m st).1 = inr x → length calls = n.

(** Every array of samples of [st] is in [st'], unchanged. *)
Definition keeps_rows (st st' : state) : Prop :=
  ∀ l rows, heap st !! l = Some (Rows rows) → heap st' !! l = Some (Rows rows).

(** From [st] to [st'] the arrays of samples were kept and the gradient
    source was called on [calls], in this order. *)
Definition since (st st' : state) (calls : list call) : Prop :=
  keeps_rows st st' ∧ gradient_log st' = gradient_log st ++ calls.

(** The samples and the targets have [n] rows each. *)
Definition dataset (X y : loc) (n : nat) (st : state) : Prop :=
  ∃ xs ys, heap st !! X = Some (Rows xs) ∧ heap st !! y = Some (Rows ys) ∧
           length xs = n ∧ length ys = n.

(** The samples and the targets of an epoch: those of the caller, [xs] and
    [ys], put in another order by one permutation. *)
Definition reordered (xs ys : list Row) (X y : loc) (st : state) : Prop :=
  ∃ xs' ys',
    heap st !! X = Some (Rows xs') ∧ heap st !! y = Some (Rows ys') ∧
    zip xs' ys' ≡ₚ zip xs ys ∧
    length xs' = length xs ∧ length xs ≤ length ys'.

(** The call number [i] is on the rows
    [i * batch_size : (i + 1) * batch_size] of [xs] and of [ys]. *)
Definition in_order (xs ys : list Row) (batch_size : Z) (calls : list call)
    : Prop :=
  ∀ i call, calls !! i = Some call →
    call.1.1 = py_slice xs (Z.of_nat i * batch_size)
                 ((Z.of_nat i + 1) * batch_size) ∧
    call.1.2 = py_slice ys (Z.of_nat i * batch_size)
                 ((Z.of_nat i + 1) * batch_size).

(** The calls of an epoch that shuffles: in the order of the samples and
    the targets once one permutation has been applied to both. *)
Definition shuffled_epoch (xs ys : list Row) (batch_size : Z)
    (calls : list call) : Prop :=
  ∃ xs' ys',
    zip xs' ys' ≡ₚ zip xs ys ∧
    length xs' = length xs ∧ length ys' = length xs ∧
    in_order xs' ys' batch_size calls.

(** What a run that started in [st] has done when it ends with [r] in
    [st']: the calls of its epochs, each of which satisfies [P] and has no
    more than [iterations] calls; when the run returned, there are [epochs]
    of them, of [iterations] calls each. *)
Definition epochs_made (P : list call → Prop) (epochs iterations : Z)
    (st : state) {A} (r : exception + A) (st' : state) : Prop :=
  ∃ done,
    gradient_log st' = gradient_log st ++ concat done ∧
    Forall (λ e, P e ∧ length e ≤ Z.to_nat iterations) done ∧
    length done ≤ Z.to_nat epochs ∧
    (∀ x, r = inr x →
       length done = Z.to_nat epochs ∧
       Forall (λ e, length e = Z.to_nat iterations) done).

(** The run raised [IndexError] without a call of the gradient source. *)
Definition index_error (st : state) {A} (r : exception + A) (st' : state)
    : Prop :=
  r = inl IndexError ∧ gradient_log st' = gradient_log st.
End outcomes.

(** ** More runs, on binary64 and on the real numbers *)

(** A [batch_size] that is a [float], with a [batch_fraction]. *)
Definition float_batch_size : keywords float :=
  Keywords None None (Some (PyFloat 2%float)) (Some (PyFloat (decimal 1 2)))
           None None None.

Definition zero_batch_size : keywords float :=
  Keywords None None (Some (PyInt 0)) None None None None.

(** No sample at all. *)
Definition no_sample : state float (list float) (list nat) :=
  State [Rows []; Rows []; Tensor [0%float]] [] [].

(** Three samples and two targets. *)
Definition one_target_short : state float (list float) (list nat) :=
  State [Rows [[1%float]; [2%float]; [3%float]];
         Rows [[1%float]; [2%float]];
         Tensor [0%float]] [] [].

(** Three samples with their targets and one parameter, over the real
    numbers. *)
Definition three_real_samples : state R nat (list nat) :=
  State [Rows [1; 2; 3]; Rows [4; 5; 6]; Tensor [0%R]] [] [].

Definition with_batch_size (b : Z) : keywords R :=
  Keywords None None (Some (PyInt b)) None None None None.

(** ** The update rules and their replay *)

Section update_rules.
Context {F : Type} `{Scalar F}.

(** Sequencing of numpy expressions, the first exception ending it. *)
Definition and_then {A B} (r : exception + A) (k : A → exception + B)
    : exception + B :=
  match r with inr x => k x | inl e => inl e end.

(** Line 95: [current_solution - learning_rate * gradient]. *)
Definition descent_step (learning_rate : F) (solution gradient : list F)
    : exception + list F :=
  np_sub solution (scale learning_rate gradient).

(** Lines 220 and 221, on the values of [current_solution] and
    [momentum]. *)
Definition momentum_step (learning_rate momentum_decay : F)
    (s : list F * list F) (gradient : list F) : exception + list F * list F :=
  let '(solution, momentum) := s in
  and_then (np_sub (scale momentum_decay momentum)
                   (scale learning_rate gradient)) (λ momentum,
  and_then (np_add solution momentum) (λ solution,
  inr (solution, momentum))).

(** Lines 276 to 279, on the values of [current_solution] and
    [squared_gradients]. *)
Definition adagrad_step (learning_rate epsilon : F)
    (s : list F * list F) (gradient : list F) : exception + list F * list F :=
  let '(solution, squared_gradients) := s in
  and_then (np_iadd squared_gradients (square gradient)) (λ squared_gradients,
  and_then (scaled_step learning_rate epsilon gradient squared_gradients) (λ step,
  and_then (np_sub solution step) (λ solution,
  inr (solution, squared_gradients)))).

(** Lines 335 to 341. *)
Definition rmsprop_step (learning_rate squared_gradient_decay epsilon : F)
    (s : list F * list F) (gradient : list F) : exception + list F * list F :=
  let '(solution, squared_gradients) := s in
  and_then (moving_average squared_gradient_decay squared_gradients
              (square gradient)) (λ squared_gradients,
  and_then (scaled_step learning_rate epsilon gradient squared_gradients) (λ step,
  and_then (np_sub solution step) (λ solution,
  inr (solution, squared_gradients)))).

(** Lines 405 to 423, on the values of [current_solution], [momentum],
    [squared_gradients] and [counter]. *)
Definition adam_step
    (learning_rate momentum_decay squared_gradient_decay epsilon : F)
    (s : list F * list F * list F * nat) (gradient : list F)
    : exception + list F * list F * list F * nat :=
  let '(solution, momentum, squared_gradients, counter) := s in
  and_then (moving_average momentum_decay momentum gradient) (λ momentum,
  and_then (moving_average squared_gradient_decay squared_gradients
              (square gradient)) (λ squared_gradients,
  let counter := S counter in
  let corrected_momentum :=
    adam.bias_correction momentum_decay counter momentum in
  let corrected_squared_gradients :=
    adam.bias_correction squared_gradient_decay counter squared_gradients in
  and_then (scaled_step learning_rate epsilon corrected_momentum
              corrected_squared_gradients) (λ step,
  and_then (np_sub solution step) (λ solution,
  inr (solution, momentum, squared_gradients, counter))))).
End update_rules.

Section replay_of_calls.
Context {F Row Rng : Type}.
Local Abbreviation state := (state F Row Rng).
Local Abbreviation call := (list Row * list Row * list F)%type.

(** An update rule applied along a list of calls: at each call, to the
    gradient that the source returns for the batch of the call and the
    parameters [parameters s] of the time. *)
Fixpoint replay {S} (step : S → list F → exception + S)
    (parameters : S → list F)
    (source : list Row → list Row → list F → list F)
    (calls : list call) (s : S) : exception + S :=
  match calls with
  | [] => inr s
  | call :: calls' =>
      match step s (source call.1.1 call.1.2 (parameters s)) with
      | inr s' => replay step parameters source calls' s'
      | inl e => inl e
      end
  end.

(** A run that started in [st] with the values [s] has ended with [r] in
    [st'] as the update rule tells: the calls it made are in the log; it
    raised the exception that the rule raises along them, or it returned an
    array holding the parameters of the values they lead to. *)
Definition replays {S} (step : S → list F → exception + S)
    (parameters : S → list F)
    (source : list Row → list Row → list F → list F)
    (s : S) (st : state) (r : exception + loc) (st' : state) : Prop :=
  ∃ calls,
    gradient_log st' = gradient_log st ++ calls ∧
    match replay step parameters source calls s with
    | inr s' => ∃ l, r = inr l ∧ heap st' !! l = Some (Tensor (parameters s'))
    | inl e => r = inl e
    end.
End replay_of_calls.

Section played.
Context {F Row Rng : Type}.
Local Abbreviation state := (state F Row Rng).
Context {S : Type} (step : S → list F → exception + S) (parameters : S → list F).
Context (source : list Row → list Row → list F → list F).

(** What is left to show of a computation that started in [st] with the
    values [s], once it has ended with [r] in [st']. *)
Definition played {U} (I : U → S → state → Prop) (s : S) (st : state)
    (Q : exception + U → state → Prop) : Prop :=
  ∀ st' cur, since st st' cur →
    match replay step parameters source cur s with
    | inr s' => ∀ u', I u' s' st' → Q (inr u') st'
    | inl e => Q (inl e) st'
    end.
End played.

(** Three samples with their targets and the parameter [w], over the real
    numbers; a gradient that is zero everywhere, and the gradient of half
    the square of the parameters. *)
Definition three_real_samples_at (w : R) : state R nat (list nat) :=
  State [Rows [1; 2; 3]; Rows [4; 5; 6]; Tensor [w]] [] [].

Definition flat : gradient_source (F:=R) (Row:=nat) := λ _ _ w, zeros_like w.

Definition half_square : gradient_source (F:=R) (Row:=nat) := λ _ _ w, w.

Definition whole_batch_once : keywords R :=
  Keywords None (Some 1%Z) (Some (PyInt 3)) None None None None.

(** ** The calls of the presets, and batches that are full *)

Section preset_vocabulary.
Context {F Row : Type}.
Local Abbreviation call := (list Row * list Row * list F)%type.

(** The samples and the targets of a call. *)
Definition batch_of (c : call) : list Row * list Row := (c.1.1, c.1.2).

(** The calls of an epoch are on one sample and its target each, and no
    pair of the caller is visited twice: they go through the beginning of
    the pairs of [xs] and [ys] put in some order. *)
Definition one_pair_per_call (xs ys : list Row) (calls : list call) : Prop :=
  ∃ pairs,
    pairs ≡ₚ zip xs ys ∧
    map batch_of calls
    = map (λ p, ([p.1], [p.2])) (take (length calls) pairs).

(** Every call of an epoch is on all the samples with their targets, in
    some order. *)
Definition whole_dataset (xs ys : list Row) (calls : list call) : Prop :=
  Forall (λ c : call,
            length c.1.1 = length xs ∧ length c.1.2 = length xs ∧
            zip c.1.1 c.1.2 ≡ₚ zip xs ys) calls.

(** A call on [n] samples and [n] targets. *)
Definition batch_of_size (n : nat) (c : call) : Prop :=
  length c.1.1 = n ∧ length c.1.2 = n.
End preset_vocabulary.

(** A gradient that is 1 everywhere, over the real numbers. *)
Definition steady : gradient_source (F:=R) (Row:=nat) := λ _ _ _, [1%R].

(** ** The random generator *)

Section generator_vocabulary.
Context {F Row Rng : Type} `{RandomSource Rng}.

(** The state of the generator once a permutation of [n] has been drawn in
    the state [r]. *)
Definition draw (n : nat) (r : Rng) : Rng := (permutation r n).2.

(** [m] leaves the generator alone. *)
Definition quiet {A} (m : M F Row Rng A) : Prop :=
  ∀ st, rng (m st).2 = rng st.

(** A run from [st] to [st'] that ended with [r] has drawn a permutation of
    [n] in each of the [epochs] epochs it has started, and nothing else. *)
Definition has_drawn {A} (n : nat) (epochs : Z) (st : state F Row Rng)
    (r : exception + A) (st' : state F Row Rng) : Prop :=
  ∃ j, rng st' = Nat.iter j (draw n) (rng st) ∧
       j ≤ Z.to_nat epochs ∧
       ∀ x, r = inr x → j = Z.to_nat epochs.
End generator_vocabulary.

(** * Invariants of a run *)

Section invariants.
Context {F Row Rng : Type} `{Scalar F} `{RandomSource Rng}.
Local Abbreviation M := (M F Row Rng).
Local Abbreviation state := (state F Row Rng).
Implicit Types J : state → Prop.

Lemma keeps_ret {A} J (x : A) (Q : A → Prop) : Q x → keeps J (ret x) Q.
Proof. intros HQ st HJ. split; [done | by intros ? [= <-]]. Qed.

Lemma keeps_raise {A} J e (Q : A → Prop) : keeps J (raise e) Q.
Proof. intros st HJ. split; [done | by intros ? [=]]. Qed.

Lemma keeps_lift {A} J (r : exception + A) : keeps J (lift r) (λ _, True).
Proof. destruct r; [apply keeps_raise | by apply keeps_ret]. Qed.

Lemma keeps_weaken {A} J (m : M A) (Q Q' : A → Prop) :
  keeps J m Q → (∀ x, Q x → Q' x) → keeps J m Q'.
Proof. intros Hm HQ st HJ. destruct (Hm st HJ). naive_solver. Qed.

Lemma keeps_true {A} J (m : M A) Q : keeps J m Q → keeps J m (λ _, True).
Proof. intros Hm. by eapply keeps_weaken. Qed.

Lemma keeps_bind {A B} J (m : M A) (k : A → M B) Q R :
  keeps J m Q → (∀ x, Q x → keeps J (k x) R) → keeps J (bind m k) R.
Proof.
  intros Hm Hk st HJ. destruct (Hm st HJ) as [HJ' HQ].
  unfold bind. destruct (m st) as [[e|x] st']; simpl in *; [done|].
  by apply (Hk x (HQ x eq_refl) st').
Qed.

Lemma keeps_load J l : keeps J (load l) (λ _ : list F, True).
Proof.
  intros st HJ. unfold load. by destruct (heap st !! l) as [[]|].
Qed.

Lemma keeps_load_rows J l : keeps J (load_rows l) (λ _ : list Row, True).
Proof.
  intros st HJ. unfold load_rows. by destruct (heap st !! l) as [[]|].
Qed.

Lemma keeps_load_rows_of J l rows :
  (∀ st, J st → heap st !! l = Some (Rows rows)) →
  keeps J (load_rows l) (λ r, r = rows).
Proof.
  intros Hl st HJ. unfold load_rows. rewrite (Hl st HJ). simpl.
  split; [done | by intros ? [= <-]].
Qed.

Lemma keeps_alloc J (o : object F Row) (Q : loc → Prop) :
  (∀ st, J st →
     J (State (heap st ++ [o]) (rng st) (gradient_log st)) ∧
     Q (length (heap st))) →
  keeps J (alloc o) Q.
Proof.
  intros HJo st HJ. destruct (HJo st HJ) as [HJ' HQ].
  split; [done | by intros ? [= <-]].
Qed.

Lemma keeps_store J l v :
  (∀ st, J st → J (State (<[l := Tensor v]> (heap st)) (rng st) (gradient_log st))) →
  keeps J (store l v) (λ _, True).
Proof. intros HJs st HJ. split; [by apply HJs | done]. Qed.

Lemma keeps_permutation J n :
  (∀ st r, J st → J (State (heap st) r (gradient_log st))) →
  keeps J (np_random_permutation n) (λ _, True).
Proof.
  intros HJr st HJ. unfold np_random_permutation.
  destruct (permutation (rng st) n) as [p r]. split; [by apply HJr | done].
Qed.

Lemma keeps_call J source (Xs ys : list Row) (v : list F) :
  (∀ st, J st → J (State (heap st) (rng st) (gradient_log st ++ [(Xs, ys, v)]))) →
  keeps J (call_gradient source Xs ys v) (λ _, True).
Proof. intros HJc st HJ. split; [by apply HJc | done]. Qed.

Lemma keeps_for_each {T} J (body : nat → T → M T) (I : T → Prop) idxs s :
  (∀ i s, I s → keeps J (body i s) I) → I s → keeps J (for_each body idxs s) I.
Proof.
  intros Hbody. revert s.
  induction idxs as [|i idxs IH]; intros s Hs; simpl.
  - by apply keeps_ret.
  - eapply keeps_bind; [by apply Hbody | done].
Qed.

Lemma keeps_for_range {T} J (body : nat → T → M T) (I : T → Prop) k s :
  (∀ i s, I s → keeps J (body i s) I) → I s → keeps J (for_range k body s) I.
Proof. apply keeps_for_each. Qed.

(** The parts of the optimizers that only read the store keep every
    invariant. *)
Lemma keeps_shape0 J X : keeps J (shape0 X) (λ _, True).
Proof.
  unfold shape0. eapply keeps_bind; [apply keeps_load_rows|].
  intros. by apply keeps_ret.
Qed.

Lemma keeps_slice_rows J X i j : keeps J (slice_rows X i j) (λ _, True).
Proof.
  unfold slice_rows. eapply keeps_bind; [apply keeps_load_rows|].
  intros. by apply keeps_ret.
Qed.

Lemma keeps_select_batch J X y idx batch_size :
  keeps J (select_batch X y idx batch_size) (λ _, True).
Proof.
  unfold select_batch.
  eapply keeps_bind; [apply keeps_slice_rows | intros].
  eapply keeps_bind; [apply keeps_slice_rows | intros].
  by apply keeps_ret.
Qed.

Lemma keeps_transfer J X y : keeps J (transfer_data_to_numpy X y) (λ _, True).
Proof. by apply keeps_ret. Qed.

Lemma keeps_planner J batch_size batch_fraction X :
  keeps J (calculate_batch_size_and_iteration batch_size batch_fraction X)
    (λ _, True).
Proof.
  unfold calculate_batch_size_and_iteration.
  destruct batch_size; [|apply keeps_raise].
  eapply keeps_bind with (Q := λ _, True).
  - destruct batch_fraction; [|by apply keeps_ret].
    destruct (_ && _); [|apply keeps_raise].
    eapply keeps_bind; [apply keeps_shape0 | intros; apply keeps_lift].
  - intros. eapply keeps_bind; [apply keeps_shape0 | intros].
    eapply keeps_bind; [apply keeps_lift | intros].
    eapply keeps_bind; [apply keeps_lift | intros].
    by apply keeps_ret.
Qed.
End invariants.

(** ** The arrays a run leaves in place *)

Section arrays_below.
Context {F Row Rng : Type} `{Scalar F} `{RandomSource Rng}.
Local Abbreviation M := (M F Row Rng).
Local Abbreviation state := (state F Row Rng).
Implicit Types h : list (object F Row).

Lemma below_alloc n h o : keeps (below n h) (alloc (Rng:=Rng) o) (λ l, n ≤ l).
Proof.
  apply keeps_alloc. intros st [Hh Hn]. unfold below; simpl.
  rewrite take_app_le, length_app by done. split; [split|]; [done | lia | done].
Qed.

Lemma below_store n h l v :
  n ≤ l → keeps (below n h) (store (Rng:=Rng) l v) (λ _, True).
Proof.
  intros Hl. apply keeps_store. intros st [Hh Hn]. unfold below; simpl.
  by rewrite take_insert_ge, length_insert.
Qed.

Lemma below_permutation n h k :
  keeps (below n h) (np_random_permutation k) (λ _, True).
Proof. by apply keeps_permutation. Qed.

Lemma below_call n h source (Xs ys : list Row) (v : list F) :
  keeps (below n h) (call_gradient (Rng:=Rng) source Xs ys v) (λ _, True).
Proof. by apply keeps_call. Qed.

Lemma below_new n h (v : list F) : keeps (below n h) (new (Rng:=Rng) v) (λ l, n ≤ l).
Proof. apply below_alloc. Qed.

Lemma below_new_zeros_like n h a :
  keeps (below n h) (new_zeros_like (Rng:=Rng) a) (λ l, n ≤ l).
Proof.
  unfold new_zeros_like. eapply keeps_bind; [apply keeps_load|].
  intros. apply below_new.
Qed.

Lemma below_index_rows n h X idx :
  keeps (below n h) (index_rows (Rng:=Rng) X idx) (λ l, n ≤ l).
Proof.
  unfold index_rows.
  eapply keeps_bind; [apply keeps_load_rows | intros].
  eapply keeps_bind; [apply keeps_lift | intros].
  apply below_alloc.
Qed.

Lemma below_gradient_at n h source batch (solution : loc) :
  keeps (below n h) (gradient_at (Rng:=Rng) source batch solution) (λ _, True).
Proof.
  unfold gradient_at. destruct batch.
  eapply keeps_bind; [apply keeps_load | intros].
  apply below_call.
Qed.

(** The arrays the shuffle of an epoch binds [X] and [y] to are new. *)
Lemma below_shuffled n h X y :
  keeps (below n h) (shuffled X y) (λ Xy, n ≤ Xy.1 ∧ n ≤ Xy.2).
Proof.
  unfold shuffled.
  eapply keeps_bind; [apply keeps_shape0 | intros N _].
  eapply keeps_bind; [apply below_permutation | intros idx _].
  eapply keeps_bind; [apply below_index_rows | intros X' HX'].
  eapply keeps_bind; [apply below_index_rows | intros y' Hy'].
  by apply keeps_ret.
Qed.

(** An array that was there when [m] started is there when [m] ends. *)
Lemma frame_of_keeps {A} (m : M A) Q (st : state) l o :
  keeps (below (length (heap st)) (heap st)) m Q →
  heap st !! l = Some o → heap (m st).2 !! l = Some o.
Proof.
  intros Hm Hl. destruct (Hm st) as [[Hh _] _].
  { split; [by rewrite firstn_all | done]. }
  rewrite <-(lookup_take_lt (heap (m st).2) (length (heap st)) l)
    by (by eapply lookup_lt_Some).
  by rewrite Hh.
Qed.
End arrays_below.

(** One step through a computation under the invariant [below]. *)
Ltac below_head :=
  first
    [ apply keeps_raise
    | apply keeps_lift
    | apply keeps_load
    | apply keeps_load_rows
    | apply keeps_shape0
    | apply keeps_slice_rows
    | apply keeps_select_batch
    | apply keeps_transfer
    | apply keeps_planner
    | apply below_permutation
    | apply below_call
    | apply below_gradient_at
    | apply below_new_zeros_like
    | apply (keeps_true _ _ _ (below_new _ _ _))
    | apply (keeps_true _ _ _ (below_shuffled _ _ _ _))
    | apply below_store; assumption
    | apply keeps_ret; done ].

Ltac below_go :=
  repeat lazymatch goal with
  | |- keeps _ (bind _ _) _ => eapply keeps_bind; [ | intros ? ? ]
  | |- keeps _ (match ?x with _ => _ end) _ => destruct x
  | |- keeps _ (for_range _ _ _) _ =>
      apply (keeps_for_range _ _ (λ _, True)); [ intros ? ? ? | done ]
  | |- keeps _ _ _ => below_head
  end.

Section optimizers_below.
Context {F Row Rng : Type} `{Scalar F} `{RandomSource Rng}.
Implicit Types h : list (object F Row).

Lemma below_mini_batch n h X y initial_solution source lr epochs bs bf :
  keeps (below n h)
    (mini_batch_gradient_descent.optimize (Rng:=Rng)
       X y initial_solution source lr epochs bs bf) (λ _, True).
Proof. unfold mini_batch_gradient_descent.optimize. below_go. Qed.

Lemma below_momentum n h X y initial_solution source lr decay epochs bs bf :
  keeps (below n h)
    (mini_batch_gradient_descent_with_momentum.optimize (Rng:=Rng)
       X y initial_solution source lr decay epochs bs bf) (λ _, True).
Proof.
  unfold mini_batch_gradient_descent_with_momentum.optimize,
    mini_batch_gradient_descent_with_momentum.locals.
  below_go.
Qed.

Lemma below_adagrad n h X y initial_solution source lr epochs bs bf eps :
  keeps (below n h)
    (adagrad.optimize (Rng:=Rng)
       X y initial_solution source lr epochs bs bf eps) (λ _, True).
Proof. unfold adagrad.optimize. below_go. Qed.

Lemma below_rmsprop n h X y initial_solution source lr decay epochs bs bf eps :
  keeps (below n h)
    (rmsprop.optimize (Rng:=Rng)
       X y initial_solution source lr decay epochs bs bf eps) (λ _, True).
Proof. unfold rmsprop.optimize. below_go. Qed.

Lemma below_adam n h X y initial_solution net flag lr d1 d2 epochs bs bf eps :
  keeps (below n h)
    (adam.optimize (Rng:=Rng)
       X y initial_solution net flag lr d1 d2 epochs bs bf eps) (λ _, True).
Proof. unfold adam.optimize. below_go. Qed.

Lemma below_optimize n h a X y initial_solution source kw :
  keeps (below n h)
    (optimize (Rng:=Rng) a X y initial_solution source kw) (λ _, True).
Proof.
  destruct a; simpl.
  - apply below_mini_batch.
  - apply below_momentum.
  - apply below_adagrad.
  - apply below_rmsprop.
  - apply below_adam.
Qed.
End optimizers_below.

(** ** The array [optimize] returns

    [current_solution] starts as the caller's array and every update binds
    it to the array a numpy expression made. *)

Ltac returned_go :=
  repeat lazymatch goal with
  | |- keeps _ (bind (new _) _) _ =>
      eapply keeps_bind; [ apply below_new | intros ? ? ]
  | |- keeps _ (bind _ _) _ => eapply keeps_bind; [ | intros ? ? ]
  | |- keeps _ (match ?x with _ => _ end) _ => destruct x
  | |- keeps _ (ret _) _ => apply keeps_ret; first [ done | by right ]
  | |- keeps _ _ _ => below_head
  end.

Section optimizers_return.
Context {F Row Rng : Type} `{Scalar F} `{RandomSource Rng}.
Implicit Types h : list (object F Row).

Lemma below_new_solution n h p (v : list F) :
  keeps (below n h) (new (Rng:=Rng) (Row:=Row) v) (initial_or_new n p).
Proof. eapply keeps_weaken; [apply below_new | by right]. Qed.

Lemma returns_mini_batch n h X y p source lr epochs bs bf :
  keeps (below n h)
    (mini_batch_gradient_descent.optimize (Rng:=Rng)
       X y p source lr epochs bs bf) (initial_or_new n p).
Proof.
  unfold mini_batch_gradient_descent.optimize.
  eapply keeps_bind; [apply keeps_transfer | intros [X0 y0] _].
  eapply keeps_bind; [apply keeps_planner | intros [b iterations] _].
  eapply keeps_bind with (Q := λ s, initial_or_new n p s.2).
  - apply keeps_for_range; [|by left].
    intros _ [[X1 y1] c] Hc.
    eapply keeps_bind;
      [apply (keeps_true _ _ _ (below_shuffled _ _ _ _)) | intros [X2 y2] _].
    eapply keeps_bind with (Q := initial_or_new n p).
    + apply keeps_for_range; [|done].
      intros i c' Hc'. returned_go. apply below_new_solution.
    + intros c' Hc'. by apply keeps_ret.
  - intros [[X1 y1] c] Hc. by apply keeps_ret.
Qed.

Lemma returns_momentum n h X y p source lr decay epochs bs bf :
  keeps (below n h)
    (mini_batch_gradient_descent_with_momentum.optimize (Rng:=Rng)
       X y p source lr decay epochs bs bf) (initial_or_new n p).
Proof.
  unfold mini_batch_gradient_descent_with_momentum.optimize,
    mini_batch_gradient_descent_with_momentum.locals.
  eapply keeps_bind with (Q := λ s, initial_or_new n p s.1.2).
  - eapply keeps_bind; [apply keeps_transfer | intros [X0 y0] _].
    eapply keeps_bind; [apply keeps_planner | intros [b iterations] _].
    eapply keeps_bind; [apply below_new_zeros_like | intros m0 _].
    apply keeps_for_range; [|by left].
    intros _ [[[X1 y1] c] m] Hc.
    eapply keeps_bind;
      [apply (keeps_true _ _ _ (below_shuffled _ _ _ _)) | intros [X2 y2] _].
    eapply keeps_bind with (Q := λ s, initial_or_new n p s.1).
    + apply keeps_for_range; [|done].
      intros i [c' m'] Hc'. returned_go.
    + intros [c' m'] Hc'. by apply keeps_ret.
  - intros [[[X1 y1] c] m] Hc. by apply keeps_ret.
Qed.

Lemma returns_adagrad n h X y p source lr epochs bs bf eps :
  keeps (below n h)
    (adagrad.optimize (Rng:=Rng) X y p source lr epochs bs bf eps)
    (initial_or_new n p).
Proof.
  unfold adagrad.optimize.
  eapply keeps_bind; [apply keeps_transfer | intros [X0 y0] _].
  eapply keeps_bind; [apply keeps_planner | intros [b iterations] _].
  eapply keeps_bind; [apply below_new_zeros_like | intros s0 Hs0].
  eapply keeps_bind with (Q := λ s, initial_or_new n p s.2).
  - apply keeps_for_range; [|by left].
    intros _ [[X1 y1] c] Hc.
    eapply keeps_bind;
      [apply (keeps_true _ _ _ (below_shuffled _ _ _ _)) | intros [X2 y2] _].
    eapply keeps_bind with (Q := initial_or_new n p).
    + apply keeps_for_range; [|done].
      intros i c' Hc'. returned_go. apply below_new_solution.
    + intros c' Hc'. by apply keeps_ret.
  - intros [[X1 y1] c] Hc. by apply keeps_ret.
Qed.

Lemma returns_rmsprop n h X y p source lr decay epochs bs bf eps :
  keeps (below n h)
    (rmsprop.optimize (Rng:=Rng) X y p source lr decay epochs bs bf eps)
    (initial_or_new n p).
Proof.
  unfold rmsprop.optimize.
  eapply keeps_bind; [apply keeps_transfer | intros [X0 y0] _].
  eapply keeps_bind; [apply keeps_planner | intros [b iterations] _].
  eapply keeps_bind; [apply below_new_zeros_like | intros s0 Hs0].
  eapply keeps_bind with (Q := λ s, initial_or_new n p s.1.2).
  - apply keeps_for_range; [|by left].
    intros _ [[[X1 y1] c] m] Hc.
    eapply keeps_bind;
      [apply (keeps_true _ _ _ (below_shuffled _ _ _ _)) | intros [X2 y2] _].
    eapply keeps_bind with (Q := λ s, initial_or_new n p s.1).
    + apply keeps_for_range; [|done].
      intros i [c' m'] Hc'. returned_go.
    + intros [c' m'] Hc'. by apply keeps_ret.
  - intros [[[X1 y1] c] m] Hc. by apply keeps_ret.
Qed.

Lemma returns_adam n h X y p net flag lr d1 d2 epochs bs bf eps :
  keeps (below n h)
    (adam.optimize (Rng:=Rng) X y p net flag lr d1 d2 epochs bs bf eps)
    (initial_or_new n p).
Proof.
  unfold adam.optimize.
  eapply keeps_bind; [apply keeps_transfer | intros [X0 y0] _].
  eapply keeps_bind; [apply keeps_planner | intros [b iterations] _].
  eapply keeps_bind; [apply below_new_zeros_like | intros m0 _].
  eapply keeps_bind; [apply below_new_zeros_like | intros s0 _].
  eapply keeps_bind with (Q := λ s, initial_or_new n p s.1.1.1).
  - apply keeps_for_range; [|by left].
    intros _ [[[c m] s] k] Hc.
    eapply keeps_bind; [apply keeps_shape0 | intros N _].
    eapply keeps_bind; [apply below_permutation | intros idx _].
    apply keeps_for_range; [|done].
    intros i [[[c' m'] s'] k'] Hc'. returned_go.
  - intros [[[c m] s] k] Hc. by apply keeps_ret.
Qed.

Lemma returns_optimize n h a X y p source kw :
  keeps (below n h)
    (optimize (Rng:=Rng) a X y p source kw) (initial_or_new n p).
Proof.
  destruct a; simpl.
  - apply returns_mini_batch.
  - apply returns_momentum.
  - apply returns_adagrad.
  - apply returns_rmsprop.
  - apply returns_adam.
Qed.

(** The array a run returns, from the invariant. *)
Lemma returned_of_keeps {A} (m : M F Row Rng A) Q (st : state F Row Rng) x :
  keeps (below (length (heap st)) (heap st)) m Q → (m st).1 = inr x → Q x.
Proof.
  intros Hm Hx. destruct (Hm st) as [_ HQ]; [|by apply HQ].
  split; [by rewrite firstn_all | done].
Qed.
End optimizers_return.

(** ** The batches [adam] calls the gradient source on *)

Section readers.
Context {F Row Rng : Type} `{Scalar F} `{RandomSource Rng}.
Local Abbreviation M := (M F Row Rng).
Local Abbreviation state := (state F Row Rng).

Lemma bind_returns {A B} (m : M A) (k : A → M B) st x st' :
  m st = (inr x, st') → bind m k st = k x st'.
Proof. unfold bind. by intros ->. Qed.

Lemma bind_raises {A B} (m : M A) (k : A → M B) st e st' :
  m st = (inl e, st') → bind m k st = (inl e, st').
Proof. unfold bind. by intros ->. Qed.

Lemma reads_bind {A B} (m : M A) (k : A → M B) :
  reads m → (∀ x, reads (k x)) → reads (bind m k).
Proof.
  intros Hm Hk st. unfold bind. specialize (Hm st).
  destruct (m st) as [[e|x] st']; simpl in *; subst; [done | apply Hk].
Qed.

Lemma reads_lift {A} (r : exception + A) : reads (lift (Rng:=Rng) (F:=F) (Row:=Row) r).
Proof. by destruct r. Qed.

Lemma reads_shape0 X : reads (shape0 (Rng:=Rng) (F:=F) (Row:=Row) X).
Proof.
  intros st. unfold shape0, bind, load_rows.
  by destruct (heap st !! X) as [[]|].
Qed.

(** The planner reads the store and nothing else. *)
Lemma planner_state batch_size batch_fraction X (st : state) :
  (calculate_batch_size_and_iteration batch_size batch_fraction X st).2 = st.
Proof.
  revert st.
  change (reads (calculate_batch_size_and_iteration (Rng:=Rng) (Row:=Row)
                   batch_size batch_fraction X)).
  unfold calculate_batch_size_and_iteration.
  destruct batch_size; [|done].
  apply reads_bind.
  - destruct batch_fraction; [|done].
    destruct (_ && _); [|done].
    apply reads_bind; [apply reads_shape0 | intros; apply reads_lift].
  - intros. apply reads_bind; [apply reads_shape0|].
    intros. apply reads_bind; [apply reads_lift|].
    intros. apply reads_bind; [apply reads_lift | done].
Qed.
End readers.

Section batches.
Context {F Row Rng : Type} `{Scalar F} `{RandomSource Rng}.
Local Abbreviation M := (M F Row Rng).
Local Abbreviation state := (state F Row Rng).
Context (X y : loc) (xs ys : list Row) (batch_size : Z).
Context (log : list (list Row * list Row * list F)).

Local Abbreviation J := (batches_of (Rng:=Rng) X y xs ys batch_size log).

Lemma batches_alloc o : keeps J (alloc o) (λ _, True).
Proof.
  apply keeps_alloc. intros st (HX & Hy & Hlog). split; [|done].
  split; [|split]; simpl; [by apply lookup_app_l_Some.. | done].
Qed.

Lemma batches_new (v : list F) : keeps J (new v) (λ _, True).
Proof. apply batches_alloc. Qed.

Lemma batches_new_zeros_like a : keeps J (new_zeros_like a) (λ _, True).
Proof.
  unfold new_zeros_like. eapply keeps_bind; [apply keeps_load|].
  intros. apply batches_new.
Qed.

Lemma batches_permutation k : keeps J (np_random_permutation k) (λ _, True).
Proof. by apply keeps_permutation. Qed.

Lemma batches_slice_rows (Z : loc) (zs : list Row) i j :
  (∀ st, J st → heap st !! Z = Some (Rows zs)) →
  keeps J (slice_rows Z i j) (λ rows, rows = py_slice zs i j).
Proof.
  intros HZ. unfold slice_rows.
  eapply keeps_bind; [by apply (keeps_load_rows_of _ Z zs)|].
  intros rows ->. by apply keeps_ret.
Qed.

Lemma batches_select_batch idx :
  keeps J (select_batch X y idx batch_size)
    (λ batch, ∀ v : list F, is_batch xs ys batch_size (batch, v)).
Proof.
  unfold select_batch.
  eapply keeps_bind.
  { apply (batches_slice_rows X xs). by intros ? (? & ? & ?). }
  intros X_selected ->.
  eapply keeps_bind.
  { apply (batches_slice_rows y ys). by intros ? (? & ? & ?). }
  intros y_selected ->.
  apply keeps_ret. intros v. by exists idx.
Qed.

Lemma batches_gradient_at source batch (solution : loc) :
  (∀ v : list F, is_batch xs ys batch_size (batch, v)) →
  keeps J (gradient_at source batch solution) (λ _, True).
Proof.
  intros Hbatch. unfold gradient_at. destruct batch as [Xs Ys].
  eapply keeps_bind; [apply keeps_load | intros v _].
  apply keeps_call. intros st (HX & Hy & calls & Hlog & Hcalls).
  split; [|split]; simpl; [done..|].
  exists (calls ++ [(Xs, Ys, v)]). rewrite Hlog, <-app_assoc. split; [done|].
  apply Forall_app. split; [done|]. constructor; [apply Hbatch | constructor].
Qed.
End batches.

Ltac batches_go :=
  repeat lazymatch goal with
  | |- keeps _ (bind (select_batch _ _ _ _) _) _ =>
      eapply keeps_bind; [ apply batches_select_batch | intros ? ? ]
  | |- keeps _ (bind _ _) _ => eapply keeps_bind; [ | intros ? ? ]
  | |- keeps _ (match ?x with _ => _ end) _ => destruct x
  | |- keeps _ (for_range _ _ _) _ =>
      apply (keeps_for_range _ _ (λ _, True)); [ intros ? ? ? | done ]
  | |- keeps _ _ _ =>
      first
        [ apply keeps_raise
        | apply keeps_lift
        | apply keeps_load
        | apply keeps_shape0
        | apply batches_permutation
        | apply batches_gradient_at; assumption
        | apply batches_new_zeros_like
        | apply batches_new
        | apply keeps_ret; done ]
  end.

Section adam_batches.
Context {F Row Rng : Type} `{Scalar F} `{RandomSource Rng}.

(** Every batch of the run is a slice of the rows the caller passed, in
    the caller's order. *)
Lemma adam_batches X y initial_solution net flag lr d1 d2 epochs bs bf eps
    (st : state F Row Rng) xs ys :
  heap st !! X = Some (Rows xs) → heap st !! y = Some (Rows ys) →
  ∃ batch_size calls,
    gradient_log (adam.optimize X y initial_solution net flag lr d1 d2
                    epochs bs bf eps st).2
      = gradient_log st ++ calls ∧
    Forall (is_batch xs ys batch_size) calls.
Proof.
  intros HX Hy. unfold adam.optimize, transfer_data_to_numpy.
  rewrite (bind_returns _ _ st (X, y) st eq_refl).
  pose proof (planner_state (default (PyInt 10) bs) bf X st) as Hst.
  destruct (calculate_batch_size_and_iteration (default (PyInt 10) bs) bf X st)
    as [[e|[b iterations]] st'] eqn:Hplan; simpl in Hst; subst st'.
  { rewrite (bind_raises _ _ st e st Hplan). exists 0%Z, []. simpl.
    by rewrite app_nil_r. }
  rewrite (bind_returns _ _ st (b, iterations) st Hplan).
  exists b.
  lazymatch goal with
  | |- ∃ calls, gradient_log (?m st).2 = _ ∧ _ =>
      assert (keeps (batches_of X y xs ys b (gradient_log st)) m (λ _, True)) as Hm
  end.
  { batches_go. }
  destruct (Hm st) as [(_ & _ & calls & Hlog & Hcalls) _].
  { split; [done|]. split; [done|]. exists []. by rewrite app_nil_r. }
  by exists calls.
Qed.
End adam_batches.

(** ** What a run owes to the random source *)

Section randomness.
Context {F Row Rng : Type} `{Scalar F} `{RandomSource Rng}.
Local Abbreviation M := (M F Row Rng).
Local Abbreviation state := (state F Row Rng).

Lemma blind_ret {A} (x : A) : blind (ret x : M A).
Proof. by intros st1 st2 Hs. Qed.

Lemma blind_raise {A} e : blind (raise e : M A).
Proof. by intros st1 st2 Hs. Qed.

Lemma blind_lift {A} (r : exception + A) : blind (lift r : M A).
Proof. destruct r; [apply blind_raise | apply blind_ret]. Qed.

Lemma blind_bind {A B} (m : M A) (k : A → M B) :
  blind m → (∀ x, blind (k x)) → blind (bind m k).
Proof.
  intros Hm Hk st1 st2 Hs. destruct (Hm st1 st2 Hs) as [Hr Hs'].
  unfold bind.
  destruct (m st1) as [[e1|x1] st1'], (m st2) as [[e2|x2] st2'];
    simpl in *; simplify_eq; [done|].
  by apply Hk.
Qed.

Lemma blind_load l : blind (load (F:=F) (Row:=Row) (Rng:=Rng) l).
Proof.
  intros st1 st2 [Hh Hc]. unfold load. rewrite Hh.
  by destruct (heap st2 !! l) as [[]|].
Qed.

Lemma blind_load_rows l : blind (load_rows (F:=F) (Row:=Row) (Rng:=Rng) l).
Proof.
  intros st1 st2 [Hh Hc]. unfold load_rows. rewrite Hh.
  by destruct (heap st2 !! l) as [[]|].
Qed.

Lemma blind_alloc (o : object F Row) : blind (alloc (Rng:=Rng) o).
Proof.
  intros st1 st2 [Hh Hc]. unfold alloc, same_arrays; simpl.
  by rewrite Hh, Hc.
Qed.

Lemma blind_store l v : blind (store (F:=F) (Row:=Row) (Rng:=Rng) l v).
Proof.
  intros st1 st2 [Hh Hc]. unfold store, same_arrays; simpl.
  by rewrite Hh, Hc.
Qed.

Lemma blind_call source (Xs ys : list Row) (v : list F) :
  blind (call_gradient (Rng:=Rng) source Xs ys v).
Proof.
  intros st1 st2 [Hh Hc]. unfold call_gradient, same_arrays; simpl.
  by rewrite Hh, Hc.
Qed.

(** A permutation that is drawn and not looked at. *)
Lemma blind_draw {A} n (m : M A) :
  blind m → blind (bind (np_random_permutation n) (λ _, m)).
Proof.
  intros Hm st1 st2 [Hh Hc]. unfold bind, np_random_permutation.
  destruct (permutation (rng st1) n) as [p1 r1].
  destruct (permutation (rng st2) n) as [p2 r2].
  by apply Hm.
Qed.

Lemma blind_for_each {S} (body : nat → S → M S) idxs s :
  (∀ i s, blind (body i s)) → blind (for_each body idxs s).
Proof.
  intros Hbody. revert s.
  induction idxs as [|i idxs IH]; intros s; simpl.
  - apply blind_ret.
  - by apply blind_bind.
Qed.

Lemma blind_for_range {S} (body : nat → S → M S) k s :
  (∀ i s, blind (body i s)) → blind (for_range k body s).
Proof. apply blind_for_each. Qed.

Lemma blind_planner batch_size batch_fraction X :
  blind (calculate_batch_size_and_iteration
           (Row:=Row) (Rng:=Rng) batch_size batch_fraction X).
Proof.
  unfold calculate_batch_size_and_iteration, shape0.
  destruct batch_size; [|apply blind_raise].
  apply blind_bind.
  - destruct batch_fraction; [|apply blind_ret].
    destruct (_ && _); [|apply blind_raise].
    apply blind_bind; [|intros; apply blind_lift].
    apply blind_bind; [apply blind_load_rows | intros; apply blind_ret].
  - intros. apply blind_bind.
    + apply blind_bind; [apply blind_load_rows | intros; apply blind_ret].
    + intros. apply blind_bind; [apply blind_lift|].
      intros. apply blind_bind; [apply blind_lift | intros; apply blind_ret].
Qed.
End randomness.

Ltac blind_go :=
  repeat lazymatch goal with
  | |- blind (bind (np_random_permutation _) _) => apply blind_draw
  | |- blind (bind _ _) => apply blind_bind; [ | intros ? ]
  | |- blind (match ?x with _ => _ end) => destruct x
  | |- blind (for_range _ _ _) => apply blind_for_range; intros ? ?
  | |- blind _ =>
      first [ apply blind_ret | apply blind_raise | apply blind_lift
            | apply blind_load | apply blind_load_rows | apply blind_alloc
            | apply blind_store | apply blind_call | apply blind_planner ]
  end.

Section adam_and_the_random_source.
Context {F Row Rng : Type} `{Scalar F} `{RandomSource Rng}.

Lemma blind_adam X y initial_solution net flag lr d1 d2 epochs bs bf eps :
  blind (adam.optimize (F:=F) (Row:=Row) (Rng:=Rng)
           X y initial_solution net flag lr d1 d2 epochs bs bf eps).
Proof.
  unfold adam.optimize, transfer_data_to_numpy, new_zeros_like, new, shape0,
    select_batch, slice_rows, gradient_at.
  blind_go.
Qed.
End adam_and_the_random_source.

(** ** Running the optimizers on a store that is only partly known *)

Section rows_facts.
Context {A : Type}.

Lemma take_rows_Forall2 (a : list A) idx sel :
  take_rows a idx = inr sel ↔ Forall2 (λ i row, a !! i = Some row) idx sel.
Proof.
  revert sel. induction idx as [|i idx IH]; intros sel; simpl.
  - split; [by intros [= <-]; constructor | by intros ->%Forall2_nil_inv_l].
  - destruct (a !! i) as [row|] eqn:Hi.
    + destruct (take_rows a idx) as [e|rest] eqn:Hrest.
      * split; [done|]. intros (row' & rest' & ? & Hr & ->)%Forall2_cons_inv_l.
        by apply IH in Hr.
      * split.
        -- intros [= <-]. constructor; [done | by apply IH].
        -- intros (row' & rest' & ? & Hr & ->)%Forall2_cons_inv_l.
           apply IH in Hr. congruence.
    + split; [by destruct (take_rows a idx)|].
      intros (row' & rest' & ? & Hr & ->)%Forall2_cons_inv_l. congruence.
Qed.

Lemma take_rows_seq (a : list A) : take_rows a (seq 0 (length a)) = inr a.
Proof.
  apply take_rows_Forall2. apply Forall2_lookup. intros i.
  destruct (decide (i < length a)) as [Hi|Hi].
  - rewrite lookup_seq_lt by done.
    destruct (lookup_lt_is_Some_2 a i Hi) as [row Hrow]. rewrite Hrow.
    by constructor.
  - rewrite lookup_seq_ge, lookup_ge_None_2 by lia. constructor.
Qed.

(** Indexing with a permutation of all the indices permutes the rows. *)
Lemma take_rows_permutation (a : list A) idx :
  idx ≡ₚ seq 0 (length a) → ∃ sel, take_rows a idx = inr sel ∧ sel ≡ₚ a.
Proof.
  intros Hp. symmetry in Hp.
  destruct (Permutation_Forall2 Hp (proj1 (take_rows_Forall2 a _ a) (take_rows_seq a)))
    as (sel & Hsel & HF).
  exists sel. split; [by apply take_rows_Forall2 | done].
Qed.

(** Indexing with indices that are all in range returns as many rows. *)
Lemma take_rows_in_range (a : list A) idx :
  Forall (λ i, i < length a) idx →
  ∃ sel, take_rows a idx = inr sel ∧ length sel = length idx.
Proof.
  induction 1 as [|i idx Hi _ (sel & Hsel & Hlen)]; simpl; [by exists []|].
  destruct (lookup_lt_is_Some_2 a i Hi) as [row ->]. rewrite Hsel.
  exists (row :: sel). by rewrite <-Hlen.
Qed.
End rows_facts.

Section wp.
Context {F Row Rng : Type} `{Scalar F} `{RandomSource Rng}.
Local Abbreviation M := (M F Row Rng).
Local Abbreviation state := (state F Row Rng).

Lemma wp_ret {A} (x : A) (st : state) Q : Q (inr x) st → wp (ret x) st Q.
Proof. done. Qed.

Lemma wp_raise {A} e (st : state) (Q : exception + A → state → Prop) :
  Q (inl e) st → wp (raise e) st Q.
Proof. done. Qed.

Lemma wp_lift {A} (r : exception + A) (st : state) Q : Q r st → wp (lift r) st Q.
Proof. by destruct r. Qed.

Lemma wp_bind {A B} (m : M A) (k : A → M B) (st : state) Q :
  wp m st (λ r st', match r with
                    | inr x => wp (k x) st' Q
                    | inl e => Q (inl e) st'
                    end) →
  wp (bind m k) st Q.
Proof. unfold wp, bind. by destruct (m st) as [[e|x] st']. Qed.

Lemma wp_load l v (st : state) Q :
  heap st !! l = Some (Tensor v) → Q (inr v) st → wp (load l) st Q.
Proof. unfold wp, load. by intros ->. Qed.

Lemma wp_load_rows l v (st : state) Q :
  heap st !! l = Some (Rows v) → Q (inr v) st → wp (load_rows l) st Q.
Proof. unfold wp, load_rows. by intros ->. Qed.

Lemma wp_alloc o (st : state) Q :
  (∀ l st', extends st st' → heap st' !! l = Some o → Q (inr l) st') →
  wp (alloc o) st Q.
Proof.
  intros HQ. unfold wp, alloc; simpl. apply HQ.
  - intros l o' Hl. simpl. by apply lookup_app_l_Some.
  - simpl. by apply list_lookup_middle.
Qed.

Lemma wp_permutation n (st : state) Q :
  (∀ p st', p ≡ₚ seq 0 n → extends st st' → Q (inr p) st') →
  wp (np_random_permutation n) st Q.
Proof.
  intros HQ. unfold wp, np_random_permutation.
  pose proof (permutation_range (rng st) n) as Hp.
  destruct (permutation (rng st) n) as [p r]. simpl in *.
  apply HQ; [done | by intros l o].
Qed.

Lemma wp_call source (Xs ys : list Row) (v : list F) (st : state) Q :
  (∀ st', extends st st' → Q (inr (source Xs ys v)) st') →
  wp (call_gradient source Xs ys v) st Q.
Proof. intros HQ. unfold wp, call_gradient; simpl. apply HQ. by intros l o. Qed.

Lemma wp_shape0 X rows (st : state) Q :
  heap st !! X = Some (Rows rows) →
  Q (inr (Z.of_nat (length rows))) st → wp (shape0 X) st Q.
Proof.
  intros HX HQ. unfold shape0. apply wp_bind.
  eapply wp_load_rows; [done|]. by apply wp_ret.
Qed.

Lemma wp_slice_rows X rows i j (st : state) Q :
  heap st !! X = Some (Rows rows) →
  Q (inr (py_slice rows i j)) st → wp (slice_rows X i j) st Q.
Proof.
  intros HX HQ. unfold slice_rows. apply wp_bind.
  eapply wp_load_rows; [done|]. by apply wp_ret.
Qed.

Lemma wp_new v (st : state) Q :
  (∀ l st', extends st st' → heap st' !! l = Some (Tensor v) → Q (inr l) st') →
  wp (new v) st Q.
Proof. apply wp_alloc. Qed.

Lemma wp_new_zeros_like a v (st : state) Q :
  heap st !! a = Some (Tensor v) →
  (∀ l st', extends st st' → heap st' !! l = Some (Tensor (zeros_like v)) →
            Q (inr l) st') →
  wp (new_zeros_like a) st Q.
Proof.
  intros Ha HQ. unfold new_zeros_like. apply wp_bind.
  eapply wp_load; [done|]. by apply wp_new.
Qed.

Lemma wp_gradient_at source Xs ys solution v (st : state) Q :
  heap st !! solution = Some (Tensor v) →
  (∀ st', extends st st' → Q (inr (source Xs ys v)) st') →
  wp (gradient_at source (Xs, ys) solution) st Q.
Proof.
  intros Hs HQ. unfold gradient_at. apply wp_bind.
  eapply wp_load; [done|]. by apply wp_call.
Qed.

Lemma wp_select_batch X y xs ys idx batch_size (st : state) Q :
  heap st !! X = Some (Rows xs) → heap st !! y = Some (Rows ys) →
  Q (inr (py_slice xs (Z.of_nat idx * batch_size) ((Z.of_nat idx + 1) * batch_size),
          py_slice ys (Z.of_nat idx * batch_size) ((Z.of_nat idx + 1) * batch_size)))
    st →
  wp (select_batch X y idx batch_size) st Q.
Proof.
  intros HX Hy HQ. unfold select_batch.
  apply wp_bind. eapply wp_slice_rows; [done|].
  apply wp_bind. eapply wp_slice_rows; [done|].
  by apply wp_ret.
Qed.

(** The shuffle of an epoch binds [X] and [y] to two new arrays, the rows
    of the old ones in another order. *)
Lemma wp_shuffled X y xs ys (st : state) Q :
  heap st !! X = Some (Rows xs) → heap st !! y = Some (Rows ys) →
  length ys = length xs →
  (∀ X' y' xs' ys' st', extends st st' →
     heap st' !! X' = Some (Rows xs') → heap st' !! y' = Some (Rows ys') →
     xs' ≡ₚ xs → ys' ≡ₚ ys → Q (inr (X', y')) st') →
  wp (shuffled X y) st Q.
Proof.
  intros HX Hy Hlen HQ. unfold shuffled.
  apply wp_bind. eapply wp_shape0; [done|].
  apply wp_bind. apply wp_permutation. intros p st1 Hp H1.
  rewrite Nat2Z.id in Hp.
  destruct (take_rows_permutation xs p Hp) as (xs' & Hxs' & Hpx).
  destruct (take_rows_permutation ys p) as (ys' & Hys' & Hpy); [by rewrite Hlen|].
  apply wp_bind. unfold index_rows.
  apply wp_bind. eapply wp_load_rows; [by apply H1|].
  apply wp_bind. apply wp_lift. rewrite Hxs'.
  apply wp_alloc. intros X' st2 H2 HX'.
  apply wp_bind. apply wp_bind. eapply wp_load_rows; [by apply H2, H1|].
  apply wp_bind. apply wp_lift. rewrite Hys'.
  apply wp_alloc. intros y' st3 H3 Hy'.
  apply wp_ret. apply (HQ X' y' xs' ys'); try done.
  - intros l o Hl. by apply H3, H2, H1.
  - by apply H3.
Qed.

Lemma wp_planner batch_size batch_fraction X (st : state) Q :
  Q (calculate_batch_size_and_iteration batch_size batch_fraction X st).1 st →
  wp (calculate_batch_size_and_iteration batch_size batch_fraction X) st Q.
Proof. unfold wp. by rewrite planner_state. Qed.

Lemma for_range_first {T} n (body : nat → T → M T) s :
  (1 ≤ n)%Z →
  for_range n body s
  = bind (body 0 s) (for_each body (seq 1 (Z.to_nat n - 1))).
Proof.
  intros Hn. unfold for_range.
  replace (Z.to_nat n) with (S (Z.to_nat n - 1)) at 1 by lia. done.
Qed.
End wp.


(** ** Telling results apart *)

Section results.
Context {F Row Rng : Type} `{Scalar F} `{RandomSource Rng}.

Lemma returned_same_arrays (r1 r2 : (exception + loc) * state F Row Rng) :
  r1.1 = r2.1 → same_arrays r1.2 r2.2 → returned r1 = returned r2.
Proof. intros Hr [Hh _]. unfold returned. by rewrite Hr, Hh. Qed.

Lemma returned_of_wp (m : M F Row Rng loc) st v :
  wp m st (λ r st', ∃ l, r = inr l ∧ heap st' !! l = Some (Tensor v)) →
  returned (m st) = Some v.
Proof. unfold wp, returned. by intros (l & -> & ->). Qed.

Lemma run_of_wp {A} (m : M F Row Rng A) st r st' :
  wp m st (λ r0 st0, r0 = r ∧ st0 = st') → m st = (r, st').
Proof. unfold wp. destruct (m st); simpl. by intros [-> ->]. Qed.

Lemma planner_rejects batch_size f X (st : state F Row Rng) :
  py_lt (PyInt 0) f && py_le f (PyInt 1) = false →
  ∃ msg, calculate_batch_size_and_iteration batch_size (Some f) X st
         = (inl (AssertionError msg), st).
Proof.
  intros Hf. unfold calculate_batch_size_and_iteration.
  destruct batch_size; [|by eexists].
  unfold bind. rewrite Hf. by eexists.
Qed.
End results.

(** Two parameter arrays of one element each that are told apart by the
    comparison of the two elements. *)
Ltac floats_differ E :=
  lazymatch type of E with
  | Some [?a] = Some [?b] =>
      apply (f_equal (λ o, match o with
                           | Some [x] => PrimFloat.eqb x b
                           | _ => false
                           end)) in E;
      vm_compute in E; discriminate E
  end.

(** A fact about an array of a state, looked for in the states it extends. *)
Ltac lookup :=
  solve [ repeat first
            [ eassumption
            | match goal with
              | H : extends _ ?s |- heap ?s !! _ = _ => apply H
              end ] ].

(** ** The update rules over the real numbers *)

Section real_arithmetic.
Open Scope R_scope.

Lemma R_broadcast_same (op : R → R → R) (a b : list R) :
  length a = length b → broadcast op a b = inr (zip_with op a b).
Proof. intros Hl. unfold broadcast. by rewrite decide_True. Qed.

Lemma R_moving_average_zero (decay : R) (p g : list R) :
  length p = length g →
  moving_average decay (zeros_like p) g
  = inr (map (λ x, decay * 0 + (1 - decay) * x) g).
Proof.
  intros Hl. unfold moving_average, np_add, zeros_like, scale.
  rewrite R_broadcast_same by (by rewrite !length_map).
  f_equal. revert p Hl.
  induction g as [|x g IH]; intros [|y p] Hl; simplify_eq/=; [done|].
  f_equal. by apply IH.
Qed.

Lemma R_bias_correction_first (decay : R) (g : list R) :
  1 - decay ≠ 0 →
  adam.bias_correction decay 1 (map (λ x, decay * 0 + (1 - decay) * x) g) = g.
Proof.
  intros Hd. unfold adam.bias_correction, divide_by. rewrite map_map.
  induction g as [|x g IH]; simpl; [done|].
  f_equal; [|done]. by field.
Qed.
End real_arithmetic.

Section adagrad_steps.
Open Scope R_scope.

Lemma R_np_iadd_square (s g : list R) :
  length s = length g →
  np_iadd s (square g) = inr (zip_with (λ a x, a + x * x) s g).
Proof.
  intros Hl. unfold np_iadd, square.
  rewrite decide_True by (by rewrite length_map).
  f_equal. revert g Hl.
  induction s as [|a s IH]; intros [|x g] Hl; simplify_eq/=; [done|].
  f_equal. by apply IH.
Qed.

Lemma R_scaled_step (learning_rate epsilon : R) (g s : list R) :
  length s = length g →
  scaled_step learning_rate epsilon g s
  = inr (zip_with (λ x a, learning_rate * x / (R_sqrt.sqrt a + epsilon)) g s).
Proof.
  intros Hl. unfold scaled_step, np_div, scale, add_scalar, np_sqrt.
  rewrite R_broadcast_same by (by rewrite !length_map).
  f_equal. revert s Hl.
  induction g as [|x g IH]; intros [|a s] Hl; simplify_eq/=; [done|].
  f_equal. by apply IH.
Qed.

(** One parameter: a larger accumulator makes a smaller step. *)
Lemma step_magnitude_antitone (learning_rate epsilon x a b : R) :
  0 <= epsilon → 0 < a → a <= b →
  Rabs (learning_rate * x / (R_sqrt.sqrt b + epsilon))
  <= Rabs (learning_rate * x / (R_sqrt.sqrt a + epsilon)).
Proof.
  intros He Ha Hab.
  assert (0 < R_sqrt.sqrt a) as Hsa by (by apply sqrt_lt_R0).
  assert (R_sqrt.sqrt a <= R_sqrt.sqrt b) as Hsab by (by apply sqrt_le_1_alt).
  unfold Rdiv. rewrite !Rabs_mult.
  apply Rmult_le_compat_l.
  { apply Rmult_le_pos; apply Rabs_pos. }
  rewrite !Rabs_inv, !Rabs_pos_eq by lra.
  apply Rinv_le_contravar; lra.
Qed.

Lemma square_pos (x : R) : x ≠ 0 → 0 < x * x.
Proof. intros Hx. nra. Qed.
End adagrad_steps.

(** ** The batch plan over the real numbers *)

Section real_plan.

Lemma Int_part_quotient (n d : Z) :
  (0 < d)%Z → Int_part (IZR n / IZR d) = (n / d)%Z.
Proof.
  intros Hd. symmetry. apply Int_part_spec.
  pose proof (Z.div_mod n d ltac:(lia)) as Hn.
  pose proof (Z.mod_pos_bound n d Hd) as Hm.
  assert (0 < IZR d)%R as HdR by (by apply IZR_lt).
  assert (IZR n = IZR d * IZR (n / d) + IZR (n mod d))%R as HnR.
  { rewrite <-mult_IZR, <-plus_IZR. by f_equal. }
  assert (0 <= IZR (n mod d) < IZR d)%R as [Hm1 Hm2].
  { split; [apply IZR_le | apply IZR_lt]; lia. }
  assert (IZR n / IZR d * IZR d = IZR n)%R as Hq by (field; lra).
  split; nra.
Qed.

Lemma R_trunc_quotient (n d : Z) :
  (0 <= n)%Z → (0 < d)%Z → R_trunc (IZR n / IZR d) = (n / d)%Z.
Proof.
  intros Hn Hd. unfold R_trunc.
  assert (0 < IZR d)%R by (by apply IZR_lt).
  assert (0 <= IZR n)%R by (by apply IZR_le).
  destruct (Rle_dec 0 (IZR n / IZR d)) as [_|Hneg].
  - by apply Int_part_quotient.
  - destruct Hneg. apply Rmult_le_pos; [done|].
    apply Rlt_le. by apply Rinv_0_lt_compat.
Qed.

Lemma Int_part_IZR (n : Z) : Int_part (IZR n) = n.
Proof. symmetry. apply Int_part_spec. lra. Qed.

Lemma R_ltb_true (x y : R) : (x < y)%R → R_ltb x y = true.
Proof. intros Hxy. unfold R_ltb. by destruct (Rlt_dec x y). Qed.

Lemma R_leb_true (x y : R) : (x <= y)%R → R_leb x y = true.
Proof. intros Hxy. unfold R_leb. by destruct (Rle_dec x y). Qed.

Context {Row Rng : Type} `{RandomSource Rng}.

Lemma R_plan_of_size (st : state R Row Rng) X rows (b : Z) :
  heap st !! X = Some (Rows rows) →
  (1 <= b)%Z →
  calculate_batch_size_and_iteration (PyInt b) None X st
  = (inr (b, Z.of_nat (length rows) / b)%Z, st).
Proof.
  intros HX Hb. apply run_of_wp.
  unfold calculate_batch_size_and_iteration.
  apply wp_bind, wp_ret.
  apply wp_bind. eapply wp_shape0; [done|].
  apply wp_bind, wp_lift. unfold py_truediv.
  destruct (Z.eqb_spec b 0) as [->|_]; [lia|].
  apply wp_bind, wp_lift. simpl.
  rewrite R_trunc_quotient by lia. by apply wp_ret.
Qed.


(** A fraction too small for the dataset: the batch size is 0. *)
Lemma R_plan_of_small_fraction (st : state R Row Rng) X rows (b : Z) (f : R) :
  heap st !! X = Some (Rows rows) →
  (0 < f <= 1)%R →
  Int_part (IZR (Z.of_nat (length rows)) * f) = 0%Z →
  calculate_batch_size_and_iteration (PyInt b) (Some (PyFloat f)) X st
  = (inl ZeroDivisionError, st).
Proof.
  intros HX [Hf0 Hf1] Hb. apply run_of_wp.
  set (N := Z.of_nat (length rows)) in *.
  assert (0 <= IZR N)%R as HN by (apply IZR_le; lia).
  assert (R_trunc (IZR N * f) = 0%Z) as Ht.
  { unfold R_trunc. destruct (Rle_dec 0 (IZR N * f)) as [_|Hneg]; [done|].
    destruct Hneg. nra. }
  unfold calculate_batch_size_and_iteration.
  replace (py_lt (PyInt 0) (PyFloat f) && py_le (PyFloat f) (PyInt 1)) with true
    by (simpl; by rewrite R_ltb_true, R_leb_true).
  apply wp_bind. apply wp_bind. eapply wp_shape0; [done|].
  apply wp_lift. fold N.
  replace (py_int (py_int_mul N (PyFloat f)))
    with (inr 0%Z : exception + Z)
    by (simpl; by rewrite Ht).
  apply wp_bind. eapply wp_shape0; [done|]. fold N.
  by apply wp_bind, wp_lift.
Qed.

Lemma R_plan_of_whole (st : state R Row Rng) X rows (b : Z) :
  heap st !! X = Some (Rows rows) →
  (1 <= Z.of_nat (length rows))%Z →
  calculate_batch_size_and_iteration (PyInt b) (Some (PyInt 1)) X st
  = (inr (Z.of_nat (length rows), 1)%Z, st).
Proof.
  intros HX HN. apply run_of_wp.
  set (N := Z.of_nat (length rows)) in *.
  unfold calculate_batch_size_and_iteration.
  replace (py_lt (PyInt 0) (PyInt (F:=R) 1) && py_le (PyInt (F:=R) 1) (PyInt 1))
    with true by done.
  apply wp_bind. apply wp_bind. eapply wp_shape0; [done|].
  apply wp_lift. fold N.
  replace (py_int (py_int_mul N (PyInt (F:=R) 1)))
    with (inr N : exception + Z)
    by (simpl; by rewrite Z.mul_1_r).
  apply wp_bind. eapply wp_shape0; [done|]. fold N.
  apply wp_bind, wp_lift. unfold py_truediv.
  destruct (Z.eqb_spec N 0) as [E|_]; [lia|].
  apply wp_bind, wp_lift. simpl.
  rewrite R_trunc_quotient, Z.div_same by lia. by apply wp_ret.
Qed.
End real_plan.

(** ** Gradients of another shape *)

Section shapes.
Context {F : Type} `{Scalar F}.

Lemma broadcast_mismatch (op : F → F → F) (a b : list F) :
  length a ≠ length b → length a ≠ 1 → length b ≠ 1 →
  broadcast op a b = inl ValueError.
Proof.
  intros Hab Ha Hb. unfold broadcast. rewrite decide_False by done.
  destruct a as [|x [|x' a]], b as [|y [|y' b]]; simpl in *; done.
Qed.

Lemma np_iadd_mismatch (a b : list F) :
  length a ≠ length b → length b ≠ 1 → np_iadd a b = inl ValueError.
Proof.
  intros Hab Hb. unfold np_iadd. rewrite decide_False by done.
  destruct b as [|y [|y' b]]; simpl in *; done.
Qed.

Lemma length_scale c (a : list F) : length (scale c a) = length a.
Proof. apply length_map. Qed.
Lemma length_square (a : list F) : length (square a) = length a.
Proof. apply length_map. Qed.
Lemma length_zeros_like (a : list F) : length (zeros_like a) = length a.
Proof. apply length_map. Qed.
End shapes.

Section mismatch.
Context {F Row Rng : Type} `{Scalar F} `{RandomSource Rng}.

Lemma mini_batch_mismatch (st : state F Row Rng) X y p source lr epochs bs bf
    xs ys v m b iterations :
  heap st !! X = Some (Rows xs) → heap st !! y = Some (Rows ys) →
  length ys = length xs →
  heap st !! p = Some (Tensor v) →
  (∀ Xs ys' v', length (source Xs ys' v') = m) →
  m ≠ length v → m ≠ 1 → length v ≠ 1 →
  (1 ≤ default 1000 epochs)%Z →
  (calculate_batch_size_and_iteration (default (PyInt 42) bs) bf X st).1
    = inr (b, iterations) →
  (1 ≤ iterations)%Z →
  (mini_batch_gradient_descent.optimize X y p source lr epochs bs bf st).1
  = inl ValueError.
Proof.
  intros HX Hy Hlen Hp Hsource Hm Hm1 Hv1 Hepochs Hplan Hiter.
  change (wp (mini_batch_gradient_descent.optimize X y p source lr epochs bs bf) st
            (λ r _, r = inl ValueError)).
  unfold mini_batch_gradient_descent.optimize.
  cbv beta iota zeta.
  apply wp_bind, wp_ret.
  apply wp_bind, wp_planner. rewrite Hplan.
  cbv beta iota zeta.
  apply wp_bind. rewrite for_range_first by done.
  apply wp_bind. apply wp_bind.
  eapply wp_shuffled; [lookup..|done|].
  intros X' y' xs' ys' st1 E1 HX' Hy' Hpx Hpy.
  apply wp_bind. rewrite for_range_first by done.
  apply wp_bind. apply wp_bind.
  eapply wp_select_batch; [lookup..|].
  apply wp_bind. eapply wp_gradient_at; [lookup|].
  intros st2 E2.
  apply wp_bind. eapply wp_load; [lookup|].
  apply wp_bind, wp_lift.
  unfold np_sub. rewrite broadcast_mismatch; [done|..].
  all: rewrite ?length_scale, ?Hsource; done.
Qed.

Lemma momentum_mismatch (st : state F Row Rng) X y p source lr decay epochs bs bf
    xs ys v m b iterations :
  heap st !! X = Some (Rows xs) → heap st !! y = Some (Rows ys) →
  length ys = length xs →
  heap st !! p = Some (Tensor v) →
  (∀ Xs ys' v', length (source Xs ys' v') = m) →
  m ≠ length v → m ≠ 1 → length v ≠ 1 →
  (1 ≤ default 1000 epochs)%Z →
  (calculate_batch_size_and_iteration (default (PyInt 1) bs) bf X st).1
    = inr (b, iterations) →
  (1 ≤ iterations)%Z →
  (mini_batch_gradient_descent_with_momentum.optimize
     X y p source lr decay epochs bs bf st).1
  = inl ValueError.
Proof.
  intros HX Hy Hlen Hp Hsource Hm Hm1 Hv1 Hepochs Hplan Hiter.
  change (wp (mini_batch_gradient_descent_with_momentum.optimize
                X y p source lr decay epochs bs bf) st
            (λ r _, r = inl ValueError)).
  unfold mini_batch_gradient_descent_with_momentum.optimize,
    mini_batch_gradient_descent_with_momentum.locals.
  cbv beta iota zeta.
  apply wp_bind. apply wp_bind, wp_ret.
  apply wp_bind, wp_planner. rewrite Hplan.
  cbv beta iota zeta.
  apply wp_bind. eapply wp_new_zeros_like; [lookup|]. intros m0 st0 E0 Hm0.
  rewrite for_range_first by done.
  apply wp_bind. apply wp_bind.
  eapply wp_shuffled; [lookup..|done|].
  intros X' y' xs' ys' st1 E1 HX' Hy' Hpx Hpy.
  apply wp_bind. rewrite for_range_first by done.
  apply wp_bind. apply wp_bind.
  eapply wp_select_batch; [lookup..|].
  apply wp_bind. eapply wp_gradient_at; [lookup|].
  intros st2 E2.
  apply wp_bind. eapply wp_load; [lookup|].
  apply wp_bind, wp_lift.
  unfold np_sub. rewrite broadcast_mismatch; [done|..].
  all: rewrite ?length_scale, ?length_zeros_like, ?Hsource; done.
Qed.

Lemma adagrad_mismatch (st : state F Row Rng) X y p source lr epochs bs bf eps
    xs ys v m b iterations :
  heap st !! X = Some (Rows xs) → heap st !! y = Some (Rows ys) →
  length ys = length xs →
  heap st !! p = Some (Tensor v) →
  (∀ Xs ys' v', length (source Xs ys' v') = m) →
  m ≠ length v → m ≠ 1 → length v ≠ 1 →
  (1 ≤ default 1000 epochs)%Z →
  (calculate_batch_size_and_iteration (default (PyInt 1) bs) bf X st).1
    = inr (b, iterations) →
  (1 ≤ iterations)%Z →
  (adagrad.optimize X y p source lr epochs bs bf eps st).1 = inl ValueError.
Proof.
  intros HX Hy Hlen Hp Hsource Hm Hm1 Hv1 Hepochs Hplan Hiter.
  change (wp (adagrad.optimize X y p source lr epochs bs bf eps) st
            (λ r _, r = inl ValueError)).
  unfold adagrad.optimize.
  cbv beta iota zeta.
  apply wp_bind, wp_ret.
  apply wp_bind, wp_planner. rewrite Hplan.
  cbv beta iota zeta.
  apply wp_bind. eapply wp_new_zeros_like; [lookup|]. intros m0 st0 E0 Hm0.
  apply wp_bind. rewrite for_range_first by done.
  apply wp_bind. apply wp_bind.
  eapply wp_shuffled; [lookup..|done|].
  intros X' y' xs' ys' st1 E1 HX' Hy' Hpx Hpy.
  apply wp_bind. rewrite for_range_first by done.
  apply wp_bind. apply wp_bind.
  eapply wp_select_batch; [lookup..|].
  apply wp_bind. eapply wp_gradient_at; [lookup|].
  intros st2 E2.
  apply wp_bind. eapply wp_load; [lookup|].
  apply wp_bind, wp_lift.
  rewrite np_iadd_mismatch; [done|..].
  all: rewrite ?length_square, ?length_zeros_like, ?Hsource; done.
Qed.

Lemma rmsprop_mismatch (st : state F Row Rng) X y p source lr decay epochs bs bf eps
    xs ys v m b iterations :
  heap st !! X = Some (Rows xs) → heap st !! y = Some (Rows ys) →
  length ys = length xs →
  heap st !! p = Some (Tensor v) →
  (∀ Xs ys' v', length (source Xs ys' v') = m) →
  m ≠ length v → m ≠ 1 → length v ≠ 1 →
  (1 ≤ default 1000 epochs)%Z →
  (calculate_batch_size_and_iteration (default (PyInt 1) bs) bf X st).1
    = inr (b, iterations) →
  (1 ≤ iterations)%Z →
  (rmsprop.optimize X y p source lr decay epochs bs bf eps st).1 = inl ValueError.
Proof.
  intros HX Hy Hlen Hp Hsource Hm Hm1 Hv1 Hepochs Hplan Hiter.
  change (wp (rmsprop.optimize X y p source lr decay epochs bs bf eps) st
            (λ r _, r = inl ValueError)).
  unfold rmsprop.optimize.
  cbv beta iota zeta.
  apply wp_bind, wp_ret.
  apply wp_bind, wp_planner. rewrite Hplan.
  cbv beta iota zeta.
  apply wp_bind. eapply wp_new_zeros_like; [lookup|]. intros m0 st0 E0 Hm0.
  apply wp_bind. rewrite for_range_first by done.
  apply wp_bind. apply wp_bind.
  eapply wp_shuffled; [lookup..|done|].
  intros X' y' xs' ys' st1 E1 HX' Hy' Hpx Hpy.
  apply wp_bind. rewrite for_range_first by done.
  apply wp_bind. apply wp_bind.
  eapply wp_select_batch; [lookup..|].
  apply wp_bind. eapply wp_gradient_at; [lookup|].
  intros st2 E2.
  apply wp_bind. eapply wp_load; [lookup|].
  apply wp_bind, wp_lift.
  unfold moving_average, np_add. rewrite broadcast_mismatch; [done|..].
  all: rewrite ?length_scale, ?length_square, ?length_zeros_like, ?Hsource; done.
Qed.

Lemma adam_mismatch (st : state F Row Rng) X y p net flag lr d1 d2 epochs bs bf eps
    xs ys v m b iterations :
  heap st !! X = Some (Rows xs) → heap st !! y = Some (Rows ys) →
  heap st !! p = Some (Tensor v) →
  (∀ Xs ys' v', length (net Xs ys' v' flag) = m) →
  m ≠ length v → m ≠ 1 → length v ≠ 1 →
  (1 ≤ default 1000 epochs)%Z →
  (calculate_batch_size_and_iteration (default (PyInt 10) bs) bf X st).1
    = inr (b, iterations) →
  (1 ≤ iterations)%Z →
  (adam.optimize X y p net flag lr d1 d2 epochs bs bf eps st).1 = inl ValueError.
Proof.
  intros HX Hy Hp Hsource Hm Hm1 Hv1 Hepochs Hplan Hiter.
  change (wp (adam.optimize X y p net flag lr d1 d2 epochs bs bf eps) st
            (λ r _, r = inl ValueError)).
  unfold adam.optimize.
  cbv beta iota zeta.
  apply wp_bind, wp_ret.
  apply wp_bind, wp_planner. rewrite Hplan.
  cbv beta iota zeta.
  apply wp_bind. eapply wp_new_zeros_like; [lookup|]. intros m0 st0 E0 Hm0.
  apply wp_bind. eapply wp_new_zeros_like; [lookup|]. intros s0 st0' E0' Hs0.
  apply wp_bind. rewrite for_range_first by done.
  apply wp_bind. apply wp_bind.
  eapply wp_shape0; [lookup|].
  apply wp_bind, wp_permutation. intros idx st1 _ E1.
  rewrite for_range_first by done.
  apply wp_bind. apply wp_bind.
  eapply wp_select_batch; [lookup..|].
  apply wp_bind. eapply wp_gradient_at; [lookup|].
  intros st2 E2.
  apply wp_bind. eapply wp_load; [lookup|].
  apply wp_bind, wp_lift.
  unfold moving_average, np_add. rewrite broadcast_mismatch; [done|..].
  all: rewrite ?length_scale, ?length_square, ?length_zeros_like, ?Hsource; done.
Qed.
End mismatch.

(** ** One sample, one epoch, one batch *)

Section scenario.
Context {Row Rng : Type} `{RandomSource Rng}.

Lemma float_plan_one (st : state float Row Rng) X x :
  heap st !! X = Some (Rows [x]) →
  calculate_batch_size_and_iteration (PyInt 1) None X st = (inr (1, 1)%Z, st).
Proof.
  intros HX. 
  pose proof (planner_state (PyInt 1) None X st) as Hst.
  destruct (calculate_batch_size_and_iteration (PyInt 1) None X st) as [r st'] eqn:E.
  simpl in Hst. subst st'. f_equal.
  change r with (r, st).1. rewrite <-E.
  change (wp (calculate_batch_size_and_iteration (PyInt 1) None X) st (λ r _, r = inr (1, 1)%Z)).
  unfold calculate_batch_size_and_iteration.
  apply wp_bind, wp_ret.
  apply wp_bind. eapply wp_shape0; [done|].
  apply wp_bind, wp_lift. 
  apply wp_bind, wp_lift. by vm_compute.
Qed.

Lemma plain_descent_run (st : state float Row Rng) X y p x t source :
  heap st !! X = Some (Rows [x]) →
  heap st !! y = Some (Rows [t]) →
  heap st !! p = Some (Tensor [0%float]) →
  (∀ Xs ys v, source Xs ys v = [1%float]) →
  returned (mini_batch_gradient_descent.optimize X y p source
              (Some (decimal 1 10)) (Some 1%Z) (Some (PyInt 1)) None st)
  = Some [(- decimal 1 10)%float].
Proof.
  intros HX Hy Hp Hsource. apply returned_of_wp.
  unfold mini_batch_gradient_descent.optimize.
  cbv beta iota zeta delta [from_option Datatypes.id].
  apply wp_bind, wp_ret.
  apply wp_bind, wp_planner. rewrite (float_plan_one st X x HX). 
  cbv beta iota zeta.
  apply wp_bind. rewrite for_range_first by done.
  apply wp_bind. apply wp_bind.
  eapply wp_shuffled; [done..|].
  intros X' y' xs' ys' st1 H1 HX' Hy' ->%Permutation_singleton_r ->%Permutation_singleton_r.
  apply wp_bind. rewrite for_range_first by done.
  apply wp_bind. apply wp_bind.
  eapply wp_select_batch; [done..|].
  apply wp_bind. eapply wp_gradient_at; [by apply H1|].
  intros st2 H2. rewrite Hsource.
  apply wp_bind. eapply wp_load; [by apply H2, H1|].
  apply wp_bind, wp_lift.
  replace (np_sub [0%float] (scale (decimal 1 10) [1%float]))
    with (inr [(- decimal 1 10)%float] : exception + list float)
    by (by vm_compute).
  apply wp_new. intros l st3 H3 Hl.
  apply wp_ret. apply wp_ret. apply wp_ret. apply wp_ret.
  by exists l.
Qed.

Lemma momentum_run (st : state float Row Rng) X y p x t source :
  heap st !! X = Some (Rows [x]) →
  heap st !! y = Some (Rows [t]) →
  heap st !! p = Some (Tensor [0%float]) →
  (∀ Xs ys v, source Xs ys v = [1%float]) →
  wp (mini_batch_gradient_descent_with_momentum.locals X y p source
        (Some (decimal 1 10)) (Some (decimal 1 2)) (Some 1%Z) (Some (PyInt 1)) None)
     st
     (λ r st', ∃ X' y' solution momentum,
        r = inr (X', y', solution, momentum) ∧
        heap st' !! solution = Some (Tensor [(- decimal 1 10)%float]) ∧
        heap st' !! momentum = Some (Tensor [(- decimal 1 10)%float])).
Proof.
  intros HX Hy Hp Hsource.
  unfold mini_batch_gradient_descent_with_momentum.locals.
  cbv beta iota zeta delta [from_option Datatypes.id].
  apply wp_bind, wp_ret.
  apply wp_bind, wp_planner. rewrite (float_plan_one st X x HX).
  cbv beta iota zeta.
  apply wp_bind. eapply wp_new_zeros_like; [lookup|]. intros m0 st0 H0 Hm0.
  rewrite for_range_first by done.
  apply wp_bind. apply wp_bind.
  eapply wp_shuffled; [lookup..|done|].
  intros X' y' xs' ys' st1 H1 HX' Hy' ->%Permutation_singleton_r ->%Permutation_singleton_r.
  apply wp_bind. rewrite for_range_first by done.
  apply wp_bind. apply wp_bind.
  eapply wp_select_batch; [lookup..|].
  apply wp_bind. eapply wp_gradient_at; [lookup|].
  intros st2 H2. rewrite Hsource.
  apply wp_bind. eapply wp_load; [lookup|].
  apply wp_bind, wp_lift.
  replace (np_sub (scale (decimal 1 2) (zeros_like [0%float]))
                  (scale (decimal 1 10) [1%float]))
    with (inr [(- decimal 1 10)%float] : exception + list float)
    by (by vm_compute).
  apply wp_bind, wp_new. intros m1 st3 H3 Hm1.
  apply wp_bind. eapply wp_load; [lookup|].
  apply wp_bind. eapply wp_load; [lookup|].
  apply wp_bind, wp_lift.
  replace (np_add [0%float] [(- decimal 1 10)%float])
    with (inr [(- decimal 1 10)%float] : exception + list float)
    by (by vm_compute).
  apply wp_bind, wp_new. intros c1 st4 H4 Hc1.
  apply wp_ret. apply wp_ret. apply wp_ret. apply wp_ret.
  exists X', y', c1, m1. split; [done|]. split; lookup.
Qed.
End scenario.

(** * The claims *)

(** C1 (amended). Over the real numbers, the first step of [adam] with
    [momentum_decay = 0.9] and a zero momentum yields a bias-corrected
    momentum equal to the gradient, whatever the gradient. *)
Theorem adam_first_corrected_momentum (p g : list R) :
  length p = length g →
  ∃ momentum,
    moving_average (decimal 9 10) (zeros_like p) g = inr momentum ∧
    adam.bias_correction (decimal 9 10) 1 momentum = g.
Proof.
  intros Hl. eexists. split; [by apply R_moving_average_zero|].
  apply R_bias_correction_first. unfold decimal; simpl. lra.
Qed.

Lemma adam_first_corrected_momentum_witness :
  ∃ momentum,
    moving_average (decimal 9 10) (zeros_like [0%R]) [11%R] = inr momentum ∧
    adam.bias_correction (decimal 9 10) 1 momentum = [11%R].
Proof. by apply (adam_first_corrected_momentum [0%R] [11%R]). Defined.

(** C1, on binary64: for the gradient 11.0 the momentum of the first step
    is 1.0999999999999996 and its bias correction 10.999999999999998. *)
Lemma adam_first_corrected_momentum_rounds :
  ∃ momentum,
    moving_average (F:=float) (decimal 9 10) (zeros_like [0%float]) [11%float]
      = inr momentum ∧
    adam.bias_correction (decimal 9 10) 1 momentum = [0x1.5ffffffffffffp+3%float] ∧
    adam.bias_correction (decimal 9 10) 1 momentum ≠ [11%float].
Proof.
  exists [0x1.1999999999998p+0%float]. split; [by vm_compute|].
  split; [by vm_compute|]. intros E.
  apply (f_equal (λ v, match v with [x] => PrimFloat.eqb x 11 | _ => false end)) in E.
  vm_compute in E. discriminate E.
Qed.



(** The plan on binary64 for 100 samples: the batch size 42, the fraction
    0.29 and the fraction 1. *)
Lemma batch_plan_on_binary64 :
  let st : state float nat (list nat) := State [Rows (seq 0 100)] [] [] in
  calculate_batch_size_and_iteration (PyInt 42) None 0 st
    = (inr (42, 2)%Z, st) ∧
  calculate_batch_size_and_iteration (PyInt 1)
    (Some (PyFloat (decimal 29 100))) 0 st
    = (inr (28, 3)%Z, st) ∧
  calculate_batch_size_and_iteration (PyInt 1) (Some (PyInt 1)) 0 st
    = (inr (100, 1)%Z, st).
Proof. by vm_compute. Qed.


Section mismatch_claim.
Context {F Row Rng : Type} `{Scalar F} `{RandomSource Rng}.

(** C3 (amended). No optimizer checks the shape of a gradient. When the
    gradients have a shape that numpy cannot broadcast against the shape of
    the parameters (here: two lengths that differ, neither of them 1), and
    the run has an epoch and a batch to make, the first update raises
    numpy's [ValueError] out of [optimize], whatever the optimizer; the
    array passed as [initial_solution] then holds what it held. *)
Theorem mismatched_gradient_raises a X y initial_solution source kw
    (st : state F Row Rng) xs ys v m batch_size b iterations :
  heap st !! X = Some (Rows xs) →
  heap st !! y = Some (Rows ys) →
  length ys = length xs →
  heap st !! initial_solution = Some (Tensor v) →
  (∀ X_selected y_selected solution,
     length (source X_selected y_selected solution) = m) →
  m ≠ length v → m ≠ 1 → length v ≠ 1 →
  (1 ≤ default 1000 (kw_max_num_epoch kw))%Z →
  kw_batch_size kw = Some batch_size →
  (calculate_batch_size_and_iteration batch_size (kw_batch_fraction kw) X st).1
    = inr (b, iterations) →
  (1 ≤ iterations)%Z →
  (optimize a X y initial_solution source kw st).1 = inl ValueError ∧
  heap (optimize a X y initial_solution source kw st).2 !! initial_solution
    = Some (Tensor v).
Proof.
  intros HX Hy Hlen Hp Hsource Hm Hm1 Hv1 Hepochs Hbs Hplan Hiter.
  split; [|eapply frame_of_keeps; [apply below_optimize | done]].
  destruct a; simpl; rewrite Hbs.
  - by eapply mini_batch_mismatch.
  - by eapply momentum_mismatch.
  - by eapply adagrad_mismatch.
  - by eapply rmsprop_mismatch.
  - by eapply (adam_mismatch st X y initial_solution _ true).
Qed.
End mismatch_claim.

(** Two parameters and gradients of three values, under [adagrad]. *)
Lemma mismatched_gradient_raises_witness :
  (optimize Adagrad 0 1 2 three_values one_step two_parameters).1 = inl ValueError ∧
  heap (optimize Adagrad 0 1 2 three_values one_step two_parameters).2 !! 2
    = Some (Tensor [0%float; 0%float]).
Proof.
  apply (mismatched_gradient_raises Adagrad 0 1 2 three_values one_step
           two_parameters [[7%float]] [[3%float]] [0%float; 0%float] 3
           (PyInt 1) 1 1).
  - reflexivity.
  - reflexivity.
  - reflexivity.
  - reflexivity.
  - reflexivity.
  - simpl. lia.
  - lia.
  - simpl. lia.
  - simpl. lia.
  - reflexivity.
  - vm_compute. reflexivity.
  - lia.
Defined.

(** C3, on binary64: two parameters and gradients of one value. Every
    optimizer returns parameters, and plain descent returns
    [[-0.1, -0.1]]: the gradient was broadcast. *)
Lemma mismatched_gradient_is_broadcast :
  length (constant_gradient [[7%float]] [[3%float]] [0%float; 0%float])
    ≠ length [0%float; 0%float] ∧
  returned (optimize PlainDescent 0 1 2 constant_gradient one_step two_parameters)
    = Some [(- decimal 1 10)%float; (- decimal 1 10)%float] ∧
  ∀ a, ∃ v,
    returned (optimize a 0 1 2 constant_gradient one_step two_parameters) = Some v ∧
    length v = 2.
Proof.
  split; [simpl; lia|]. split; [by vm_compute|].
  intros a. destruct a; vm_compute; eexists; split; reflexivity.
Qed.

(** C4. [adam.optimize] draws a permutation in every epoch and never uses
    it. From two states that differ in the state of the random generator
    only, it returns the same parameters, having made the same arrays and
    the same calls of the gradient source, on the same batches and
    parameters. Every batch it calls the gradient source on is a slice
    [i * batch_size : (i + 1) * batch_size] of the rows the caller passed,
    in the caller's order. Each of the other four algorithms has a run
    whose returned parameters change with the permutation that is drawn. *)
Theorem adam_ignores_the_permutations :
  (∀ (F Row Rng : Type) (SF : Scalar F) (RS : RandomSource Rng)
     X y initial_solution neural_network using_backpropagation
     learning_rate momentum_decay squared_gradient_decay max_num_epoch
     batch_size batch_fraction epsilon (st : state F Row Rng) (r : Rng),
     let run := adam.optimize X y initial_solution neural_network
                  using_backpropagation learning_rate momentum_decay
                  squared_gradient_decay max_num_epoch batch_size
                  batch_fraction epsilon in
     let st' := State (heap st) r (gradient_log st) in
     (run st).1 = (run st').1 ∧ same_arrays (run st).2 (run st').2 ∧
     returned (run st) = returned (run st')) ∧
  (∀ (F Row Rng : Type) (SF : Scalar F) (RS : RandomSource Rng)
     X y initial_solution neural_network using_backpropagation
     learning_rate momentum_decay squared_gradient_decay max_num_epoch
     batch_size batch_fraction epsilon (st : state F Row Rng) xs ys,
     heap st !! X = Some (Rows xs) →
     heap st !! y = Some (Rows ys) →
     ∃ b calls,
       gradient_log (adam.optimize X y initial_solution neural_network
                       using_backpropagation learning_rate momentum_decay
                       squared_gradient_decay max_num_epoch batch_size
                       batch_fraction epsilon st).2
         = gradient_log st ++ calls ∧
       Forall (is_batch xs ys b) calls) ∧
  (∀ a, a ≠ Adam →
     returned (optimize a 0 1 2 first_feature one_epoch_of_pairs (three_samples []))
     ≠ returned (optimize a 0 1 2 first_feature one_epoch_of_pairs (three_samples [1]))).
Proof.
  split; [|split].
  - intros.
    destruct (blind_adam X y initial_solution neural_network
                using_backpropagation learning_rate momentum_decay
                squared_gradient_decay max_num_epoch batch_size
                batch_fraction epsilon st st') as [Hr Hs]; [done|].
    split; [done|]. split; [done|]. by apply returned_same_arrays.
  - intros. by apply adam_batches.
  - intros a Ha E.
    destruct a; [| | | |done]; vm_compute in E; floats_differ E.
Qed.

(** [adam] on the three samples, under two states of the generator. *)
Lemma adam_ignores_the_permutations_witness :
  returned (optimize Adam 0 1 2 first_feature one_epoch_of_pairs (three_samples []))
    = returned (optimize Adam 0 1 2 first_feature one_epoch_of_pairs
                  (three_samples [1])) ∧
  ∃ b calls,
    gradient_log (optimize Adam 0 1 2 first_feature one_epoch_of_pairs
                    (three_samples [1])).2
      = [] ++ calls ∧
    Forall (is_batch [[1%float]; [2%float]; [3%float]]
              [[1%float]; [2%float]; [3%float]] b) calls.
Proof.
  split.
  - apply (proj1 adam_ignores_the_permutations float (list float) (list nat)
             _ _ 0 1 2 _ true _ _ _ _ _ _ _ (three_samples []) [1]).
  - apply (proj1 (proj2 adam_ignores_the_permutations)
             float (list float) (list nat) _ _ 0 1 2 _ true _ _ _ _ _ _ _
             (three_samples [1])); reflexivity.
Defined.

Section scenario_claim.
Context {Row Rng : Type} `{RandomSource Rng}.

(** C5. One sample, parameters [[0.0]], a gradient source that returns
    [[1.0]], [learning_rate=0.1], [max_num_epoch=1], [batch_size=1], on
    binary64 and whatever the random source and the rest of the store:
    plain descent returns [[-0.1]]; with [momentum_decay=0.5] the momentum
    optimizer ends with [momentum] bound to [[-0.1]] and returns
    [[-0.1]]. *)
Theorem one_sample_one_step (st : state float Row Rng)
    X y initial_solution x t source :
  heap st !! X = Some (Rows [x]) →
  heap st !! y = Some (Rows [t]) →
  heap st !! initial_solution = Some (Tensor [0%float]) →
  (∀ X_selected y_selected solution,
     source X_selected y_selected solution = [1%float]) →
  returned (mini_batch_gradient_descent.optimize X y initial_solution source
              (Some (decimal 1 10)) (Some 1%Z) (Some (PyInt 1)) None st)
    = Some [(- decimal 1 10)%float] ∧
  (∃ X' y' current_solution momentum st',
     mini_batch_gradient_descent_with_momentum.locals X y initial_solution
       source (Some (decimal 1 10)) (Some (decimal 1 2)) (Some 1%Z)
       (Some (PyInt 1)) None st
     = (inr (X', y', current_solution, momentum), st') ∧
     heap st' !! current_solution = Some (Tensor [(- decimal 1 10)%float]) ∧
     heap st' !! momentum = Some (Tensor [(- decimal 1 10)%float])) ∧
  returned (mini_batch_gradient_descent_with_momentum.optimize X y
              initial_solution source (Some (decimal 1 10))
              (Some (decimal 1 2)) (Some 1%Z) (Some (PyInt 1)) None st)
    = Some [(- decimal 1 10)%float].
Proof.
  intros HX Hy Hp Hsource.
  pose proof (momentum_run st X y initial_solution x t source HX Hy Hp Hsource)
    as Hrun.
  split; [by eapply plain_descent_run|]. split.
  - unfold wp in Hrun.
    destruct (mini_batch_gradient_descent_with_momentum.locals _ _ _ _ _ _ _ _ _ st)
      as [r st'].
    destruct Hrun as (X' & y' & c & m & Hr & Hc & Hm). simpl in *. subst r.
    by exists X', y', c, m, st'.
  - apply returned_of_wp.
    unfold mini_batch_gradient_descent_with_momentum.optimize.
    apply wp_bind. unfold wp in *.
    destruct (mini_batch_gradient_descent_with_momentum.locals _ _ _ _ _ _ _ _ _ st)
      as [r st'].
    destruct Hrun as (X' & y' & c & m & Hr & Hc & Hm). simpl in *. subst r.
    by exists c.
Qed.
End scenario_claim.

Lemma one_sample_one_step_witness :
  returned (mini_batch_gradient_descent.optimize 0 1 2 constant_gradient
              (Some (decimal 1 10)) (Some 1%Z) (Some (PyInt 1)) None one_sample)
    = Some [(- decimal 1 10)%float] ∧
  (∃ X' y' current_solution momentum st',
     mini_batch_gradient_descent_with_momentum.locals 0 1 2
       constant_gradient (Some (decimal 1 10)) (Some (decimal 1 2)) (Some 1%Z)
       (Some (PyInt 1)) None one_sample
     = (inr (X', y', current_solution, momentum), st') ∧
     heap st' !! current_solution = Some (Tensor [(- decimal 1 10)%float]) ∧
     heap st' !! momentum = Some (Tensor [(- decimal 1 10)%float])) ∧
  returned (mini_batch_gradient_descent_with_momentum.optimize 0 1 2
              constant_gradient (Some (decimal 1 10))
              (Some (decimal 1 2)) (Some 1%Z) (Some (PyInt 1)) None one_sample)
    = Some [(- decimal 1 10)%float].
Proof.
  apply (one_sample_one_step one_sample 0 1 2 [7%float] [3%float] constant_gradient);
    reflexivity.
Defined.

(** C6. In [adagrad] over the real numbers, with [epsilon >= 0] and a
    gradient no element of which is zero, two successive steps from an
    accumulator [s] of non-negative sums are both made, the accumulator
    does not decrease from [s] to [s1] to [s2], and no element of the
    second update [learning_rate * gradient / (sqrt(s2) + epsilon)] is
    larger in magnitude than that element of the first. The accumulator
    [np.zeros_like] makes is one of non-negative sums, and so is [s1]: the
    statement holds from each step of a run to the next. *)
Theorem adagrad_step_never_grows (learning_rate epsilon : R) (g s : list R) :
  (0 <= epsilon)%R →
  length s = length g →
  Forall (λ a, 0 <= a)%R s →
  Forall (λ x, x ≠ 0%R) g →
  ∃ s1 s2 step1 step2,
    np_iadd s (square g) = inr s1 ∧
    scaled_step learning_rate epsilon g s1 = inr step1 ∧
    np_iadd s1 (square g) = inr s2 ∧
    scaled_step learning_rate epsilon g s2 = inr step2 ∧
    Forall2 Rle s s1 ∧ Forall2 Rle s1 s2 ∧
    Forall2 (λ d1 d2, Rabs d2 <= Rabs d1)%R step1 step2 ∧
    length s1 = length g ∧ Forall (λ a, 0 <= a)%R s1 ∧
    Forall (λ a, 0 <= a)%R (zeros_like g).
Proof.
  intros He Hl Hs Hg.
  set (s1 := zip_with (λ a x, a + x * x)%R s g).
  set (s2 := zip_with (λ a x, a + x * x)%R s1 g).
  assert (length s1 = length g) as Hl1.
  { unfold s1. rewrite length_zip_with. lia. }
  assert (length s2 = length g) as Hl2.
  { unfold s2. rewrite length_zip_with. lia. }
  exists s1, s2. eexists. eexists.
  split; [by apply R_np_iadd_square|].
  split; [by apply R_scaled_step|].
  split; [by apply R_np_iadd_square|].
  split; [by apply R_scaled_step|].
  assert (Forall2 Rle s s1 ∧ Forall2 Rle s1 s2 ∧
          Forall2 (λ d1 d2, Rabs d2 <= Rabs d1)%R
            (zip_with (λ x a, learning_rate * x / (R_sqrt.sqrt a + epsilon))%R g s1)
            (zip_with (λ x a, learning_rate * x / (R_sqrt.sqrt a + epsilon))%R g s2) ∧
          Forall (λ a, 0 <= a)%R s1) as (H1 & H2 & H3 & H4).
  { clear Hl1 Hl2. subst s2 s1. revert g Hl Hg.
    induction Hs as [|a s Ha Hs IH]; intros [|x g] Hl Hg; simplify_eq/=.
    { by repeat split; constructor. }
    apply Forall_cons in Hg as [Hx Hg].
    destruct (IH g ltac:(done) Hg) as (IH1 & IH2 & IH3 & IH4).
    pose proof (square_pos x Hx) as Hxx.
    repeat split; constructor; try done; try lra.
    apply step_magnitude_antitone; lra. }
  repeat split; try done.
  unfold zeros_like. apply Forall_fmap, Forall_true. intros x. simpl. lra.
Qed.

Lemma adagrad_step_never_grows_witness :
  ∃ s1 s2 step1 step2,
    np_iadd [0%R] (square [3%R]) = inr s1 ∧
    scaled_step (decimal 1 100) (decimal 1 100000000) [3%R] s1 = inr step1 ∧
    np_iadd s1 (square [3%R]) = inr s2 ∧
    scaled_step (decimal 1 100) (decimal 1 100000000) [3%R] s2 = inr step2 ∧
    Forall2 Rle [0%R] s1 ∧ Forall2 Rle s1 s2 ∧
    Forall2 (λ d1 d2, Rabs d2 <= Rabs d1)%R step1 step2 ∧
    length s1 = length [3%R] ∧ Forall (λ a, 0 <= a)%R s1 ∧
    Forall (λ a, 0 <= a)%R (zeros_like [3%R]).
Proof.
  apply (adagrad_step_never_grows (decimal 1 100) (decimal 1 100000000) [3%R] [0%R]).
  - unfold decimal; simpl. lra.
  - reflexivity.
  - constructor; [lra | constructor].
  - constructor; [lra | constructor].
Defined.

Section configuration_claim.
Context {F Row Rng : Type} `{Scalar F} `{RandomSource Rng}.

(** C7. Whatever the optimizer, when [batch_fraction] is given and
    [0 < batch_fraction <= 1] is false, [optimize] raises the
    [AssertionError] of the planner and leaves the state as it found it: no
    epoch has started, no array has been made, no permutation drawn, and
    the gradient source has not been called. *)
Theorem batch_fraction_out_of_range a X y initial_solution source kw f
    (st : state F Row Rng) :
  kw_batch_fraction kw = Some f →
  py_lt (PyInt 0) f && py_le f (PyInt 1) = false →
  ∃ msg, optimize a X y initial_solution source kw st
         = (inl (AssertionError msg), st).
Proof.
  intros Hkw Hf.
  destruct a; simpl; rewrite Hkw;
    [ destruct (planner_rejects (default (PyInt 42) (kw_batch_size kw)) f X st Hf)
        as [msg Hmsg]
    | destruct (planner_rejects (default (PyInt 1) (kw_batch_size kw)) f X st Hf)
        as [msg Hmsg]
    | destruct (planner_rejects (default (PyInt 1) (kw_batch_size kw)) f X st Hf)
        as [msg Hmsg]
    | destruct (planner_rejects (default (PyInt 1) (kw_batch_size kw)) f X st Hf)
        as [msg Hmsg]
    | destruct (planner_rejects (default (PyInt 10) (kw_batch_size kw)) f X st Hf)
        as [msg Hmsg] ];
    exists msg;
    unfold mini_batch_gradient_descent.optimize,
      mini_batch_gradient_descent_with_momentum.optimize,
      mini_batch_gradient_descent_with_momentum.locals,
      adagrad.optimize, rmsprop.optimize, adam.optimize,
      transfer_data_to_numpy, bind, ret; simpl;
    unfold bind; by rewrite Hmsg.
Qed.
End configuration_claim.

(** The fractions 0 and 1.5 on binary64. *)
Lemma batch_fraction_out_of_range_witness :
  (∃ msg, optimize Adam 0 1 2 constant_gradient (with_batch_fraction 0) one_sample
          = (inl (AssertionError msg), one_sample)) ∧
  (∃ msg, optimize PlainDescent 0 1 2 constant_gradient (with_batch_fraction 1.5)
            one_sample
          = (inl (AssertionError msg), one_sample)).
Proof.
  split.
  - by apply (batch_fraction_out_of_range Adam 0 1 2 constant_gradient
                (with_batch_fraction 0) (PyFloat 0%float) one_sample).
  - by apply (batch_fraction_out_of_range PlainDescent 0 1 2 constant_gradient
                (with_batch_fraction 1.5) (PyFloat 1.5%float) one_sample).
Defined.

Section caller_arrays_claim.
Context {F Row Rng : Type} `{Scalar F} `{RandomSource Rng}.

(** C8. The arrays the caller passes as [X] and [y] hold after [optimize]
    the rows they held before, in the same order, whatever the optimizer
    (the five update rules, and the stochastic and full-batch presets),
    its arguments and the way the run ends; and the arrays an epoch's
    shuffle binds [X] and [y] to are new ones. *)
Theorem caller_arrays_not_mutated a X y initial_solution source kw
    (st : state F Row Rng) xs ys :
  heap st !! X = Some (Rows xs) →
  heap st !! y = Some (Rows ys) →
  (let st' := (optimize a X y initial_solution source kw st).2 in
   heap st' !! X = Some (Rows xs) ∧ heap st' !! y = Some (Rows ys)) ∧
  (let st' := (stochastic_gradient_descent.optimize X y initial_solution source
                 (kw_learning_rate kw) (kw_max_num_epoch kw) st).2 in
   heap st' !! X = Some (Rows xs) ∧ heap st' !! y = Some (Rows ys)) ∧
  (let st' := (full_batch_gradient_descent.optimize X y initial_solution source
                 (kw_learning_rate kw) (kw_max_num_epoch kw) st).2 in
   heap st' !! X = Some (Rows xs) ∧ heap st' !! y = Some (Rows ys)) ∧
  (let st' := (shuffled X y st).2 in
   heap st' !! X = Some (Rows xs) ∧ heap st' !! y = Some (Rows ys) ∧
   ∀ X' y', (shuffled X y st).1 = inr (X', y') →
            length (heap st) ≤ X' ∧ length (heap st) ≤ y').
Proof.
  intros HX Hy.
  split; [split; (eapply frame_of_keeps; [apply below_optimize | done])|].
  split; [split; (eapply frame_of_keeps; [apply below_mini_batch | done])|].
  split; [split; (eapply frame_of_keeps; [apply below_mini_batch | done])|].
  split; [eapply frame_of_keeps; [apply below_shuffled | done]|].
  split; [eapply frame_of_keeps; [apply below_shuffled | done]|].
  intros X' y' Hr.
  destruct (below_shuffled (length (heap st)) (heap st) X y st) as [_ Hq].
  { split; [by rewrite firstn_all | done]. }
  apply (Hq _ Hr).
Qed.
End caller_arrays_claim.

(** Plain descent on the one-sample scenario. *)
Lemma caller_arrays_not_mutated_witness :
  heap (optimize PlainDescent 0 1 2 constant_gradient one_step one_sample).2 !! 0
    = Some (Rows [[7%float]]) ∧
  heap (optimize PlainDescent 0 1 2 constant_gradient one_step one_sample).2 !! 1
    = Some (Rows [[3%float]]).
Proof.
  apply (caller_arrays_not_mutated PlainDescent 0 1 2 constant_gradient one_step
           one_sample [[7%float]] [[3%float]]); reflexivity.
Defined.

(** C9. The default of [batch_size] is 42 in
    [mini_batch_gradient_descent.optimize] and 10 in [adam.optimize]; it is
    1 in the other three. On the one-sample scenario plain descent called
    without a batch size makes no step at all, where [batch_size=1] makes
    one. *)
Theorem default_batch_sizes :
  (∀ (F Row Rng : Type) (SF : Scalar F) (RS : RandomSource Rng)
     X y initial_solution (source : gradient_source (F:=F) (Row:=Row))
     learning_rate max_num_epoch batch_fraction momentum_decay
     squared_gradient_decay epsilon (st : state F Row Rng) a,
     optimize a X y initial_solution source
       (Keywords learning_rate max_num_epoch None batch_fraction
          momentum_decay squared_gradient_decay epsilon) st
     = optimize a X y initial_solution source
         (Keywords learning_rate max_num_epoch
            (Some (PyInt match a with
                         | PlainDescent => 42
                         | Adam => 10
                         | _ => 1
                         end))
            batch_fraction momentum_decay squared_gradient_decay epsilon) st) ∧
  (returned (mini_batch_gradient_descent.optimize 0 1 2 constant_gradient
               (Some (decimal 1 10)) (Some 1%Z) None None one_sample)
     = Some [0%float] ∧
   gradient_log (mini_batch_gradient_descent.optimize 0 1 2 constant_gradient
                   (Some (decimal 1 10)) (Some 1%Z) None None one_sample).2
     = [] ∧
   returned (mini_batch_gradient_descent.optimize 0 1 2 constant_gradient
               (Some (decimal 1 10)) (Some 1%Z) (Some (PyInt 1)) None one_sample)
     = Some [(- decimal 1 10)%float]) ∧
  (returned (adam.optimize 0 1 2 (λ _ _ _ _, [1%float]) true
               (Some (decimal 1 10)) None None (Some 1%Z) None None None one_sample)
     = Some [0%float] ∧
   returned (adam.optimize 0 1 2 (λ _ _ _ _, [1%float]) true
               (Some (decimal 1 10)) None None (Some 1%Z) (Some (PyInt 1)) None None
               one_sample)
     ≠ Some [0%float]).
Proof.
  split; [|split].
  - intros. by destruct a.
  - by vm_compute.
  - split; [by vm_compute|]. intros E. vm_compute in E. floats_differ E.
Qed.

Section initial_solution_claim.
Context {F Row Rng : Type} `{Scalar F} `{RandomSource Rng}.

(** C10. The array the caller passes as [initial_solution] holds after
    [optimize] the values it held before, whatever the optimizer, its
    arguments and the way the run ends; and the array a run returns is that
    array (no update was made) or one that was made during the run, never
    another array of the caller. *)
Theorem initial_solution_not_mutated a X y initial_solution source kw
    (st : state F Row Rng) v :
  heap st !! initial_solution = Some (Tensor v) →
  (heap (optimize a X y initial_solution source kw st).2 !! initial_solution
     = Some (Tensor v) ∧
   heap (stochastic_gradient_descent.optimize X y initial_solution source
           (kw_learning_rate kw) (kw_max_num_epoch kw) st).2 !! initial_solution
     = Some (Tensor v) ∧
   heap (full_batch_gradient_descent.optimize X y initial_solution source
           (kw_learning_rate kw) (kw_max_num_epoch kw) st).2 !! initial_solution
     = Some (Tensor v)) ∧
  (∀ l, (optimize a X y initial_solution source kw st).1 = inr l →
        initial_or_new (length (heap st)) initial_solution l) ∧
  (∀ l, (stochastic_gradient_descent.optimize X y initial_solution source
           (kw_learning_rate kw) (kw_max_num_epoch kw) st).1 = inr l →
        initial_or_new (length (heap st)) initial_solution l) ∧
  (∀ l, (full_batch_gradient_descent.optimize X y initial_solution source
           (kw_learning_rate kw) (kw_max_num_epoch kw) st).1 = inr l →
        initial_or_new (length (heap st)) initial_solution l).
Proof.
  intros Hv. split; [|split; [|split]].
  - split; [eapply frame_of_keeps; [apply below_optimize | done]|].
    split; (eapply frame_of_keeps; [apply below_mini_batch | done]).
  - intros l. apply returned_of_keeps, returns_optimize.
  - intros l. apply returned_of_keeps, returns_mini_batch.
  - intros l. apply returned_of_keeps, returns_mini_batch.
Qed.
End initial_solution_claim.

(** Plain descent on the one-sample scenario: the run returns [[-0.1]] in
    a new array (made after the two reindexed copies of the epoch) and the
    array of the caller still holds [[0.0]]. *)
Lemma initial_solution_not_mutated_witness :
  heap (optimize PlainDescent 0 1 2 constant_gradient one_step one_sample).2 !! 2
    = Some (Tensor [0%float]) ∧
  initial_or_new 3 2 5 ∧
  (optimize PlainDescent 0 1 2 constant_gradient one_step one_sample).1
    = inr 5 ∧
  returned (optimize PlainDescent 0 1 2 constant_gradient one_step one_sample)
    = Some [(- decimal 1 10)%float].
Proof.
  destruct (initial_solution_not_mutated PlainDescent 0 1 2 constant_gradient
              one_step one_sample [0%float] eq_refl) as [[Hv _] [Hl _]].
  split; [exact Hv|].
  split; [apply (Hl 5); by vm_compute|].
  split; by vm_compute.
Defined.

(** * Further properties of the code *)


Section failed_plan.
Context {F Row Rng : Type} `{Scalar F} `{RandomSource Rng}.

(** Every optimizer starts with the planner: what the planner raises,
    [optimize] raises, in the state the planner left. *)
Lemma optimize_of_failed_plan a X y p source kw batch_size e
    (st st' : state F Row Rng) :
  kw_batch_size kw = Some batch_size →
  calculate_batch_size_and_iteration batch_size (kw_batch_fraction kw) X st
    = (inl e, st') →
  optimize a X y p source kw st = (inl e, st').
Proof.
  intros Hbs Hplan.
  destruct a; simpl; rewrite Hbs;
    unfold mini_batch_gradient_descent.optimize,
      mini_batch_gradient_descent_with_momentum.optimize,
      mini_batch_gradient_descent_with_momentum.locals,
      adagrad.optimize, rmsprop.optimize, adam.optimize,
      transfer_data_to_numpy, bind, ret; simpl;
    unfold bind; by rewrite Hplan.
Qed.
End failed_plan.

Section counting.
Context {F Row Rng : Type} `{Scalar F} `{RandomSource Rng}.
Local Abbreviation M := (M F Row Rng).
Local Abbreviation state := (state F Row Rng).

Lemma makes_eq {A} n n' (m : M A) : makes n m → n = n' → makes n' m.
Proof. by intros Hm <-. Qed.

Lemma makes_reads {A} (m : M A) : reads m → makes 0 m.
Proof.
  intros Hm st. exists []. rewrite Hm, app_nil_r. by repeat split.
Qed.

Lemma makes_ret {A} (x : A) : makes 0 (ret x : M A).
Proof. by apply makes_reads. Qed.

Lemma makes_raise {A} n e : makes n (raise e : M A).
Proof.
  intros st. exists []. simpl. rewrite app_nil_r.
  split; [done|]. split; [lia | done].
Qed.

Lemma makes_lift {A} (r : exception + A) : makes 0 (lift r : M A).
Proof. apply makes_reads, reads_lift. Qed.

Lemma makes_bind {A B} n n' (m : M A) (k : A → M B) :
  makes n m → (∀ x, makes n' (k x)) → makes (n + n') (bind m k).
Proof.
  intros Hm Hk st. destruct (Hm st) as (c & Hc & Hle & Hn).
  unfold bind. destruct (m st) as [[e|x] st1]; simpl in *.
  - exists c. split; [done|]. split; [lia | done].
  - destruct (Hk x st1) as (c' & Hc' & Hle' & Hn').
    exists (c ++ c'). rewrite Hc', Hc, app_assoc, length_app.
    split; [done|]. specialize (Hn x eq_refl). split; [lia|].
    intros x' Hx'. rewrite (Hn' x' Hx'). lia.
Qed.

Lemma makes_load l : makes 0 (load l : M (list F)).
Proof.
  apply makes_reads. intros st. unfold load.
  by destruct (heap st !! l) as [[]|].
Qed.

Lemma makes_load_rows l : makes 0 (load_rows l : M (list Row)).
Proof.
  apply makes_reads. intros st. unfold load_rows.
  by destruct (heap st !! l) as [[]|].
Qed.

Lemma makes_alloc o : makes 0 (alloc o : M loc).
Proof.
  intros st. exists []. simpl. rewrite app_nil_r. by repeat split.
Qed.

Lemma makes_store l v : makes 0 (store l v : M unit).
Proof.
  intros st. exists []. simpl. rewrite app_nil_r. by repeat split.
Qed.

Lemma makes_permutation n : makes 0 (np_random_permutation n : M (list nat)).
Proof.
  intros st. exists []. unfold np_random_permutation.
  destruct (permutation (rng st) n). simpl. rewrite app_nil_r.
  by repeat split.
Qed.

Lemma makes_call source (Xs ys : list Row) (v : list F) :
  makes 1 (call_gradient source Xs ys v : M (list F)).
Proof. intros st. exists [(Xs, ys, v)]. by repeat split. Qed.

Lemma makes_for_each {T} n (body : nat → T → M T) idxs s :
  (∀ i s, makes n (body i s)) → makes (length idxs * n) (for_each body idxs s).
Proof.
  intros Hbody. revert s.
  induction idxs as [|i idxs IH]; intros s; simpl.
  - apply makes_ret.
  - by apply makes_bind.
Qed.

Lemma makes_for_range {T} n k (body : nat → T → M T) s :
  (∀ i s, makes n (body i s)) → makes (Z.to_nat k * n) (for_range k body s).
Proof.
  intros Hbody. unfold for_range.
  eapply makes_eq; [by apply makes_for_each | by rewrite length_seq].
Qed.

Lemma makes_planner batch_size batch_fraction X :
  makes 0 (calculate_batch_size_and_iteration batch_size batch_fraction X : M _).
Proof. apply makes_reads. intros st. apply planner_state. Qed.
End counting.

Ltac makes_go :=
  repeat lazymatch goal with
  | |- makes _ (bind _ _) => eapply makes_bind; [ | intros ? ]
  | |- makes _ (match ?x with _ => _ end) => destruct x
  | |- makes _ (for_range _ _ _) => eapply makes_for_range; intros ? ?
  | |- makes _ _ =>
      first [ apply makes_ret | apply makes_lift | apply makes_load
            | apply makes_load_rows | apply makes_alloc | apply makes_store
            | apply makes_permutation | apply makes_call | apply makes_planner
            | apply makes_raise ]
  end.

Section counting_optimizers.
Context {F Row Rng : Type} `{Scalar F} `{RandomSource Rng}.

(** What [optimize] does once the planner has returned. *)
Lemma optimize_of_plan {A} (k : Z * Z → M F Row Rng A) bs bf X plan
    (st : state F Row Rng) :
  (calculate_batch_size_and_iteration bs bf X st).1 = inr plan →
  bind (calculate_batch_size_and_iteration bs bf X) k st = k plan st.
Proof.
  intros Hplan. apply bind_returns.
  pose proof (planner_state bs bf X st) as Hst.
  destruct (calculate_batch_size_and_iteration bs bf X st) as [r st'].
  simpl in *. by subst.
Qed.

Lemma bind_bind {A B C} (m : M F Row Rng A) (k : A → M F Row Rng B)
    (k' : B → M F Row Rng C) st :
  bind (bind m k) k' st = bind m (λ x, bind (k x) k') st.
Proof. unfold bind. by destruct (m st) as [[e|x] st']. Qed.

Lemma makes_optimize a X y p source kw batch_size b iterations
    (st : state F Row Rng) :
  kw_batch_size kw = Some batch_size →
  (calculate_batch_size_and_iteration batch_size (kw_batch_fraction kw) X st).1
    = inr (b, iterations) →
  ∃ calls,
    gradient_log (optimize a X y p source kw st).2 = gradient_log st ++ calls ∧
    length calls
      ≤ Z.to_nat (default 1000%Z (kw_max_num_epoch kw)) * Z.to_nat iterations ∧
    ∀ l, (optimize a X y p source kw st).1 = inr l →
         length calls
         = Z.to_nat (default 1000%Z (kw_max_num_epoch kw)) * Z.to_nat iterations.
Proof.
  intros Hbs Hplan.
  destruct a; simpl; rewrite Hbs;
    unfold mini_batch_gradient_descent.optimize,
      mini_batch_gradient_descent_with_momentum.optimize,
      mini_batch_gradient_descent_with_momentum.locals,
      adagrad.optimize, rmsprop.optimize, adam.optimize,
      transfer_data_to_numpy;
    cbv beta iota zeta delta [from_option Datatypes.id].
  all: rewrite ?bind_bind, (bind_returns _ _ st (X, y) st eq_refl).
  all: rewrite ?bind_bind, (optimize_of_plan _ _ _ _ _ _ Hplan).
  all: cbv beta iota zeta.
  all: lazymatch goal with
       | |- ∃ calls, gradient_log (?m ?s).2 = _ ∧ _ =>
           assert (makes (Z.to_nat (default 1000%Z (kw_max_num_epoch kw))
                          * Z.to_nat iterations) m) as Hm;
             [|exact (Hm s)]
       end.
  all: unfold shuffled, index_rows, select_batch, slice_rows, gradient_at,
         new_zeros_like, new, shape0.
  all: eapply makes_eq; [makes_go|].
  all: cbv beta iota zeta delta [from_option Datatypes.id]; lia.
Qed.
End counting_optimizers.

Section wp_loops.
Context {F Row Rng : Type} `{Scalar F} `{RandomSource Rng}.
Local Abbreviation M := (M F Row Rng).
Local Abbreviation state := (state F Row Rng).

Lemma wp_mono {A} (m : M A) (st : state) (Q Q' : exception + A → state → Prop) :
  wp m st Q → (∀ r st', Q r st' → Q' r st') → wp m st Q'.
Proof. unfold wp. intros HQ HQ'. by apply HQ'. Qed.

(** A loop whose body keeps [I] keeps [I]. *)
Lemma wp_for_each {T} (body : nat → T → M T) (I : T → state → Prop) E idxs s
    (st : state) :
  (∀ i s st, I s st → wp (body i s) st (outcome I E)) →
  I s st → wp (for_each body idxs s) st (outcome I E).
Proof.
  intros Hbody. revert s st.
  induction idxs as [|i idxs IH]; intros s st Hs; simpl.
  - by apply wp_ret.
  - apply wp_bind. eapply wp_mono; [by apply Hbody|].
    intros [e|s'] st' Hs'; simpl in *; [done | by apply IH].
Qed.

Lemma wp_for_range {T} (body : nat → T → M T) (I : T → state → Prop) E k s
    (st : state) :
  (∀ i s st, I s st → wp (body i s) st (outcome I E)) →
  I s st → wp (for_range k body s) st (outcome I E).
Proof. apply wp_for_each. Qed.

Lemma for_range_none {T} k (body : nat → T → M T) s :
  (k ≤ 0)%Z → for_range k body s = ret s.
Proof. intros Hk. unfold for_range. by rewrite Z2Nat.nonpos. Qed.
End wp_loops.

Section no_iterations.
Context {F Row Rng : Type} `{Scalar F} `{RandomSource Rng}.

Lemma dataset_extends X y n (st st' : state F Row Rng) :
  extends st st' → dataset X y n st → dataset X y n st'.
Proof.
  intros E (xs & ys & HX & Hy & Hxs & Hys). exists xs, ys.
  repeat split; [by apply E.. | done | done].
Qed.

Lemma wp_shuffled_dataset X y n (st : state F Row Rng) Q :
  dataset X y n st →
  (∀ X' y' st', extends st st' → dataset X' y' n st' → Q (inr (X', y')) st') →
  wp (shuffled X y) st Q.
Proof.
  intros (xs & ys & HX & Hy & Hxs & Hys) HQ.
  eapply wp_shuffled; [done.. | congruence |].
  intros X' y' xs' ys' st' E HX' Hy' Hpx Hpy. apply HQ; [done|].
  exists xs', ys'. repeat split; [done.. | |].
  - by rewrite Hpx.
  - by rewrite Hpy.
Qed.

Lemma no_epoch_mini_batch (st : state F Row Rng) X y p source lr epochs bs bf
    n b iterations :
  dataset X y n st →
  (calculate_batch_size_and_iteration (default (PyInt 42) bs) bf X st).1
    = inr (b, iterations) →
  (default 1000 epochs ≤ 0 ∨ iterations ≤ 0)%Z →
  (mini_batch_gradient_descent.optimize X y p source lr epochs bs bf st).1
  = inr p.
Proof.
  intros Hd Hplan Hnone.
  change (wp (mini_batch_gradient_descent.optimize X y p source lr epochs bs bf) st
            (λ r _, r = inr p)).
  unfold mini_batch_gradient_descent.optimize. cbv beta iota zeta.
  apply wp_bind, wp_ret. apply wp_bind, wp_planner. rewrite Hplan.
  cbv beta iota zeta.
  destruct Hnone as [Hnone|Hnone].
  { rewrite for_range_none by done. by apply wp_bind, wp_ret, wp_ret. }
  apply wp_bind.
  eapply wp_mono.
  { apply (wp_for_range _ (λ s st', s.2 = p ∧ dataset s.1.1 s.1.2 n st')
             (λ _ _, False)); [|done].
    intros _ [[X1 y1] c] st1 [Hc Hd1]; simpl in *.
    apply wp_bind. eapply wp_shuffled_dataset; [done|].
    intros X2 y2 st2 E2 Hd2.
    rewrite for_range_none by done.
    apply wp_bind, wp_ret, wp_ret. by split. }
  intros [e|[[X1 y1] c]] st1; simpl; [done|]. intros [-> _].
  by apply wp_ret.
Qed.

Lemma no_epoch_momentum (st : state F Row Rng) X y p source lr decay epochs bs bf
    n v b iterations :
  dataset X y n st →
  heap st !! p = Some (Tensor v) →
  (calculate_batch_size_and_iteration (default (PyInt 1) bs) bf X st).1
    = inr (b, iterations) →
  (default 1000 epochs ≤ 0 ∨ iterations ≤ 0)%Z →
  (mini_batch_gradient_descent_with_momentum.optimize
     X y p source lr decay epochs bs bf st).1
  = inr p.
Proof.
  intros Hd Hp Hplan Hnone.
  change (wp (mini_batch_gradient_descent_with_momentum.optimize
                X y p source lr decay epochs bs bf) st (λ r _, r = inr p)).
  unfold mini_batch_gradient_descent_with_momentum.optimize,
    mini_batch_gradient_descent_with_momentum.locals.
  cbv beta iota zeta.
  apply wp_bind. apply wp_bind, wp_ret. apply wp_bind, wp_planner.
  rewrite Hplan. cbv beta iota zeta.
  apply wp_bind. eapply wp_new_zeros_like; [done|]. intros m0 st0 E0 Hm0.
  destruct Hnone as [Hnone|Hnone].
  { rewrite for_range_none by done. by apply wp_ret, wp_ret. }
  eapply wp_mono.
  { apply (wp_for_range _ (λ s st', s.1.2 = p ∧ dataset s.1.1.1 s.1.1.2 n st')
             (λ _ _, False)); [|by split; [|eapply dataset_extends]].
    intros _ [[[X1 y1] c] m] st1 [Hc Hd1]; simpl in *.
    apply wp_bind. eapply wp_shuffled_dataset; [done|].
    intros X2 y2 st2 E2 Hd2.
    rewrite for_range_none by done.
    apply wp_bind, wp_ret, wp_ret. by split. }
  intros [e|[[[X1 y1] c] m]] st1; simpl; [done|]. intros [-> _].
  by apply wp_ret.
Qed.

Lemma no_epoch_adagrad (st : state F Row Rng) X y p source lr epochs bs bf eps
    n v b iterations :
  dataset X y n st →
  heap st !! p = Some (Tensor v) →
  (calculate_batch_size_and_iteration (default (PyInt 1) bs) bf X st).1
    = inr (b, iterations) →
  (default 1000 epochs ≤ 0 ∨ iterations ≤ 0)%Z →
  (adagrad.optimize X y p source lr epochs bs bf eps st).1 = inr p.
Proof.
  intros Hd Hp Hplan Hnone.
  change (wp (adagrad.optimize X y p source lr epochs bs bf eps) st
            (λ r _, r = inr p)).
  unfold adagrad.optimize. cbv beta iota zeta.
  apply wp_bind, wp_ret. apply wp_bind, wp_planner.
  rewrite Hplan. cbv beta iota zeta.
  apply wp_bind. eapply wp_new_zeros_like; [done|]. intros s0 st0 E0 Hs0.
  destruct Hnone as [Hnone|Hnone].
  { rewrite for_range_none by done. by apply wp_bind, wp_ret, wp_ret. }
  apply wp_bind. eapply wp_mono.
  { apply (wp_for_range _ (λ s st', s.2 = p ∧ dataset s.1.1 s.1.2 n st')
             (λ _ _, False)); [|by split; [|eapply dataset_extends]].
    intros _ [[X1 y1] c] st1 [Hc Hd1]; simpl in *.
    apply wp_bind. eapply wp_shuffled_dataset; [done|].
    intros X2 y2 st2 E2 Hd2.
    rewrite for_range_none by done.
    apply wp_bind, wp_ret, wp_ret. by split. }
  intros [e|[[X1 y1] c]] st1; simpl; [done|]. intros [-> _].
  by apply wp_ret.
Qed.

Lemma no_epoch_rmsprop (st : state F Row Rng) X y p source lr decay epochs bs bf
    eps n v b iterations :
  dataset X y n st →
  heap st !! p = Some (Tensor v) →
  (calculate_batch_size_and_iteration (default (PyInt 1) bs) bf X st).1
    = inr (b, iterations) →
  (default 1000 epochs ≤ 0 ∨ iterations ≤ 0)%Z →
  (rmsprop.optimize X y p source lr decay epochs bs bf eps st).1 = inr p.
Proof.
  intros Hd Hp Hplan Hnone.
  change (wp (rmsprop.optimize X y p source lr decay epochs bs bf eps) st
            (λ r _, r = inr p)).
  unfold rmsprop.optimize. cbv beta iota zeta.
  apply wp_bind, wp_ret. apply wp_bind, wp_planner.
  rewrite Hplan. cbv beta iota zeta.
  apply wp_bind. eapply wp_new_zeros_like; [done|]. intros s0 st0 E0 Hs0.
  destruct Hnone as [Hnone|Hnone].
  { rewrite for_range_none by done. by apply wp_bind, wp_ret, wp_ret. }
  apply wp_bind. eapply wp_mono.
  { apply (wp_for_range _ (λ s st', s.1.2 = p ∧ dataset s.1.1.1 s.1.1.2 n st')
             (λ _ _, False)); [|by split; [|eapply dataset_extends]].
    intros _ [[[X1 y1] c] a] st1 [Hc Hd1]; simpl in *.
    apply wp_bind. eapply wp_shuffled_dataset; [done|].
    intros X2 y2 st2 E2 Hd2.
    rewrite for_range_none by done.
    apply wp_bind, wp_ret, wp_ret. by split. }
  intros [e|[[[X1 y1] c] a]] st1; simpl; [done|]. intros [-> _].
  by apply wp_ret.
Qed.

Lemma no_epoch_adam (st : state F Row Rng) X y p net flag lr d1 d2 epochs bs bf
    eps n v b iterations :
  dataset X y n st →
  heap st !! p = Some (Tensor v) →
  (calculate_batch_size_and_iteration (default (PyInt 10) bs) bf X st).1
    = inr (b, iterations) →
  (default 1000 epochs ≤ 0 ∨ iterations ≤ 0)%Z →
  (adam.optimize X y p net flag lr d1 d2 epochs bs bf eps st).1 = inr p.
Proof.
  intros Hd Hp Hplan Hnone.
  change (wp (adam.optimize X y p net flag lr d1 d2 epochs bs bf eps) st
            (λ r _, r = inr p)).
  unfold adam.optimize. cbv beta iota zeta.
  apply wp_bind, wp_ret. apply wp_bind, wp_planner.
  rewrite Hplan. cbv beta iota zeta.
  apply wp_bind. eapply wp_new_zeros_like; [done|]. intros m0 st0 E0 Hm0.
  apply wp_bind. eapply wp_new_zeros_like; [by apply E0|]. intros s0 st0' E0' Hs0.
  destruct Hnone as [Hnone|Hnone].
  { rewrite for_range_none by done. by apply wp_bind, wp_ret, wp_ret. }
  apply wp_bind. eapply wp_mono.
  { apply (wp_for_range _ (λ s st', s.1.1.1 = p ∧ dataset X y n st')
             (λ _ _, False));
      [|by split; [|eapply dataset_extends, dataset_extends]].
    intros _ [[[c m] a] k] st1 [Hc Hd1]; simpl in *.
    destruct Hd1 as (xs & ys & HX & Hy & Hxs & Hys).
    apply wp_bind. eapply wp_shape0; [done|].
    apply wp_bind, wp_permutation. intros idx st2 _ E2.
    rewrite for_range_none by done.
    apply wp_ret. split; [done|]. exists xs, ys.
    repeat split; [by apply E2.. | done | done]. }
  intros [e|[[[c m] a] k]] st1; simpl; [done|]. intros [-> _].
  by apply wp_ret.
Qed.

Lemma no_epoch_optimize a (st : state F Row Rng) X y p source kw n v
    batch_size b iterations :
  dataset X y n st →
  heap st !! p = Some (Tensor v) →
  kw_batch_size kw = Some batch_size →
  (calculate_batch_size_and_iteration batch_size (kw_batch_fraction kw) X st).1
    = inr (b, iterations) →
  (default 1000 (kw_max_num_epoch kw) ≤ 0 ∨ iterations ≤ 0)%Z →
  (optimize a X y p source kw st).1 = inr p.
Proof.
  intros Hd Hp Hbs Hplan Hnone. destruct a; simpl; rewrite Hbs.
  - by eapply no_epoch_mini_batch.
  - by eapply no_epoch_momentum.
  - by eapply no_epoch_adagrad.
  - by eapply no_epoch_rmsprop.
  - by eapply no_epoch_adam.
Qed.
End no_iterations.

Section rows_facts2.
Context {A B : Type}.

Lemma take_rows_raises (a : list A) idx e :
  take_rows a idx = inl e → e = IndexError.
Proof.
  induction idx as [|i idx IH]; simpl; [done|].
  destruct (a !! i), (take_rows a idx) as [e'|rest]; intros [= <-]; auto.
Qed.

Lemma take_rows_out_of_range (a : list A) idx i :
  i ∈ idx → length a ≤ i → take_rows a idx = inl IndexError.
Proof.
  intros Hi Hlen.
  destruct (take_rows a idx) as [e|sel] eqn:E.
  { by rewrite (take_rows_raises _ _ _ E). }
  apply take_rows_Forall2 in E.
  apply list_elem_of_lookup in Hi as [k Hk].
  destruct (Forall2_lookup_l _ _ _ _ _ E Hk) as (row & _ & Hrow).
  apply lookup_lt_Some in Hrow. lia.
Qed.

Lemma take_rows_zip (a : list A) (b : list B) idx sa sb :
  take_rows a idx = inr sa → take_rows b idx = inr sb →
  take_rows (zip a b) idx = inr (zip sa sb).
Proof.
  rewrite !take_rows_Forall2. revert sa sb.
  induction idx as [|i idx IH]; intros sa sb Ha Hb.
  - apply Forall2_nil_inv_l in Ha, Hb. subst. constructor.
  - apply Forall2_cons_inv_l in Ha as (x & sa' & Hx & Ha & ->).
    apply Forall2_cons_inv_l in Hb as (z & sb' & Hz & Hb & ->).
    simpl. constructor; [|by apply IH].
    rewrite lookup_zip_with, Hx. simpl. by rewrite Hz.
Qed.

Lemma take_rows_prefix (a : list A) n idx :
  Forall (λ i, i < n) idx → n ≤ length a →
  take_rows a idx = take_rows (take n a) idx.
Proof.
  intros Hidx Hn. induction Hidx as [|i idx Hi _ IH]; simpl; [done|].
  by rewrite IH, lookup_take_lt.
Qed.
End rows_facts2.

Section shuffle.
Context {F Row Rng : Type} `{Scalar F} `{RandomSource Rng}.

Lemma shuffled_pairs X y xs ys (st : state F Row Rng) :
  heap st !! X = Some (Rows xs) → heap st !! y = Some (Rows ys) →
  length xs ≤ length ys →
  ∃ xs' ys' r,
    shuffled X y st
    = (inr (length (heap st), S (length (heap st))),
       State (heap st ++ [Rows xs'; Rows ys']) r (gradient_log st)) ∧
    zip xs' ys' ≡ₚ zip xs ys ∧
    length xs' = length xs ∧ length ys' = length xs.
Proof.
  intros HX Hy Hlen.
  pose proof (permutation_range (rng st) (length xs)) as Hp.
  destruct (permutation (rng st) (length xs)) as [p r] eqn:Hperm.
  simpl in Hp.
  destruct (take_rows_permutation xs p Hp) as (xs' & Hxs' & Hpx).
  assert (Forall (λ i, i < length xs) p) as Hrange.
  { rewrite Hp. apply Forall_forall. intros i Hi%elem_of_seq. simpl. lia. }
  destruct (take_rows_in_range ys p) as (ys' & Hys' & Hlys).
  { eapply Forall_impl; [done|]. simpl. lia. }
  exists xs', ys', r. split; [|split; [|split]].
  - unfold shuffled, shape0, index_rows, bind, load_rows, np_random_permutation.
    rewrite HX. simpl. rewrite Nat2Z.id, Hperm. simpl.
    rewrite HX, Hxs'. simpl.
    rewrite (lookup_app_l_Some _ _ _ _ Hy), Hys'. simpl.
    rewrite length_app, <-app_assoc. simpl. by rewrite Nat.add_1_r.
  - assert (take_rows (zip xs (take (length xs) ys)) p
            = inr (zip xs' ys')) as Hz.
    { apply take_rows_zip; [done|]. by rewrite <-take_rows_prefix. }
    destruct (take_rows_permutation (zip xs (take (length xs) ys)) p)
      as (sel & Hsel & Hps).
    { rewrite length_zip_with, length_take. by replace (_ `min` _) with (length xs) by lia. }
    rewrite Hsel in Hz. injection Hz as <-. rewrite Hps.
    by rewrite zip_with_take_r.
  - by rewrite Hpx.
  - rewrite Hlys. by rewrite Hp, length_seq.
Qed.

Lemma shuffled_too_few_targets X y xs ys (st : state F Row Rng) :
  heap st !! X = Some (Rows xs) → heap st !! y = Some (Rows ys) →
  length ys < length xs →
  ∃ xs' r,
    shuffled X y st
    = (inl IndexError, State (heap st ++ [Rows xs']) r (gradient_log st)).
Proof.
  intros HX Hy Hlen.
  pose proof (permutation_range (rng st) (length xs)) as Hp.
  destruct (permutation (rng st) (length xs)) as [p r] eqn:Hperm.
  simpl in Hp.
  destruct (take_rows_permutation xs p Hp) as (xs' & Hxs' & Hpx).
  exists xs', r.
  unfold shuffled, shape0, index_rows, bind, load_rows, np_random_permutation.
  rewrite HX. simpl. rewrite Nat2Z.id, Hperm. simpl.
  rewrite HX, Hxs'. simpl.
  rewrite (lookup_app_l_Some _ _ _ _ Hy).
  rewrite (take_rows_out_of_range ys p (length ys)); [done | | done].
  rewrite Hp. apply elem_of_seq. lia.
Qed.
End shuffle.


Section since.
Context {F Row Rng : Type} `{Scalar F} `{RandomSource Rng}.
Local Abbreviation M := (M F Row Rng).
Local Abbreviation state := (state F Row Rng).

Lemma since_refl (st : state) : since st st [].
Proof. split; [by intros l rows | by rewrite app_nil_r]. Qed.

Lemma since_trans (a b c : state) cs cs' :
  since a b cs → since b c cs' → since a c (cs ++ cs').
Proof.
  intros [H1 L1] [H2 L2]. split.
  - intros l rows Hl. by apply H2, H1.
  - by rewrite L2, L1, app_assoc.
Qed.

Lemma since_quiet (a b c : state) cs :
  since a b cs → since b c [] → since a c cs.
Proof. intros Hab Hbc. rewrite <-(app_nil_r cs). by eapply since_trans. Qed.

Lemma wp_bind_load_any {B} l (k : list F → M B) (st : state) Q :
  (∀ v, heap st !! l = Some (Tensor v) → wp (k v) st Q) →
  Q (inl TypeError) st →
  wp (bind (load l) k) st Q.
Proof.
  intros Hk He. apply wp_bind. unfold wp at 1, load.
  destruct (heap st !! l) as [[rows|v]|] eqn:E; simpl; auto.
Qed.

Lemma wp_bind_lift_any {A B} (r : exception + A) (k : A → M B) (st : state) Q :
  (∀ x, r = inr x → wp (k x) st Q) →
  (∀ e, r = inl e → Q (inl e) st) →
  wp (bind (lift r) k) st Q.
Proof. intros Hk He. apply wp_bind, wp_lift. destruct r; auto. Qed.

Lemma wp_alloc_since o (st : state) Q :
  (∀ l st', since st st' [] → heap st' !! l = Some o → Q (inr l) st') →
  wp (alloc o) st Q.
Proof.
  intros HQ. unfold wp, alloc; simpl. apply HQ.
  - split; simpl; [|by rewrite app_nil_r].
    intros l rows Hl. simpl. by apply lookup_app_l_Some.
  - simpl. by apply list_lookup_middle.
Qed.

Lemma wp_bind_alloc_since {B} o (k : loc → M B) (st : state) Q :
  (∀ l st', since st st' [] → heap st' !! l = Some o → wp (k l) st' Q) →
  wp (bind (alloc o) k) st Q.
Proof. intros Hk. apply wp_bind. by apply wp_alloc_since. Qed.

Lemma wp_bind_store_since {B} l v w (k : unit → M B) (st : state) Q :
  heap st !! l = Some (Tensor w) →
  (∀ st', since st st' [] → heap st' !! l = Some (Tensor v) → wp (k tt) st' Q) →
  wp (bind (store l v) k) st Q.
Proof.
  intros Hl Hk. apply wp_bind. unfold wp at 1, store; simpl. apply Hk.
  - split; simpl; [|by rewrite app_nil_r].
    intros l' rows Hl'. simpl. rewrite list_lookup_insert_ne; [done|].
    intros ->. by pose proof (eq_trans (eq_sym Hl) Hl').
  - simpl. apply list_lookup_insert_eq. by eapply lookup_lt_Some.
Qed.

Lemma wp_bind_permutation_since {B} n (k : list nat → M B) (st : state) Q :
  (∀ p st', p ≡ₚ seq 0 n → since st st' [] → wp (k p) st' Q) →
  wp (bind (np_random_permutation n) k) st Q.
Proof.
  intros Hk. apply wp_bind. unfold wp at 1, np_random_permutation.
  pose proof (permutation_range (rng st) n) as Hp.
  destruct (permutation (rng st) n) as [p r]. simpl in *.
  apply Hk; [done|]. split; simpl; [by intros l rows | by rewrite app_nil_r].
Qed.

Lemma wp_call_since source (Xs ys : list Row) (v : list F) (st : state) Q :
  (∀ st', since st st' [(Xs, ys, v)] → Q (inr (source Xs ys v)) st') →
  wp (call_gradient source Xs ys v) st Q.
Proof.
  intros HQ. unfold wp, call_gradient; simpl. apply HQ.
  split; simpl; [by intros l rows | done].
Qed.

(** The batch is read and the gradient source is called on it, unless
    [current_solution] is no array of parameters. *)
Lemma wp_bind_batch_gradient {B} source X y xs ys idx batch_size c
    (k : list F → M B) (st : state) Q :
  heap st !! X = Some (Rows xs) → heap st !! y = Some (Rows ys) →
  (∀ v g st',
     since st st'
       [(py_slice xs (Z.of_nat idx * batch_size) ((Z.of_nat idx + 1) * batch_size),
         py_slice ys (Z.of_nat idx * batch_size) ((Z.of_nat idx + 1) * batch_size),
         v)] →
     wp (k g) st' Q) →
  Q (inl TypeError) st →
  wp (let* batch := select_batch X y idx batch_size in
      let* gradient := gradient_at source batch c in
      k gradient) st Q.
Proof.
  intros HX Hy Hk He.
  apply wp_bind. eapply wp_select_batch; [done..|].
  apply wp_bind. unfold gradient_at.
  apply wp_bind_load_any; [|done]. intros v Hv.
  apply wp_call_since. intros st' Hs. by eapply Hk.
Qed.

Lemma wp_bind_shuffled_since {B} X y xs ys (k : loc * loc → M B) (st : state) Q :
  heap st !! X = Some (Rows xs) → heap st !! y = Some (Rows ys) →
  length xs ≤ length ys →
  (∀ X' y' xs' ys' st',
     since st st' [] →
     heap st' !! X' = Some (Rows xs') → heap st' !! y' = Some (Rows ys') →
     zip xs' ys' ≡ₚ zip xs ys →
     length xs' = length xs → length ys' = length xs →
     wp (k (X', y')) st' Q) →
  wp (bind (shuffled X y) k) st Q.
Proof.
  intros HX Hy Hlen Hk. apply wp_bind. unfold wp at 1.
  destruct (shuffled_pairs X y xs ys st HX Hy Hlen)
    as (xs' & ys' & r & -> & Hp & Hxs' & Hys').
  simpl. apply (Hk _ _ xs' ys'); try done.
  - split; simpl; [|by rewrite app_nil_r].
    intros l rows Hl. simpl. by apply lookup_app_l_Some.
  - simpl. by rewrite (list_lookup_middle _ [Rows ys']).
  - simpl. rewrite (lookup_app_r (heap st)) by lia.
    by replace (S (length (heap st)) - length (heap st)) with 1 by lia.
Qed.

(** A loop whose iteration number [k] takes [I k] to [I (S k)]. *)
Lemma wp_for_each_counted {T} (body : nat → T → M T)
    (I : nat → T → state → Prop) E idxs s (st : state) :
  (∀ k i s st, idxs !! k = Some i → I k s st →
     wp (body i s) st (outcome (I (S k)) E)) →
  I 0 s st → wp (for_each body idxs s) st (outcome (I (length idxs)) E).
Proof.
  revert I s st.
  induction idxs as [|i idxs IH]; intros I s st Hbody Hs; simpl.
  - by apply wp_ret.
  - apply wp_bind. eapply wp_mono; [by apply (Hbody 0 i)|].
    intros [e|s'] st' Hs'; simpl in *; [done|].
    apply (IH (λ k, I (S k))); [|done].
    intros k j s1 st1 Hj. by apply (Hbody (S k)).
Qed.

Lemma wp_for_range_counted {T} (body : nat → T → M T)
    (I : nat → T → state → Prop) E n s (st : state) :
  (∀ k s st, k < Z.to_nat n → I k s st →
     wp (body k s) st (outcome (I (S k)) E)) →
  I 0 s st → wp (for_range n body s) st (outcome (I (Z.to_nat n)) E).
Proof.
  intros Hbody Hs. unfold for_range.
  pose proof (wp_for_each_counted body I E (seq 0 (Z.to_nat n)) s st) as Hw.
  rewrite length_seq in Hw. apply Hw; [|done].
  intros k i s1 st1 Hk. apply lookup_seq in Hk as [-> Hk]. by apply Hbody.
Qed.
End since.


Section epochs.
Context {F Row Rng : Type} `{Scalar F} `{RandomSource Rng}.
Local Abbreviation M := (M F Row Rng).
Local Abbreviation state := (state F Row Rng).
Local Abbreviation call := (list Row * list Row * list F)%type.

Lemma in_order_snoc (xs ys : list Row) b (cur : list call) v :
  in_order xs ys b cur →
  in_order xs ys b
    (cur ++ [(py_slice xs (Z.of_nat (length cur) * b)
                ((Z.of_nat (length cur) + 1) * b),
              py_slice ys (Z.of_nat (length cur) * b)
                ((Z.of_nat (length cur) + 1) * b), v)]).
Proof.
  intros Hcur i c Hi.
  destruct (decide (i < length cur)) as [Hlt|Hge].
  - rewrite lookup_app_l in Hi by done. by apply Hcur.
  - rewrite lookup_app_r in Hi by lia.
    apply list_lookup_singleton_Some in Hi as [Hi <-].
    by replace i with (length cur) by lia.
Qed.

(** The iterations of an epoch, for a body that reads the batch number
    [idx], calls the gradient source on it, and then leaves the log and the
    arrays of samples alone. *)
Lemma wp_iterations {T} (body : nat → T → M T) X y xs ys b iterations s
    (st : state) (Q : exception + T → state → Prop) :
  heap st !! X = Some (Rows xs) → heap st !! y = Some (Rows ys) →
  (∀ idx s (st : state) (Q : exception + T → state → Prop),
     heap st !! X = Some (Rows xs) → heap st !! y = Some (Rows ys) →
     (∀ e, Q (inl e) st) →
     (∀ r v st',
        since st st'
          [(py_slice xs (Z.of_nat idx * b) ((Z.of_nat idx + 1) * b),
            py_slice ys (Z.of_nat idx * b) ((Z.of_nat idx + 1) * b), v)] →
        Q r st') →
     wp (body idx s) st Q) →
  (∀ r st' cur,
     since st st' cur → in_order xs ys b cur →
     length cur ≤ Z.to_nat iterations →
     (∀ s', r = inr s' → length cur = Z.to_nat iterations) →
     Q r st') →
  wp (for_range iterations body s) st Q.
Proof.
  intros HX Hy Hbody HQ.
  eapply wp_mono.
  { apply (wp_for_range_counted body
             (λ k _ st', ∃ cur, since st st' cur ∧ in_order xs ys b cur ∧
                                length cur = k)
             (λ _ st', ∃ cur, since st st' cur ∧ in_order xs ys b cur ∧
                              length cur ≤ Z.to_nat iterations)).
    - intros k s1 st1 Hk (cur & Hs & Hcur & Hlen).
      apply Hbody; [by apply Hs.. | |].
      + intros e. exists cur. split; [done|]. split; [done | lia].
      + intros r v st2 Hs2.
        pose proof (since_trans _ _ _ _ _ Hs Hs2) as Hs'.
        pose proof (in_order_snoc xs ys b cur v Hcur) as Hcur'.
        rewrite Hlen in Hcur'.
        destruct r as [e|s2]; simpl; eexists;
          (split; [done|]; split; [done|]); rewrite length_app; simpl; lia.
    - exists []. split; [apply since_refl|]. split; [|done].
      by intros i c Hi. }
  intros [e|s'] st' (cur & Hs & Hcur & Hlen); simpl in *.
  - by eapply HQ.
  - eapply HQ; [done.. | lia | done].
Qed.

(** The epochs of a run, for a body whose calls in an epoch satisfy
    [P]. *)
Lemma wp_epochs {T} (D : T → state → Prop) (P : list call → Prop)
    (body : nat → T → M T) iterations epochs s (st : state)
    (Q : exception + T → state → Prop) :
  (∀ k s (st : state) (Q : exception + T → state → Prop),
     D s st →
     (∀ r st' cur,
        since st st' cur → P cur → length cur ≤ iterations →
        (∀ s', r = inr s' → D s' st' ∧ length cur = iterations) →
        Q r st') →
     wp (body k s) st Q) →
  D s st →
  (∀ r st' done,
     since st st' (concat done) →
     Forall (λ e, P e ∧ length e ≤ iterations) done →
     length done ≤ Z.to_nat epochs →
     (∀ s', r = inr s' →
        length done = Z.to_nat epochs ∧
        Forall (λ e, length e = iterations) done) →
     Q r st') →
  wp (for_range epochs body s) st Q.
Proof.
  intros Hbody Hs HQ.
  eapply wp_mono.
  { apply (wp_for_range_counted body
             (λ k s' st', D s' st' ∧ ∃ done,
                since st st' (concat done) ∧
                Forall (λ e, P e ∧ length e = iterations) done ∧
                length done = k)
             (λ _ st', ∃ done,
                since st st' (concat done) ∧
                Forall (λ e, P e ∧ length e ≤ iterations) done ∧
                length done ≤ Z.to_nat epochs)).
    - intros k s1 st1 Hk (Hd & done & Hsince & Hdone & Hlen).
      apply Hbody; [done|].
      intros r st2 cur Hs2 Hcur Hle Hr.
      pose proof (since_trans _ _ _ _ _ Hsince Hs2) as Hs'.
      replace (concat done ++ cur) with (concat (done ++ [cur])) in Hs'
        by (by rewrite concat_app; simpl; rewrite app_nil_r).
      destruct r as [e|s2]; simpl.
      + exists (done ++ [cur]). split; [done|]. split.
        * apply Forall_app. split.
          -- eapply Forall_impl; [done|]. intros e' [? ->]. by split.
          -- by repeat constructor.
        * rewrite length_app. simpl. lia.
      + destruct (Hr s2 eq_refl) as [Hd2 Hcur2]. split; [done|].
        exists (done ++ [cur]). split; [done|]. split.
        * apply Forall_app. split; [done | by repeat constructor].
        * rewrite length_app. simpl. lia.
    - split; [done|]. exists []. split; [apply since_refl | by split]. }
  intros [e|s'] st'; simpl.
  - intros (done & Hsince & Hdone & Hlen). by eapply HQ.
  - intros (Hd & done & Hsince & Hdone & Hlen).
    eapply HQ; [done | | lia |].
    + eapply Forall_impl; [done|]. intros e' [? ->]. by split.
    + intros _ _. split; [done|]. eapply Forall_impl; [done|]. by intros e' [? ?].
Qed.
End epochs.

(** The rest of an iteration, once the gradient source has been called:
    whatever it does, [HQ] tells what holds of any state in which the arrays
    of samples and the log are as they were after the call. *)
Ltac since_step :=
  lazymatch goal with
  | Hs : since ?a ?b ?cs, Hs' : since ?b ?c [] |- _ =>
      let Hn := fresh "Hs" in
      pose proof (since_quiet a b c cs Hs Hs') as Hn; clear Hs Hs'
  end.

Ltac update_go HQ :=
  repeat lazymatch goal with
  | |- wp (bind (load _) _) _ _ =>
      apply wp_bind_load_any; [ intros ? ? | by eapply HQ ]
  | |- wp (bind (lift _) _) _ _ =>
      apply wp_bind_lift_any; [ intros ? ? | intros ? ?; by eapply HQ ]
  | |- wp (bind (new _) _) _ _ =>
      unfold new at 1; apply wp_bind_alloc_since; intros ? ? ? ?; since_step
  | |- wp (bind (store _ _) _) _ _ =>
      eapply wp_bind_store_since; [ eassumption | intros ? ? ?; since_step ]
  | |- wp (new _) _ _ =>
      unfold new at 1; apply wp_alloc_since; intros ? ? ? ?; since_step;
      by eapply HQ
  | |- wp (ret _) _ _ => apply wp_ret; by eapply HQ
  end.

Section epochs_of_the_optimizers.
Context {F Row Rng : Type} `{Scalar F} `{RandomSource Rng}.
Local Abbreviation M := (M F Row Rng).
Local Abbreviation state := (state F Row Rng).
Local Abbreviation call := (list Row * list Row * list F)%type.
Context (xs ys : list Row).

(** An epoch that starts with the shuffle. *)
Lemma wp_shuffled_epoch {T U} X y b iterations
    (body : loc → loc → nat → T → M T) (s : T) (k : loc → loc → T → U)
    (rebind : loc → loc → T → M U)
    (st : state) (Q : exception + U → state → Prop) :
  (∀ X y s, rebind X y s = ret (k X y s)) →
  reordered xs ys X y st →
  (∀ X' y' xs' ys' idx s (st : state) (Q : exception + T → state → Prop),
     heap st !! X' = Some (Rows xs') → heap st !! y' = Some (Rows ys') →
     (∀ e, Q (inl e) st) →
     (∀ r v st',
        since st st'
          [(py_slice xs' (Z.of_nat idx * b) ((Z.of_nat idx + 1) * b),
            py_slice ys' (Z.of_nat idx * b) ((Z.of_nat idx + 1) * b), v)] →
        Q r st') →
     wp (body X' y' idx s) st Q) →
  (∀ r st' cur,
     since st st' cur → shuffled_epoch xs ys b cur →
     length cur ≤ Z.to_nat iterations →
     (∀ u, r = inr u →
        (∃ X' y' s', u = k X' y' s' ∧ reordered xs ys X' y' st') ∧
        length cur = Z.to_nat iterations) →
     Q r st') →
  wp (let* '(X, y) := shuffled X y in
      let* s := for_range iterations (body X y) s in
      rebind X y s) st Q.
Proof.
  intros Hk (xs1 & ys1 & HX & Hy & Hp & Hlx & Hly) Hbody HQ.
  eapply wp_bind_shuffled_since; [done | done | lia |].
  intros X' y' xs' ys' st1 Hs1 HX' Hy' Hp' Hlx' Hly'.
  assert (zip xs' ys' ≡ₚ zip xs ys) as Hperm by (by rewrite Hp').
  apply wp_bind.
  apply (wp_iterations _ X' y' xs' ys' b); [done | done | by apply Hbody |].
  intros r st2 cur Hs2 Hcur Hle Hr.
  pose proof (since_trans _ _ _ _ _ Hs1 Hs2) as Hs. simpl in Hs.
  assert (shuffled_epoch xs ys b cur) as Hepoch.
  { exists xs', ys'. split; [done|]. split; [congruence|]. split; [congruence | done]. }
  destruct r as [e|s2].
  - eapply HQ; [done.. | by intros u [=]].
  - rewrite Hk. apply wp_ret. eapply HQ; [done..|].
    intros u [= <-]. split; [|by apply (Hr s2)].
    exists X', y', s2. split; [done|]. exists xs', ys'.
    split; [by apply Hs2|]. split; [by apply Hs2|]. split; [done|].
    split; [congruence | lia].
Qed.

Lemma epochs_made_raised P epochs iterations (st : state) {A} e :
  epochs_made P epochs iterations st (inl e : exception + A) st.
Proof.
  exists []. simpl. rewrite app_nil_r. split; [done|]. split; [done|].
  split; [lia | by intros x [=]].
Qed.

Lemma epochs_made_since P epochs iterations (st st0 st' : state) {A B}
    (r : exception + A) (r' : exception + B) done :
  since st st0 [] → since st0 st' (concat done) →
  Forall (λ e, P e ∧ length e ≤ Z.to_nat iterations) done →
  length done ≤ Z.to_nat epochs →
  (∀ x, r = inr x →
     length done = Z.to_nat epochs ∧
     Forall (λ e, length e = Z.to_nat iterations) done) →
  (∀ x', r' = inr x' → ∃ x, r = inr x) →
  epochs_made P epochs iterations st r' st'.
Proof.
  intros [_ L0] [_ L1] Hdone Hle Hr Hr'. exists done.
  split; [by rewrite L1, L0, app_nil_r|]. split; [done|]. split; [done|].
  intros x' Hx'. destruct (Hr' x' Hx') as [x Hx]. by eapply Hr.
Qed.

Lemma epochs_mini_batch (st : state) X y p source lr epochs bs bf b iterations :
  heap st !! X = Some (Rows xs) → heap st !! y = Some (Rows ys) →
  length xs ≤ length ys →
  (calculate_batch_size_and_iteration (default (PyInt 42) bs) bf X st).1
    = inr (b, iterations) →
  wp (mini_batch_gradient_descent.optimize X y p source lr epochs bs bf) st
    (epochs_made (shuffled_epoch xs ys b) (default 1000%Z epochs) iterations st).
Proof.
  intros HX Hy Hlen Hplan.
  unfold mini_batch_gradient_descent.optimize. cbv beta iota zeta.
  apply wp_bind, wp_ret. apply wp_bind, wp_planner. rewrite Hplan.
  cbv beta iota zeta.
  apply wp_bind.
  apply (wp_epochs (λ s st', reordered xs ys s.1.1 s.1.2 st')
           (shuffled_epoch xs ys b) _ (Z.to_nat iterations)).
  - intros _ [[X1 y1] c] st1 Q1 Hd HQ1. simpl in Hd.
    apply (wp_shuffled_epoch X1 y1 b iterations
             (λ X y idx current_solution, _) c (λ X y s, (X, y, s))
             (λ X y s, ret (X, y, s)));
      [done | done | |].
    + intros X' y' xs' ys' idx c' st2 Q2 HX' Hy' He HQ2.
      apply (wp_bind_batch_gradient _ X' y' xs' ys'); [done | done | | done].
      intros v g st3 Hs. update_go HQ2.
    + intros r st2 cur Hs Hcur Hle Hr. apply (HQ1 r st2 cur); [done..|].
      intros s' ->. destruct (Hr s' eq_refl) as [(X' & y' & c' & -> & Hd') Hl].
      by split.
  - exists xs, ys. by repeat (split; [done|]).
  - intros r st' done Hs Hdone Hle Hr.
    destruct r as [e|[[X1 y1] c]]; [|apply wp_ret];
      (eapply (epochs_made_since _ _ _ st st); [apply since_refl | done..|]).
    + by intros x [=].
    + intros _ _. by eexists.
Qed.

Lemma epochs_momentum (st : state) X y p source lr decay epochs bs bf
    b iterations :
  heap st !! X = Some (Rows xs) → heap st !! y = Some (Rows ys) →
  length xs ≤ length ys →
  (calculate_batch_size_and_iteration (default (PyInt 1) bs) bf X st).1
    = inr (b, iterations) →
  wp (mini_batch_gradient_descent_with_momentum.optimize
        X y p source lr decay epochs bs bf) st
    (epochs_made (shuffled_epoch xs ys b) (default 1000%Z epochs) iterations st).
Proof.
  intros HX Hy Hlen Hplan.
  unfold mini_batch_gradient_descent_with_momentum.optimize,
    mini_batch_gradient_descent_with_momentum.locals.
  cbv beta iota zeta.
  apply wp_bind. apply wp_bind, wp_ret. apply wp_bind, wp_planner.
  rewrite Hplan. cbv beta iota zeta.
  apply wp_bind. unfold new_zeros_like.
  apply wp_bind_load_any; [|apply epochs_made_raised]. intros v0 Hv0.
  unfold new at 1. apply wp_alloc_since. intros m0 st0 Hs0 Hm0.
  apply (wp_epochs (λ s st', reordered xs ys s.1.1.1 s.1.1.2 st')
           (shuffled_epoch xs ys b) _ (Z.to_nat iterations)).
  - intros _ [[[X1 y1] c] m] st1 Q1 Hd HQ1. simpl in Hd.
    apply (wp_shuffled_epoch X1 y1 b iterations
             (λ X y idx '(current_solution, momentum), _) (c, m)
             (λ X y '(c, m), (X, y, c, m))
             (λ X y '(c, m), ret (X, y, c, m)));
      [by intros ? ? [] | done | |].
    + intros X' y' xs' ys' idx [c' m'] st2 Q2 HX' Hy' He HQ2.
      apply (wp_bind_batch_gradient _ X' y' xs' ys'); [done | done | | done].
      intros v g st3 Hs. update_go HQ2.
    + intros r st2 cur Hs Hcur Hle Hr. apply (HQ1 r st2 cur); [done..|].
      intros s' ->.
      destruct (Hr s' eq_refl) as [(X' & y' & [c' m'] & -> & Hd') Hl].
      by split.
  - exists xs, ys. split; [by apply Hs0|]. split; [by apply Hs0|].
    by repeat (split; [done|]).
  - intros r st' done Hs Hdone Hle Hr.
    destruct r as [e|[[[X1 y1] c] m]]; [|apply wp_ret];
      (eapply (epochs_made_since _ _ _ st st0); [done..|]).
    + by intros x [=].
    + intros _ _. by eexists.
Qed.

Lemma epochs_adagrad (st : state) X y p source lr epochs bs bf eps
    b iterations :
  heap st !! X = Some (Rows xs) → heap st !! y = Some (Rows ys) →
  length xs ≤ length ys →
  (calculate_batch_size_and_iteration (default (PyInt 1) bs) bf X st).1
    = inr (b, iterations) →
  wp (adagrad.optimize X y p source lr epochs bs bf eps) st
    (epochs_made (shuffled_epoch xs ys b) (default 1000%Z epochs) iterations st).
Proof.
  intros HX Hy Hlen Hplan.
  unfold adagrad.optimize. cbv beta iota zeta.
  apply wp_bind, wp_ret. apply wp_bind, wp_planner.
  rewrite Hplan. cbv beta iota zeta.
  apply wp_bind. unfold new_zeros_like.
  apply wp_bind_load_any; [|apply epochs_made_raised]. intros v0 Hv0.
  unfold new at 1. apply wp_alloc_since. intros a0 st0 Hs0 Ha0.
  apply wp_bind.
  apply (wp_epochs (λ s st', reordered xs ys s.1.1 s.1.2 st')
           (shuffled_epoch xs ys b) _ (Z.to_nat iterations)).
  - intros _ [[X1 y1] c] st1 Q1 Hd HQ1. simpl in Hd.
    apply (wp_shuffled_epoch X1 y1 b iterations
             (λ X y idx current_solution, _) c (λ X y s, (X, y, s))
             (λ X y s, ret (X, y, s)));
      [done | done | |].
    + intros X' y' xs' ys' idx c' st2 Q2 HX' Hy' He HQ2.
      apply (wp_bind_batch_gradient _ X' y' xs' ys'); [done | done | | done].
      intros v g st3 Hs. update_go HQ2.
    + intros r st2 cur Hs Hcur Hle Hr. apply (HQ1 r st2 cur); [done..|].
      intros s' ->. destruct (Hr s' eq_refl) as [(X' & y' & c' & -> & Hd') Hl].
      by split.
  - exists xs, ys. split; [by apply Hs0|]. split; [by apply Hs0|].
    by repeat (split; [done|]).
  - intros r st' done Hs Hdone Hle Hr.
    destruct r as [e|[[X1 y1] c]]; [|apply wp_ret];
      (eapply (epochs_made_since _ _ _ st st0); [done..|]).
    + by intros x [=].
    + intros _ _. by eexists.
Qed.

Lemma epochs_rmsprop (st : state) X y p source lr decay epochs bs bf eps
    b iterations :
  heap st !! X = Some (Rows xs) → heap st !! y = Some (Rows ys) →
  length xs ≤ length ys →
  (calculate_batch_size_and_iteration (default (PyInt 1) bs) bf X st).1
    = inr (b, iterations) →
  wp (rmsprop.optimize X y p source lr decay epochs bs bf eps) st
    (epochs_made (shuffled_epoch xs ys b) (default 1000%Z epochs) iterations st).
Proof.
  intros HX Hy Hlen Hplan.
  unfold rmsprop.optimize. cbv beta iota zeta.
  apply wp_bind, wp_ret. apply wp_bind, wp_planner.
  rewrite Hplan. cbv beta iota zeta.
  apply wp_bind. unfold new_zeros_like.
  apply wp_bind_load_any; [|apply epochs_made_raised]. intros v0 Hv0.
  unfold new at 1. apply wp_alloc_since. intros a0 st0 Hs0 Ha0.
  apply wp_bind.
  apply (wp_epochs (λ s st', reordered xs ys s.1.1.1 s.1.1.2 st')
           (shuffled_epoch xs ys b) _ (Z.to_nat iterations)).
  - intros _ [[[X1 y1] c] a] st1 Q1 Hd HQ1. simpl in Hd.
    apply (wp_shuffled_epoch X1 y1 b iterations
             (λ X y idx '(current_solution, squared_gradients), _) (c, a)
             (λ X y '(c, a), (X, y, c, a))
             (λ X y '(c, a), ret (X, y, c, a)));
      [by intros ? ? [] | done | |].
    + intros X' y' xs' ys' idx [c' a'] st2 Q2 HX' Hy' He HQ2.
      apply (wp_bind_batch_gradient _ X' y' xs' ys'); [done | done | | done].
      intros v g st3 Hs. update_go HQ2.
    + intros r st2 cur Hs Hcur Hle Hr. apply (HQ1 r st2 cur); [done..|].
      intros s' ->.
      destruct (Hr s' eq_refl) as [(X' & y' & [c' a'] & -> & Hd') Hl].
      by split.
  - exists xs, ys. split; [by apply Hs0|]. split; [by apply Hs0|].
    by repeat (split; [done|]).
  - intros r st' done Hs Hdone Hle Hr.
    destruct r as [e|[[[X1 y1] c] a]]; [|apply wp_ret];
      (eapply (epochs_made_since _ _ _ st st0); [done..|]).
    + by intros x [=].
    + intros _ _. by eexists.
Qed.

Lemma epochs_adam (st : state) X y p net flag lr d1 d2 epochs bs bf eps
    b iterations :
  heap st !! X = Some (Rows xs) → heap st !! y = Some (Rows ys) →
  (calculate_batch_size_and_iteration (default (PyInt 10) bs) bf X st).1
    = inr (b, iterations) →
  wp (adam.optimize X y p net flag lr d1 d2 epochs bs bf eps) st
    (epochs_made (in_order xs ys b) (default 1000%Z epochs) iterations st).
Proof.
  intros HX Hy Hplan.
  unfold adam.optimize. cbv beta iota zeta.
  apply wp_bind, wp_ret. apply wp_bind, wp_planner.
  rewrite Hplan. cbv beta iota zeta.
  apply wp_bind. unfold new_zeros_like.
  apply wp_bind_load_any; [|apply epochs_made_raised]. intros v0 Hv0.
  unfold new at 1. apply wp_alloc_since. intros m0 st0 Hs0 Hm0.
  apply wp_bind.
  apply wp_bind_load_any.
  2:{ eapply (epochs_made_since _ _ _ st st0 st0 (inl TypeError : exception + unit) _ []);
        [done | apply since_refl | done | simpl; lia | by intros x [=]
        | by intros x [=]]. }
  intros v1 Hv1.
  unfold new at 1. apply wp_alloc_since. intros a0 st1 Hs1 Ha0.
  pose proof (since_quiet _ _ _ _ Hs0 Hs1) as Hs01.
  apply wp_bind.
  apply (wp_epochs (λ _ st', heap st' !! X = Some (Rows xs) ∧
                             heap st' !! y = Some (Rows ys))
           (in_order xs ys b) _ (Z.to_nat iterations)).
  - intros _ [[[c m] a] k] st2 Q1 [HX2 Hy2] HQ1.
    apply wp_bind. eapply wp_shape0; [done|].
    apply wp_bind_permutation_since. intros idx st3 _ Hs3.
    apply (wp_iterations _ X y xs ys b); [by apply Hs3.. | |].
    + intros i [[[c' m'] a'] k'] st4 Q2 HX' Hy' He HQ2.
      apply (wp_bind_batch_gradient _ X y xs ys); [done | done | | done].
      intros v g st5 Hs. update_go HQ2.
    + intros r st4 cur Hs4 Hcur Hle Hr.
      pose proof (since_trans _ _ _ _ _ Hs3 Hs4) as Hs. simpl in Hs.
      apply (HQ1 r st4 cur); [done..|].
      intros s' ->. split; [|by eapply Hr].
      split; by apply Hs.
  - split; by apply Hs01.
  - intros r st' done Hs Hdone Hle Hr.
    destruct r as [e|[[[c m] a] k]]; [|apply wp_ret];
      (eapply (epochs_made_since _ _ _ st st1); [done..|]).
    + by intros x [=].
    + intros _ _. by eexists.
Qed.
End epochs_of_the_optimizers.

Section too_few_targets.
Context {F Row Rng : Type} `{Scalar F} `{RandomSource Rng}.
Local Abbreviation state := (state F Row Rng).

Lemma wp_bind_shuffled_short {B} X y xs ys (k : loc * loc → M F Row Rng B)
    (st : state) Q :
  heap st !! X = Some (Rows xs) → heap st !! y = Some (Rows ys) →
  length ys < length xs →
  (∀ st', since st st' [] → Q (inl IndexError) st') →
  wp (bind (shuffled X y) k) st Q.
Proof.
  intros HX Hy Hlen HQ. apply wp_bind. unfold wp at 1.
  destruct (shuffled_too_few_targets X y xs ys st HX Hy Hlen) as (xs' & r & ->).
  simpl. apply HQ. split; simpl; [|by rewrite app_nil_r].
  intros l rows Hl. simpl. by apply lookup_app_l_Some.
Qed.

Lemma short_mini_batch (st : state) X y p source lr epochs bs bf xs ys plan :
  heap st !! X = Some (Rows xs) → heap st !! y = Some (Rows ys) →
  length ys < length xs →
  (calculate_batch_size_and_iteration (default (PyInt 42) bs) bf X st).1
    = inr plan →
  (1 ≤ default 1000 epochs)%Z →
  wp (mini_batch_gradient_descent.optimize X y p source lr epochs bs bf) st
    (index_error st).
Proof.
  intros HX Hy Hlen Hplan Hepochs.
  unfold mini_batch_gradient_descent.optimize. cbv beta iota zeta.
  apply wp_bind, wp_ret. apply wp_bind, wp_planner. rewrite Hplan.
  destruct plan as [b iterations]. cbv beta iota zeta.
  apply wp_bind. rewrite for_range_first by done. apply wp_bind.
  eapply wp_bind_shuffled_short; [done..|].
  intros st' [_ Hlog]. split; [done | by rewrite Hlog, app_nil_r].
Qed.

Lemma wp_bind_new_zeros_like_since {B} a v (k : loc → M F Row Rng B)
    (st : state) Q :
  heap st !! a = Some (Tensor v) →
  (∀ l st', extends st st' → since st st' [] →
     heap st' !! l = Some (Tensor (zeros_like v)) → wp (k l) st' Q) →
  wp (bind (new_zeros_like a) k) st Q.
Proof.
  intros Ha Hk. apply wp_bind. unfold new_zeros_like.
  apply wp_bind. eapply wp_load; [done|].
  unfold new, wp at 1, alloc; simpl. apply Hk.
  - intros l o Hl. simpl. by apply lookup_app_l_Some.
  - split; simpl; [|by rewrite app_nil_r].
    intros l rows Hl. simpl. by apply lookup_app_l_Some.
  - simpl. by apply list_lookup_middle.
Qed.

Lemma short_momentum (st : state) X y p source lr decay epochs bs bf xs ys v plan :
  heap st !! X = Some (Rows xs) → heap st !! y = Some (Rows ys) →
  length ys < length xs →
  heap st !! p = Some (Tensor v) →
  (calculate_batch_size_and_iteration (default (PyInt 1) bs) bf X st).1
    = inr plan →
  (1 ≤ default 1000 epochs)%Z →
  wp (mini_batch_gradient_descent_with_momentum.optimize
        X y p source lr decay epochs bs bf) st
    (index_error st).
Proof.
  intros HX Hy Hlen Hp Hplan Hepochs.
  unfold mini_batch_gradient_descent_with_momentum.optimize,
    mini_batch_gradient_descent_with_momentum.locals.
  cbv beta iota zeta.
  apply wp_bind. apply wp_bind, wp_ret. apply wp_bind, wp_planner.
  rewrite Hplan. destruct plan as [b iterations]. cbv beta iota zeta.
  eapply wp_bind_new_zeros_like_since; [done|]. intros m0 st0 E0 Hs0 Hm0.
  rewrite for_range_first by done. apply wp_bind.
  eapply wp_bind_shuffled_short; [by apply E0.. | done |].
  intros st' Hs'. destruct (since_quiet _ _ _ _ Hs0 Hs') as [_ Hlog].
  split; [done | by rewrite Hlog, app_nil_r].
Qed.

Lemma short_adagrad (st : state) X y p source lr epochs bs bf eps xs ys v plan :
  heap st !! X = Some (Rows xs) → heap st !! y = Some (Rows ys) →
  length ys < length xs →
  heap st !! p = Some (Tensor v) →
  (calculate_batch_size_and_iteration (default (PyInt 1) bs) bf X st).1
    = inr plan →
  (1 ≤ default 1000 epochs)%Z →
  wp (adagrad.optimize X y p source lr epochs bs bf eps) st (index_error st).
Proof.
  intros HX Hy Hlen Hp Hplan Hepochs.
  unfold adagrad.optimize. cbv beta iota zeta.
  apply wp_bind, wp_ret. apply wp_bind, wp_planner.
  rewrite Hplan. destruct plan as [b iterations]. cbv beta iota zeta.
  eapply wp_bind_new_zeros_like_since; [done|]. intros a0 st0 E0 Hs0 Ha0.
  apply wp_bind. rewrite for_range_first by done. apply wp_bind.
  eapply wp_bind_shuffled_short; [by apply E0.. | done |].
  intros st' Hs'. destruct (since_quiet _ _ _ _ Hs0 Hs') as [_ Hlog].
  split; [done | by rewrite Hlog, app_nil_r].
Qed.

Lemma short_rmsprop (st : state) X y p source lr decay epochs bs bf eps xs ys v
    plan :
  heap st !! X = Some (Rows xs) → heap st !! y = Some (Rows ys) →
  length ys < length xs →
  heap st !! p = Some (Tensor v) →
  (calculate_batch_size_and_iteration (default (PyInt 1) bs) bf X st).1
    = inr plan →
  (1 ≤ default 1000 epochs)%Z →
  wp (rmsprop.optimize X y p source lr decay epochs bs bf eps) st
    (index_error st).
Proof.
  intros HX Hy Hlen Hp Hplan Hepochs.
  unfold rmsprop.optimize. cbv beta iota zeta.
  apply wp_bind, wp_ret. apply wp_bind, wp_planner.
  rewrite Hplan. destruct plan as [b iterations]. cbv beta iota zeta.
  eapply wp_bind_new_zeros_like_since; [done|]. intros a0 st0 E0 Hs0 Ha0.
  apply wp_bind. rewrite for_range_first by done. apply wp_bind.
  eapply wp_bind_shuffled_short; [by apply E0.. | done |].
  intros st' Hs'. destruct (since_quiet _ _ _ _ Hs0 Hs') as [_ Hlog].
  split; [done | by rewrite Hlog, app_nil_r].
Qed.
End too_few_targets.

(** ** Consecutive batches *)

Section tiles.
Context {A : Type}.

Lemma py_slice_tile (a : list A) (b : Z) (i : nat) :
  (0 < b)%Z →
  py_slice a (Z.of_nat i * b) ((Z.of_nat i + 1) * b)
  = take (Z.to_nat b) (drop (i * Z.to_nat b) a).
Proof.
  intros Hb. unfold py_slice, clip.
  set (len := Z.of_nat (length a)).
  assert (0 <= Z.of_nat i * b)%Z by nia.
  assert (Z.of_nat i * b < (Z.of_nat i + 1) * b)%Z by nia.
  destruct (Z.ltb_spec (Z.of_nat i * b) 0) as [?|_]; [lia|].
  destruct (Z.ltb_spec ((Z.of_nat i + 1) * b) 0) as [?|_]; [lia|].
  destruct (decide (Z.of_nat i * b <= len)%Z) as [Hin|Hout].
  - rewrite (Z.min_l (Z.of_nat i * b)) by lia.
    replace (Z.to_nat (Z.of_nat i * b)) with (i * Z.to_nat b) by nia.
    destruct (decide ((Z.of_nat i + 1) * b <= len)%Z) as [Hin'|Hout'].
    + rewrite Z.min_l by lia. f_equal. nia.
    + rewrite Z.min_r by lia.
      rewrite !take_ge; [done | |]; rewrite length_drop; unfold len in *; nia.
  - rewrite !Z.min_r by lia.
    rewrite !drop_ge by (unfold len in *; nia).
    by rewrite !take_nil.
Qed.

Lemma concat_tiles (a : list A) (n k : nat) :
  concat (map (λ i, take n (drop (i * n) a)) (seq 0 k)) = take (k * n) a.
Proof.
  induction k as [|k IH]; [done|].
  rewrite seq_S, map_app, concat_app, IH. simpl. rewrite app_nil_r.
  replace (n + k * n) with (k * n + n) by lia.
  by rewrite take_take_drop.
Qed.
End tiles.

Section default_sizes.
Context {F Row Rng : Type} `{Scalar F} `{RandomSource Rng}.

(** The same, when [batch_size] is an [int] or is left out. *)
Lemma optimize_of_failed_plan_of_int a X y p source kw e
    (st st' : state F Row Rng) :
  (∀ x, kw_batch_size kw ≠ Some (PyFloat x)) →
  (∀ b, calculate_batch_size_and_iteration (PyInt b) (kw_batch_fraction kw) X st
        = (inl e, st')) →
  optimize a X y p source kw st = (inl e, st').
Proof.
  intros Hbs Hplan.
  destruct (kw_batch_size kw) as [[b|x]|] eqn:E.
  - by eapply optimize_of_failed_plan.
  - by destruct (Hbs x).
  - destruct a; unfold optimize; rewrite E;
      unfold mini_batch_gradient_descent.optimize,
        mini_batch_gradient_descent_with_momentum.optimize,
        mini_batch_gradient_descent_with_momentum.locals,
        adagrad.optimize, rmsprop.optimize, adam.optimize,
        transfer_data_to_numpy;
      cbv beta iota zeta delta [from_option Datatypes.id];
      rewrite ?bind_bind, (bind_returns _ _ st (X, y) st eq_refl), ?bind_bind;
      by erewrite bind_raises.
Qed.
End default_sizes.

Section empty_dataset.
Context {Row Rng : Type} `{RandomSource Rng}.

Lemma float_int_of_zero_times (x : float) :
  PrimFloat.ltb (float_of_int 0) x = true →
  PrimFloat.leb x (float_of_int 1) = true →
  float_int_of (PrimFloat.mul (float_of_int 0) x) = inr 0%Z.
Proof.
  rewrite ltb_spec, leb_spec. unfold float_int_of. rewrite mul_spec.
  replace (Prim2SF (float_of_int 0)) with (S754_zero false) by (by vm_compute).
  replace (Prim2SF (float_of_int 1)) with (S754_finite false 4503599627370496 (-52))
    by (by vm_compute).
  by destruct (Prim2SF x) as [s|[]| |s m e].
Qed.

Lemma float_plan_of_empty (st : state float Row Rng) X b f :
  heap st !! X = Some (Rows []) →
  py_lt (PyInt 0) f && py_le f (PyInt 1) = true →
  calculate_batch_size_and_iteration (PyInt b) (Some f) X st
  = (inl ZeroDivisionError, st).
Proof.
  intros HX Hf. apply run_of_wp.
  unfold calculate_batch_size_and_iteration. rewrite Hf.
  apply wp_bind. apply wp_bind. eapply wp_shape0; [done|].
  apply wp_lift.
  assert (py_int (py_int_mul (Z.of_nat (length (@nil Row))) f) = inr 0%Z) as ->.
  { apply andb_true_iff in Hf as [Hlt Hle].
    destruct f as [z|x]; simpl in *.
    - done.
    - by apply float_int_of_zero_times. }
  apply wp_bind. eapply wp_shape0; [done|].
  by apply wp_bind, wp_lift.
Qed.
End empty_dataset.

Section oversized.
Context {Row Rng : Type} `{RandomSource Rng}.

Lemma Int_part_nonneg (x : R) : (0 <= x)%R → (0 <= Int_part x)%Z.
Proof.
  intros Hx. destruct (base_Int_part x) as [_ Hlt].
  assert (-1 < IZR (Int_part x))%R as Hi by lra.
  apply lt_IZR in Hi. lia.
Qed.

Lemma R_trunc_small (n d : Z) :
  (0 <= n)%Z → (n < d ∨ d < 0)%Z → (R_trunc (IZR n / IZR d) <= 0)%Z.
Proof.
  intros Hn [Hd|Hd].
  - rewrite R_trunc_quotient by lia. by rewrite Z.div_small by lia.
  - unfold R_trunc.
    destruct (Rle_dec 0 (IZR n / IZR d)) as [Hpos|Hneg].
    + assert (IZR d < 0)%R as HdR by (by apply IZR_lt).
      assert (0 <= IZR n)%R as HnR by (by apply IZR_le).
      assert (IZR n / IZR d * IZR d = IZR n)%R as Hq by (field; lra).
      assert (IZR n / IZR d = 0)%R as -> by nra.
      by rewrite Int_part_IZR.
    + assert (0 <= Int_part (- (IZR n / IZR d)))%Z; [|lia].
      apply Int_part_nonneg. lra.
Qed.

Lemma R_plan_of_any_size (st : state R Row Rng) X rows (b : Z) :
  heap st !! X = Some (Rows rows) →
  b ≠ 0%Z →
  calculate_batch_size_and_iteration (PyInt b) None X st
  = (inr (b, R_trunc (IZR (Z.of_nat (length rows)) / IZR b)), st).
Proof.
  intros HX Hb. apply run_of_wp.
  unfold calculate_batch_size_and_iteration.
  apply wp_bind, wp_ret.
  apply wp_bind. eapply wp_shape0; [done|].
  apply wp_bind, wp_lift. unfold py_truediv.
  destruct (Z.eqb_spec b 0) as [->|_]; [done|].
  apply wp_bind, wp_lift. simpl. by apply wp_ret.
Qed.
End oversized.

Section further_planner.
Context {F Row Rng : Type} `{Scalar F} `{RandomSource Rng}.

(** X1. A [batch_size] that is no [int] makes every optimizer raise the
    [AssertionError] of the planner's first assertion, in the state it was
    called in, also when a [batch_fraction] is given that would have
    replaced it. *)
Theorem batch_size_must_be_an_int a X y initial_solution source kw x
    (st : state F Row Rng) :
  kw_batch_size kw = Some (PyFloat x) →
  optimize a X y initial_solution source kw st
  = (inl (AssertionError "batch_size must be an integer"), st).
Proof. intros Hbs. by eapply optimize_of_failed_plan. Qed.

(** X2. With [batch_size=0] and no [batch_fraction], every optimizer
    raises [ZeroDivisionError] from the planner's division, in the state it
    was called in. *)
Theorem zero_batch_size_divides_by_zero a X y initial_solution source kw xs
    (st : state F Row Rng) :
  heap st !! X = Some (Rows xs) →
  kw_batch_size kw = Some (PyInt 0) →
  kw_batch_fraction kw = None →
  optimize a X y initial_solution source kw st = (inl ZeroDivisionError, st).
Proof.
  intros HX Hbs Hbf. eapply optimize_of_failed_plan; [done|].
  rewrite Hbf. apply run_of_wp. unfold calculate_batch_size_and_iteration.
  apply wp_bind, wp_ret. apply wp_bind. eapply wp_shape0; [done|].
  by apply wp_bind, wp_lift.
Qed.

(** X4. Once the planner has returned [iterations], a run that returns has
    called the gradient source [max_num_epoch * iterations] times (a
    negative number counting as 0), and a run that raises has called it no
    more than that. *)
Theorem gradient_source_calls a X y initial_solution source kw batch_size
    b iterations (st : state F Row Rng) :
  kw_batch_size kw = Some batch_size →
  (calculate_batch_size_and_iteration batch_size (kw_batch_fraction kw) X st).1
    = inr (b, iterations) →
  ∃ calls,
    gradient_log (optimize a X y initial_solution source kw st).2
      = gradient_log st ++ calls ∧
    length calls
      ≤ Z.to_nat (default 1000%Z (kw_max_num_epoch kw)) * Z.to_nat iterations ∧
    ∀ l, (optimize a X y initial_solution source kw st).1 = inr l →
         length calls
         = Z.to_nat (default 1000%Z (kw_max_num_epoch kw)) * Z.to_nat iterations.
Proof. apply makes_optimize. Qed.

(** X5. A run with no epoch to make ([max_num_epoch <= 0]) or no iteration
    in an epoch (the planner returned [iterations <= 0]) returns the very
    array it was given as [initial_solution], not a copy, with the values it
    had, and does not call the gradient source. *)
Theorem no_iteration_returns_initial_solution a X y initial_solution source kw
    xs ys v batch_size b iterations (st : state F Row Rng) :
  heap st !! X = Some (Rows xs) →
  heap st !! y = Some (Rows ys) →
  length ys = length xs →
  heap st !! initial_solution = Some (Tensor v) →
  kw_batch_size kw = Some batch_size →
  (calculate_batch_size_and_iteration batch_size (kw_batch_fraction kw) X st).1
    = inr (b, iterations) →
  (default 1000 (kw_max_num_epoch kw) ≤ 0 ∨ iterations ≤ 0)%Z →
  (optimize a X y initial_solution source kw st).1 = inr initial_solution ∧
  gradient_log (optimize a X y initial_solution source kw st).2
    = gradient_log st ∧
  heap (optimize a X y initial_solution source kw st).2 !! initial_solution
    = Some (Tensor v).
Proof.
  intros HX Hy Hlen Hp Hbs Hplan Hnone.
  split; [|split].
  - eapply no_epoch_optimize; [|done..]. by exists xs, ys.
  - destruct (makes_optimize a X y initial_solution source kw _ _ _ st Hbs Hplan)
      as (calls & -> & Hle & _).
    destruct calls; [by rewrite app_nil_r|]. simpl in Hle. lia.
  - eapply frame_of_keeps; [apply below_optimize | done].
Qed.
End further_planner.

Lemma batch_size_must_be_an_int_witness :
  optimize RMSProp 0 1 2 constant_gradient float_batch_size one_sample
  = (inl (AssertionError "batch_size must be an integer"), one_sample).
Proof.
  apply (batch_size_must_be_an_int RMSProp 0 1 2 constant_gradient
           float_batch_size 2%float one_sample).
  reflexivity.
Defined.

Lemma zero_batch_size_divides_by_zero_witness :
  optimize Adagrad 0 1 2 constant_gradient zero_batch_size one_sample
  = (inl ZeroDivisionError, one_sample).
Proof.
  apply (zero_batch_size_divides_by_zero Adagrad 0 1 2 constant_gradient
           zero_batch_size [[7%float]] one_sample); reflexivity.
Defined.

Lemma gradient_source_calls_witness :
  ∃ calls,
    gradient_log (optimize Momentum 0 1 2 first_feature one_epoch_of_pairs
                    (three_samples [1])).2
      = gradient_log (three_samples [1]) ++ calls ∧
    length calls ≤ 1 * 1 ∧
    ∀ l, (optimize Momentum 0 1 2 first_feature one_epoch_of_pairs
            (three_samples [1])).1 = inr l →
         length calls = 1 * 1.
Proof.
  apply (gradient_source_calls Momentum 0 1 2 first_feature one_epoch_of_pairs
           (PyInt 2) 2 1 (three_samples [1])).
  - reflexivity.
  - vm_compute. reflexivity.
Defined.

(** The default [batch_size], 42, of plain descent on one sample. *)
Lemma no_iteration_returns_initial_solution_witness :
  (optimize PlainDescent 0 1 2 constant_gradient
     (Keywords None None (Some (PyInt 42)) None None None None) one_sample).1
    = inr 2 ∧
  gradient_log (optimize PlainDescent 0 1 2 constant_gradient
     (Keywords None None (Some (PyInt 42)) None None None None) one_sample).2
    = gradient_log one_sample ∧
  heap (optimize PlainDescent 0 1 2 constant_gradient
     (Keywords None None (Some (PyInt 42)) None None None None) one_sample).2 !! 2
    = Some (Tensor [0%float]).
Proof.
  apply (no_iteration_returns_initial_solution PlainDescent 0 1 2
           constant_gradient
           (Keywords None None (Some (PyInt 42)) None None None None)
           [[7%float]] [[3%float]] [0%float] (PyInt 42) 42 0 one_sample).
  - reflexivity.
  - reflexivity.
  - reflexivity.
  - reflexivity.
  - reflexivity.
  - vm_compute. reflexivity.
  - right. lia.
Defined.

Section further_planner_on_floats.
Context {Row Rng : Type} `{RandomSource Rng}.

(** X3. On binary64, on a dataset with no sample, a [batch_fraction] that
    passes the planner's assertion makes every optimizer raise
    [ZeroDivisionError]: the batch size is [int(0 * batch_fraction)], which
    is 0, and the planner divides by it. *)
Theorem empty_dataset_with_a_fraction a X y initial_solution source kw f
    (st : state float Row Rng) :
  heap st !! X = Some (Rows []) →
  (∀ x, kw_batch_size kw ≠ Some (PyFloat x)) →
  kw_batch_fraction kw = Some f →
  py_lt (PyInt 0) f && py_le f (PyInt 1) = true →
  optimize a X y initial_solution source kw st = (inl ZeroDivisionError, st).
Proof.
  intros HX Hbs Hbf Hf. apply optimize_of_failed_plan_of_int; [done|].
  intros b. rewrite Hbf. by apply float_plan_of_empty.
Qed.
End further_planner_on_floats.

Lemma empty_dataset_with_a_fraction_witness :
  optimize Adam 0 1 2 constant_gradient (with_batch_fraction (decimal 1 2))
    no_sample
  = (inl ZeroDivisionError, no_sample).
Proof.
  apply (empty_dataset_with_a_fraction Adam 0 1 2 constant_gradient
           (with_batch_fraction (decimal 1 2)) (PyFloat (decimal 1 2)) no_sample).
  - reflexivity.
  - intros x. discriminate.
  - reflexivity.
  - vm_compute. reflexivity.
Defined.

Section further_planner_on_reals.
Context {Row Rng : Type} `{RandomSource Rng}.

(** X11. Over the real numbers, a [batch_size] that is negative, or larger
    than the number of samples, is accepted: the planner returns it with no
    iteration to make, so that [optimize] returns the array it was given as
    [initial_solution] and never calls the gradient source. *)
Theorem batch_size_out_of_range_is_accepted a X y initial_solution source kw
    xs ys v b (st : state R Row Rng) :
  heap st !! X = Some (Rows xs) →
  heap st !! y = Some (Rows ys) →
  length ys = length xs →
  heap st !! initial_solution = Some (Tensor v) →
  kw_batch_size kw = Some (PyInt b) →
  kw_batch_fraction kw = None →
  (Z.of_nat (length xs) < b ∨ b < 0)%Z →
  (∃ iterations,
     calculate_batch_size_and_iteration (PyInt b) None X st
       = (inr (b, iterations), st) ∧ (iterations ≤ 0)%Z) ∧
  (optimize a X y initial_solution source kw st).1 = inr initial_solution ∧
  gradient_log (optimize a X y initial_solution source kw st).2
    = gradient_log st.
Proof.
  intros HX Hy Hlen Hp Hbs Hbf Hb.
  assert (b ≠ 0%Z) as Hb0 by lia.
  pose proof (R_plan_of_any_size st X xs b HX Hb0) as Hplan.
  pose proof (R_trunc_small (Z.of_nat (length xs)) b ltac:(lia) Hb) as Hit.
  split; [by eexists|].
  assert ((calculate_batch_size_and_iteration (PyInt b) (kw_batch_fraction kw)
             X st).1
          = inr (b, R_trunc (IZR (Z.of_nat (length xs)) / IZR b))) as Hplan'
    by (by rewrite Hbf, Hplan).
  split.
  - eapply no_epoch_optimize; [| done.. | by right]. by exists xs, ys.
  - destruct (makes_optimize a X y initial_solution source kw _ _ _ st Hbs Hplan')
      as (calls & -> & Hle & _).
    destruct calls; [by rewrite app_nil_r|].
    rewrite (Z2Nat.nonpos _ Hit) in Hle. simpl in Hle. lia.
Qed.
End further_planner_on_reals.

Lemma batch_size_out_of_range_is_accepted_witness :
  (∃ iterations,
     calculate_batch_size_and_iteration (PyInt (-2)) None 0 three_real_samples
       = (inr ((-2)%Z, iterations), three_real_samples) ∧ (iterations ≤ 0)%Z) ∧
  (optimize Adam 0 1 2 (λ _ _ _, [1%R]) (with_batch_size (-2))
     three_real_samples).1 = inr 2 ∧
  gradient_log (optimize Adam 0 1 2 (λ _ _ _, [1%R]) (with_batch_size (-2))
                  three_real_samples).2
    = gradient_log three_real_samples.
Proof.
  apply (batch_size_out_of_range_is_accepted Adam 0 1 2 (λ _ _ _, [1%R])
           (with_batch_size (-2)) [1; 2; 3] [4; 5; 6] [0%R] (-2)
           three_real_samples).
  - reflexivity.
  - reflexivity.
  - reflexivity.
  - reflexivity.
  - reflexivity.
  - reflexivity.
  - right. lia.
Defined.

Section further_shuffle.
Context {F Row Rng : Type} `{Scalar F} `{RandomSource Rng}.

(** X6. The shuffle that starts an epoch permutes the samples and the
    targets together: it binds [X] and [y] to two new arrays whose rows,
    taken in pairs, are the pairs of the rows they had, in another order.
    Targets beyond the last sample are left out. The gradient source is not
    called. *)
Theorem shuffle_keeps_samples_with_targets X y xs ys (st : state F Row Rng) :
  heap st !! X = Some (Rows xs) →
  heap st !! y = Some (Rows ys) →
  length xs ≤ length ys →
  ∃ X' y' xs' ys',
    (shuffled X y st).1 = inr (X', y') ∧
    length (heap st) ≤ X' ∧ length (heap st) ≤ y' ∧
    heap (shuffled X y st).2 !! X' = Some (Rows xs') ∧
    heap (shuffled X y st).2 !! y' = Some (Rows ys') ∧
    zip xs' ys' ≡ₚ zip xs ys ∧
    length xs' = length xs ∧ length ys' = length xs ∧
    gradient_log (shuffled X y st).2 = gradient_log st.
Proof.
  intros HX Hy Hlen.
  destruct (shuffled_pairs X y xs ys st HX Hy Hlen)
    as (xs' & ys' & r & -> & Hp & Hxs' & Hys').
  exists (length (heap st)), (S (length (heap st))), xs', ys'. simpl.
  split; [done|]. split; [done|]. split; [lia|].
  split; [by rewrite (list_lookup_middle _ [Rows ys'])|].
  split; [|done].
  rewrite (lookup_app_r (heap st)) by lia.
  by replace (S (length (heap st)) - length (heap st)) with 1 by lia.
Qed.

(** X7. When there are fewer targets than samples, the four optimizers
    that shuffle raise [IndexError] in the first epoch, from indexing the
    targets with the permutation of the samples, before the gradient source
    is called. *)
Theorem too_few_targets a X y initial_solution source kw xs ys v batch_size plan
    (st : state F Row Rng) :
  a ≠ Adam →
  heap st !! X = Some (Rows xs) →
  heap st !! y = Some (Rows ys) →
  length ys < length xs →
  heap st !! initial_solution = Some (Tensor v) →
  kw_batch_size kw = Some batch_size →
  (calculate_batch_size_and_iteration batch_size (kw_batch_fraction kw) X st).1
    = inr plan →
  (1 ≤ default 1000 (kw_max_num_epoch kw))%Z →
  (optimize a X y initial_solution source kw st).1 = inl IndexError ∧
  gradient_log (optimize a X y initial_solution source kw st).2
    = gradient_log st.
Proof.
  intros Ha HX Hy Hlen Hp Hbs Hplan Hepochs.
  destruct a; [| | | |done]; simpl; rewrite Hbs.
  - by eapply short_mini_batch.
  - by eapply short_momentum.
  - by eapply short_adagrad.
  - by eapply short_rmsprop.
Qed.

(** X8. The calls that the four optimizers that shuffle make to the
    gradient source, whatever the arithmetic and whatever the gradients:
    the log grows by the calls of the epochs, one after the other; in each
    epoch the call number [i] is on the rows
    [i * batch_size : (i + 1) * batch_size] of the samples and of the
    targets, put in another order by one permutation of the pairs the caller
    passed. An epoch has no more than [iterations] calls, and when the run
    returns there are [max_num_epoch] epochs of [iterations] calls. *)
Theorem epochs_are_shuffled_batches a X y initial_solution source kw xs ys
    batch_size b iterations (st : state F Row Rng) :
  a ≠ Adam →
  heap st !! X = Some (Rows xs) →
  heap st !! y = Some (Rows ys) →
  length xs ≤ length ys →
  kw_batch_size kw = Some batch_size →
  (calculate_batch_size_and_iteration batch_size (kw_batch_fraction kw) X st).1
    = inr (b, iterations) →
  epochs_made (shuffled_epoch xs ys b)
    (default 1000%Z (kw_max_num_epoch kw)) iterations st
    (optimize a X y initial_solution source kw st).1
    (optimize a X y initial_solution source kw st).2.
Proof.
  intros Ha HX Hy Hlen Hbs Hplan.
  destruct a; [| | | |done]; simpl; rewrite Hbs.
  - by eapply epochs_mini_batch.
  - by eapply epochs_momentum.
  - by eapply epochs_adagrad.
  - by eapply epochs_rmsprop.
Qed.

(** X9. The calls that [adam] makes to the gradient source: every epoch
    has the same batches in the same order, the call number [i] of an epoch
    being on the rows [i * batch_size : (i + 1) * batch_size] of the samples
    and of the targets in the order the caller gave them. *)
Theorem adam_epochs_are_in_the_caller_order X y initial_solution neural_network
    using_backpropagation learning_rate momentum_decay squared_gradient_decay
    max_num_epoch batch_size batch_fraction epsilon xs ys b iterations
    (st : state F Row Rng) :
  heap st !! X = Some (Rows xs) →
  heap st !! y = Some (Rows ys) →
  (calculate_batch_size_and_iteration (default (PyInt 10) batch_size)
     batch_fraction X st).1
    = inr (b, iterations) →
  epochs_made (in_order xs ys b) (default 1000%Z max_num_epoch) iterations st
    (adam.optimize X y initial_solution neural_network using_backpropagation
       learning_rate momentum_decay squared_gradient_decay max_num_epoch
       batch_size batch_fraction epsilon st).1
    (adam.optimize X y initial_solution neural_network using_backpropagation
       learning_rate momentum_decay squared_gradient_decay max_num_epoch
       batch_size batch_fraction epsilon st).2.
Proof. intros HX Hy Hplan. by eapply epochs_adam. Qed.
End further_shuffle.

Lemma shuffle_keeps_samples_with_targets_witness :
  ∃ X' y' xs' ys',
    (shuffled 0 1 (three_samples [1])).1 = inr (X', y') ∧
    length (heap (three_samples [1])) ≤ X' ∧
    length (heap (three_samples [1])) ≤ y' ∧
    heap (shuffled 0 1 (three_samples [1])).2 !! X' = Some (Rows xs') ∧
    heap (shuffled 0 1 (three_samples [1])).2 !! y' = Some (Rows ys') ∧
    zip xs' ys' ≡ₚ zip [[1%float]; [2%float]; [3%float]]
                       [[1%float]; [2%float]; [3%float]] ∧
    length xs' = 3 ∧ length ys' = 3 ∧
    gradient_log (shuffled 0 1 (three_samples [1])).2
      = gradient_log (three_samples [1]).
Proof.
  apply (shuffle_keeps_samples_with_targets 0 1
           [[1%float]; [2%float]; [3%float]] [[1%float]; [2%float]; [3%float]]
           (three_samples [1])).
  - reflexivity.
  - reflexivity.
  - simpl. lia.
Defined.

Lemma too_few_targets_witness :
  (optimize PlainDescent 0 1 2 constant_gradient one_step one_target_short).1
    = inl IndexError ∧
  gradient_log
    (optimize PlainDescent 0 1 2 constant_gradient one_step one_target_short).2
    = gradient_log one_target_short.
Proof.
  apply (too_few_targets PlainDescent 0 1 2 constant_gradient one_step
           [[1%float]; [2%float]; [3%float]] [[1%float]; [2%float]] [0%float]
           (PyInt 1) (1, 3)%Z one_target_short).
  - discriminate.
  - reflexivity.
  - reflexivity.
  - simpl. lia.
  - reflexivity.
  - reflexivity.
  - vm_compute. reflexivity.
  - simpl. lia.
Defined.

Lemma epochs_are_shuffled_batches_witness :
  epochs_made
    (shuffled_epoch [[1%float]; [2%float]; [3%float]]
       [[1%float]; [2%float]; [3%float]] 2)
    1 1 (three_samples [1])
    (optimize RMSProp 0 1 2 first_feature one_epoch_of_pairs (three_samples [1])).1
    (optimize RMSProp 0 1 2 first_feature one_epoch_of_pairs (three_samples [1])).2.
Proof.
  apply (epochs_are_shuffled_batches RMSProp 0 1 2 first_feature
           one_epoch_of_pairs [[1%float]; [2%float]; [3%float]]
           [[1%float]; [2%float]; [3%float]] (PyInt 2) 2 1 (three_samples [1])).
  - discriminate.
  - reflexivity.
  - reflexivity.
  - simpl. lia.
  - reflexivity.
  - vm_compute. reflexivity.
Defined.

Lemma adam_epochs_are_in_the_caller_order_witness :
  epochs_made
    (in_order [[1%float]; [2%float]; [3%float]]
       [[1%float]; [2%float]; [3%float]] 2)
    1 1 (three_samples [1])
    (adam.optimize 0 1 2 (λ X_selected y_selected solution _,
                            first_feature X_selected y_selected solution) true
       (Some (decimal 1 10)) None None (Some 1%Z) (Some (PyInt 2)) None None
       (three_samples [1])).1
    (adam.optimize 0 1 2 (λ X_selected y_selected solution _,
                            first_feature X_selected y_selected solution) true
       (Some (decimal 1 10)) None None (Some 1%Z) (Some (PyInt 2)) None None
       (three_samples [1])).2.
Proof.
  apply (adam_epochs_are_in_the_caller_order 0 1 2 _ true
           (Some (decimal 1 10)) None None (Some 1%Z) (Some (PyInt 2)) None None
           [[1%float]; [2%float]; [3%float]] [[1%float]; [2%float]; [3%float]]
           2 1 (three_samples [1])).
  - reflexivity.
  - reflexivity.
  - vm_compute. reflexivity.
Defined.

Section further_batches.
Context {A : Type}.

(** X10. For a positive [batch_size], the batches
    [a[i * batch_size : (i + 1) * batch_size]] for [i = 0, ..., k - 1] are
    consecutive and do not overlap: one after the other they are the first
    [k * batch_size] rows of [a], and a batch that ends within [a] has
    [batch_size] rows. *)
Theorem batches_tile (a : list A) (batch_size : Z) (k : nat) :
  (0 < batch_size)%Z →
  concat (map (λ i, py_slice a (Z.of_nat i * batch_size)
                      ((Z.of_nat i + 1) * batch_size)) (seq 0 k))
  = take (k * Z.to_nat batch_size) a ∧
  ∀ i, ((Z.of_nat i + 1) * batch_size ≤ Z.of_nat (length a))%Z →
       length (py_slice a (Z.of_nat i * batch_size)
                 ((Z.of_nat i + 1) * batch_size))
       = Z.to_nat batch_size.
Proof.
  intros Hb. split.
  - rewrite <-concat_tiles. f_equal. apply map_ext. intros i.
    by apply py_slice_tile.
  - intros i Hi. rewrite py_slice_tile by done.
    rewrite length_take, length_drop. nia.
Qed.
End further_batches.

Lemma batches_tile_witness :
  concat (map (λ i, py_slice [1; 2; 3; 4; 5] (Z.of_nat i * 2)
                      ((Z.of_nat i + 1) * 2)) (seq 0 2))
  = take (2 * Z.to_nat 2) [1; 2; 3; 4; 5] ∧
  ∀ i, ((Z.of_nat i + 1) * 2 ≤ Z.of_nat (length [1; 2; 3; 4; 5]))%Z →
       length (py_slice [1; 2; 3; 4; 5] (Z.of_nat i * 2) ((Z.of_nat i + 1) * 2))
       = Z.to_nat 2.
Proof. apply (batches_tile [1; 2; 3; 4; 5] 2 2). lia. Defined.

(** ** The values an optimizer computes *)

Section replay_facts.
Context {F Row Rng : Type} `{Scalar F} `{RandomSource Rng}.
Local Abbreviation M := (M F Row Rng).
Local Abbreviation state := (state F Row Rng).
Local Abbreviation call := (list Row * list Row * list F)%type.
Context {S : Type} (step : S → list F → exception + S) (parameters : S → list F).
Context (source : list Row → list Row → list F → list F).

Lemma replay_app (calls calls' : list call) s :
  replay step parameters source (calls ++ calls') s
  = and_then (replay step parameters source calls s)
      (replay step parameters source calls').
Proof.
  revert s. induction calls as [|c calls IH]; intros s; simpl; [done|].
  destruct (step s _) as [e|s']; [done | apply IH].
Qed.

Lemma replay_one (c : call) s :
  replay step parameters source [c] s
  = step s (source c.1.1 c.1.2 (parameters s)).
Proof. simpl. by destruct (step s _). Qed.

(** A loop of computations that follow the update rule follows it. *)
Lemma wp_replay_loop {U} (I : U → S → state → Prop) (body : nat → U → M U)
    n u s (st : state) Q :
  (∀ k u s (st : state) Q,
     I u s st → played step parameters source I s st Q → wp (body k u) st Q) →
  I u s st → played step parameters source I s st Q →
  wp (for_range n body u) st Q.
Proof.
  intros Hbody Hu HQ.
  eapply wp_mono.
  { apply (wp_for_range body
             (λ u' st', ∃ cur s', since st st' cur ∧
                replay step parameters source cur s = inr s' ∧ I u' s' st')
             (λ e st', ∃ cur, since st st' cur ∧
                replay step parameters source cur s = inl e)).
    - intros k u1 st1 (cur & s1 & Hs1 & Hr1 & Hu1).
      apply Hbody with s1; [done|].
      intros st2 cur2 Hs2.
      pose proof (since_trans _ _ _ _ _ Hs1 Hs2) as Hs.
      pose proof (replay_app cur cur2 s) as Happ. rewrite Hr1 in Happ.
      simpl in Happ.
      destruct (replay step parameters source cur2 s1) as [e|s2].
      + simpl. by exists (cur ++ cur2).
      + intros u2 Hu2. simpl. by exists (cur ++ cur2), s2.
    - exists [], s. split; [apply since_refl | done]. }
  intros [e|u'] st'; simpl.
  - intros (cur & Hs & Hr). specialize (HQ st' cur Hs). by rewrite Hr in HQ.
  - intros (cur & s' & Hs & Hr & Hu').
    specialize (HQ st' cur Hs). rewrite Hr in HQ. by apply HQ.
Qed.
End replay_facts.

Section extending.
Context {F Row Rng : Type} `{Scalar F} `{RandomSource Rng}.
Local Abbreviation M := (M F Row Rng).
Local Abbreviation state := (state F Row Rng).

Lemma extends_keeps_rows (st st' : state) : extends st st' → keeps_rows st st'.
Proof. intros E l rows. apply E. Qed.

Lemma wp_bind_load {B} l v (k : list F → M B) (st : state) Q :
  heap st !! l = Some (Tensor v) → wp (k v) st Q → wp (bind (load l) k) st Q.
Proof. intros Hl Hk. apply wp_bind. by eapply wp_load. Qed.

Lemma wp_bind_lift {A B} (r : exception + A) (k : A → M B) (st : state) Q :
  match r with inr x => wp (k x) st Q | inl e => Q (inl e) st end →
  wp (bind (lift r) k) st Q.
Proof. intros Hk. by apply wp_bind, wp_lift. Qed.

Lemma wp_new_ext v (st : state) Q :
  (∀ l st', extends st st' → since st st' [] → heap st !! l = None →
     heap st' !! l = Some (Tensor v) → Q (inr l) st') →
  wp (new v) st Q.
Proof.
  intros HQ. unfold wp, new, alloc; simpl. apply HQ.
  - intros l o Hl. simpl. by apply lookup_app_l_Some.
  - split; simpl; [|by rewrite app_nil_r].
    intros l rows Hl. simpl. by apply lookup_app_l_Some.
  - by apply lookup_ge_None_2.
  - simpl. by apply list_lookup_middle.
Qed.

Lemma wp_bind_new_ext {B} v (k : loc → M B) (st : state) Q :
  (∀ l st', extends st st' → since st st' [] → heap st !! l = None →
     heap st' !! l = Some (Tensor v) → wp (k l) st' Q) →
  wp (bind (new v) k) st Q.
Proof. intros Hk. apply wp_bind. by apply wp_new_ext. Qed.

Lemma wp_bind_new_zeros_like_ext {B} a v (k : loc → M B) (st : state) Q :
  heap st !! a = Some (Tensor v) →
  (∀ l st', extends st st' → since st st' [] → heap st !! l = None →
     heap st' !! l = Some (Tensor (zeros_like v)) → wp (k l) st' Q) →
  wp (bind (new_zeros_like a) k) st Q.
Proof.
  intros Ha Hk. apply wp_bind. unfold new_zeros_like.
  apply wp_bind_load with v; [done|]. by apply wp_new_ext.
Qed.

Lemma wp_bind_store_ext {B} l v w (k : unit → M B) (st : state) Q :
  heap st !! l = Some (Tensor w) →
  (∀ st', since st st' [] → heap st' !! l = Some (Tensor v) →
     (∀ l' o, l' ≠ l → heap st !! l' = Some o → heap st' !! l' = Some o) →
     wp (k tt) st' Q) →
  wp (bind (store l v) k) st Q.
Proof.
  intros Hl Hk. apply wp_bind. unfold wp at 1, store; simpl. apply Hk.
  - split; simpl; [|by rewrite app_nil_r].
    intros l' rows Hl'. simpl. rewrite list_lookup_insert_ne; [done|].
    intros ->. by pose proof (eq_trans (eq_sym Hl) Hl').
  - simpl. apply list_lookup_insert_eq. by eapply lookup_lt_Some.
  - intros l' o Hne Hl'. simpl. by rewrite list_lookup_insert_ne.
Qed.

Lemma wp_bind_permutation_ext {B} n (k : list nat → M B) (st : state) Q :
  (∀ p st', extends st st' → since st st' [] → wp (k p) st' Q) →
  wp (bind (np_random_permutation n) k) st Q.
Proof.
  intros Hk. apply wp_bind. unfold wp at 1, np_random_permutation.
  destruct (permutation (rng st) n) as [p r]. simpl.
  apply Hk; [by intros l o|].
  split; simpl; [by intros l rows | by rewrite app_nil_r].
Qed.

Lemma wp_bind_batch_gradient_ext {B} source X y xs ys idx batch_size c w
    (k : list F → M B) (st : state) Q :
  heap st !! X = Some (Rows xs) → heap st !! y = Some (Rows ys) →
  heap st !! c = Some (Tensor w) →
  (∀ st',
     extends st st' →
     since st st'
       [(py_slice xs (Z.of_nat idx * batch_size) ((Z.of_nat idx + 1) * batch_size),
         py_slice ys (Z.of_nat idx * batch_size) ((Z.of_nat idx + 1) * batch_size),
         w)] →
     wp (k (source
              (py_slice xs (Z.of_nat idx * batch_size)
                 ((Z.of_nat idx + 1) * batch_size))
              (py_slice ys (Z.of_nat idx * batch_size)
                 ((Z.of_nat idx + 1) * batch_size)) w)) st' Q) →
  wp (let* batch := select_batch X y idx batch_size in
      let* gradient := gradient_at source batch c in
      k gradient) st Q.
Proof.
  intros HX Hy Hc Hk.
  apply wp_bind. eapply wp_select_batch; [done..|].
  apply wp_bind. unfold gradient_at.
  apply wp_bind_load with w; [done|].
  unfold wp, call_gradient; simpl. apply Hk.
  - by intros l o.
  - split; simpl; [by intros l rows | done].
Qed.

Lemma wp_bind_shuffled_ext {B} X y n (k : loc * loc → M B) (st : state) Q :
  dataset X y n st →
  (∀ X' y' st', extends st st' → since st st' [] → dataset X' y' n st' →
     wp (k (X', y')) st' Q) →
  wp (bind (shuffled X y) k) st Q.
Proof.
  intros (xs & ys & HX & Hy & Hlx & Hly) Hk. apply wp_bind. unfold wp at 1.
  destruct (shuffled_pairs X y xs ys st HX Hy ltac:(lia))
    as (xs' & ys' & r & -> & Hp & Hxs' & Hys').
  simpl.
  assert (extends st (State (heap st ++ [Rows xs'; Rows ys']) r (gradient_log st)))
    as Hext.
  { intros l o Hl. simpl. by apply lookup_app_l_Some. }
  apply Hk; [done | | ].
  - split; [by apply extends_keeps_rows | by simpl; rewrite app_nil_r].
  - exists xs', ys'. simpl.
    split; [by rewrite (list_lookup_middle _ [Rows ys'])|].
    split; [|split; congruence].
    rewrite (lookup_app_r (heap st)) by lia.
    by replace (S (length (heap st)) - length (heap st)) with 1 by lia.
Qed.

Lemma dataset_since X y n (st st' : state) cs :
  since st st' cs → dataset X y n st → dataset X y n st'.
Proof.
  intros [Hk _] (xs & ys & HX & Hy & Hlx & Hly). exists xs, ys.
  split; [by apply Hk|]. split; [by apply Hk | done].
Qed.
End extending.

Ltac step_fails HQ st S :=
  specialize (HQ st _ S); simpl in HQ;
  unfold descent_step, momentum_step, adagrad_step, rmsprop_step, adam_step,
    and_then in HQ;
  repeat match goal with
         | E : _ = inl _ |- _ => rewrite E in HQ
         | E : _ = inr _ |- _ => rewrite E in HQ
         end;
  exact HQ.

Ltac step_done HQ st S :=
  specialize (HQ st _ S); simpl in HQ;
  unfold descent_step, momentum_step, adagrad_step, rmsprop_step, adam_step,
    and_then in HQ;
  repeat match goal with
         | E : _ = inr _ |- _ => rewrite E in HQ
         end;
  apply HQ.

Ltac lift_cases E :=
  apply wp_bind_lift;
  match goal with
  | |- match ?r with _ => _ end => destruct r eqn:E
  end.

Section replays_of_the_optimizers.
Context {F Row Rng : Type} `{Scalar F} `{RandomSource Rng}.
Local Abbreviation M := (M F Row Rng).
Local Abbreviation state := (state F Row Rng).
Local Abbreviation call := (list Row * list Row * list F)%type.

(** The end of a run that followed the update rule. *)
Lemma replays_of_played {S} (step : S → list F → exception + S) parameters
    source (s : S) (st st0 st' : state) cur :
  since st st0 [] → since st0 st' cur →
  ∀ r,
    match replay step parameters source cur s with
    | inr s' => ∃ l, r = inr l ∧ heap st' !! l = Some (Tensor (parameters s'))
    | inl e => r = inl e
    end →
    replays step parameters source s st r st'.
Proof.
  intros [_ L0] [_ L1] r Hr. exists cur. split; [|done].
  by rewrite L1, L0, app_nil_r.
Qed.

Lemma replays_mini_batch (st : state) X y p source lr epochs bs bf n v
    b iterations :
  dataset X y n st →
  heap st !! p = Some (Tensor v) →
  (calculate_batch_size_and_iteration (default (PyInt 42) bs) bf X st).1
    = inr (b, iterations) →
  wp (mini_batch_gradient_descent.optimize X y p source lr epochs bs bf) st
    (replays (descent_step (default (decimal 1 100) lr)) (λ w, w) source v st).
Proof.
  intros Hd Hp Hplan.
  unfold mini_batch_gradient_descent.optimize. cbv beta iota zeta.
  apply wp_bind, wp_ret. apply wp_bind, wp_planner. rewrite Hplan.
  cbv beta iota zeta.
  set (rate := default (decimal 1 100) lr).
  apply wp_bind.
  apply (wp_replay_loop (descent_step rate) (λ w, w) source
           (λ u w st', dataset u.1.1 u.1.2 n st' ∧
                       heap st' !! u.2 = Some (Tensor w)) _ _ _ v).
  - intros _ [[X1 y1] c] w st1 Q1 [Hd1 Hc1] HQ1. simpl in Hd1, Hc1.
    eapply wp_bind_shuffled_ext; [done|]. intros X2 y2 st2 E2 S2 Hd2.
    apply wp_bind.
    apply (wp_replay_loop (descent_step rate) (λ w, w) source
             (λ c' w' st', dataset X2 y2 n st' ∧
                           heap st' !! c' = Some (Tensor w')) _ _ _ w).
    + intros idx c' w' st3 Q3 [Hd3 Hc3] HQ3.
      destruct Hd3 as (xs & ys & HX & Hy & Hlx & Hly).
      eapply wp_bind_batch_gradient_ext; [done..|]. intros st4 E4 S4.
      apply wp_bind_load with w'; [by apply E4|].
      apply wp_bind_lift.
      match goal with |- match ?r with _ => _ end => destruct r as [e|w''] eqn:Hstep end.
      * specialize (HQ3 st4 _ S4). simpl in HQ3. unfold descent_step in HQ3.
        by rewrite Hstep in HQ3.
      * apply wp_new_ext. intros l st5 E5 S5 _ Hl.
        specialize (HQ3 st5 _ (since_quiet _ _ _ _ S4 S5)). simpl in HQ3.
        unfold descent_step in HQ3. rewrite Hstep in HQ3. apply HQ3.
        split; [|done]. eapply dataset_since; [exact (since_quiet _ _ _ _ S4 S5)|].
        by exists xs, ys.
    + split; [done | by apply E2].
    + intros st3 cur Hs3.
      specialize (HQ1 st3 cur (since_trans _ _ _ _ _ S2 Hs3)).
      destruct (replay _ _ _ cur w) as [e|w']; [done|].
      intros c' [Hd' Hc']. apply wp_ret. by apply HQ1.
  - by split.
  - intros st' cur Hs'.
    destruct (replay _ _ _ cur v) as [e|w'] eqn:Hr.
    + eapply (replays_of_played _ _ _ v st st); [apply since_refl | done |].
      by rewrite Hr.
    + intros [[X1 y1] c] [_ Hc]. apply wp_ret.
      eapply (replays_of_played _ _ _ v st st); [apply since_refl | done |].
      rewrite Hr. by exists c.
Qed.

Lemma replays_momentum (st : state) X y p source lr decay epochs bs bf n v
    b iterations :
  dataset X y n st →
  heap st !! p = Some (Tensor v) →
  (calculate_batch_size_and_iteration (default (PyInt 1) bs) bf X st).1
    = inr (b, iterations) →
  wp (mini_batch_gradient_descent_with_momentum.optimize
        X y p source lr decay epochs bs bf) st
    (replays (momentum_step (default (decimal 1 100) lr)
                (default (decimal 9 10) decay)) fst source
       (v, zeros_like v) st).
Proof.
  intros Hd Hp Hplan.
  unfold mini_batch_gradient_descent_with_momentum.optimize,
    mini_batch_gradient_descent_with_momentum.locals.
  cbv beta iota zeta.
  apply wp_bind. apply wp_bind, wp_ret. apply wp_bind, wp_planner.
  rewrite Hplan. cbv beta iota zeta.
  set (rate := default (decimal 1 100) lr).
  set (beta := default (decimal 9 10) decay).
  eapply wp_bind_new_zeros_like_ext; [done|]. intros m0 st0 E0 S0 _ Hm0.
  apply (wp_replay_loop (momentum_step rate beta) fst source
           (λ u s st', dataset u.1.1.1 u.1.1.2 n st' ∧
                       heap st' !! u.1.2 = Some (Tensor s.1) ∧
                       heap st' !! u.2 = Some (Tensor s.2))
           _ _ _ (v, zeros_like v)).
  - intros _ [[[X1 y1] c] m] [w mv] st1 Q1 (Hd1 & Hc1 & Hm1) HQ1.
    simpl in Hd1, Hc1, Hm1.
    eapply wp_bind_shuffled_ext; [done|]. intros X2 y2 st2 E2 S2 Hd2.
    apply wp_bind.
    apply (wp_replay_loop (momentum_step rate beta) fst source
             (λ u s st', dataset X2 y2 n st' ∧
                         heap st' !! u.1 = Some (Tensor s.1) ∧
                         heap st' !! u.2 = Some (Tensor s.2))
             _ _ (c, m) (w, mv)).
    + intros idx [c' m'] [w' mv'] st3 Q3 (Hd3 & Hc3 & Hm3) HQ3.
      simpl in Hc3, Hm3.
      destruct Hd3 as (xs & ys & HX & Hy & Hlx & Hly).
      eapply wp_bind_batch_gradient_ext; [done..|]. intros st4 E4 S4.
      apply wp_bind_load with mv'; [by apply E4|].
      lift_cases Hv; [step_fails HQ3 st4 S4|].
      apply wp_bind_new_ext. intros m1 st5 E5 S5 _ Hm5.
      pose proof (since_quiet _ _ _ _ S4 S5) as S45.
      apply wp_bind_load with w'; [by apply E5, E4|].
      apply wp_bind_load with l; [done|].
      lift_cases Hw; [step_fails HQ3 st5 S45|].
      apply wp_bind_new_ext. intros c1 st6 E6 S6 _ Hc6.
      pose proof (since_quiet _ _ _ _ S45 S6) as S46.
      apply wp_ret. step_done HQ3 st6 S46. simpl.
      split; [|split; [done | by apply E6]].
      eapply dataset_since; [exact S46|]. by exists xs, ys.
    + simpl. split; [done|]. split; by apply E2.
    + intros st3 cur Hs3.
      specialize (HQ1 st3 cur (since_trans _ _ _ _ _ S2 Hs3)).
      destruct (replay _ _ _ cur (w, mv)) as [e|s']; [done|].
      intros [c' m'] (Hd' & Hc' & Hm'). apply wp_ret. by apply HQ1.
  - simpl. split; [by eapply dataset_since|]. split; [by apply E0 | done].
  - intros st' cur Hs'.
    destruct (replay _ _ _ cur (v, zeros_like v)) as [e|s'] eqn:Hr.
    + eapply (replays_of_played _ _ _ _ st st0); [done | done |].
      by rewrite Hr.
    + intros [[[X1 y1] c] m] (_ & Hc & _). apply wp_ret.
      eapply (replays_of_played _ _ _ _ st st0); [done | done |].
      rewrite Hr. by exists c.
Qed.

Lemma replays_adagrad (st : state) X y p source lr epochs bs bf eps n v
    b iterations :
  dataset X y n st →
  heap st !! p = Some (Tensor v) →
  (calculate_batch_size_and_iteration (default (PyInt 1) bs) bf X st).1
    = inr (b, iterations) →
  wp (adagrad.optimize X y p source lr epochs bs bf eps) st
    (replays (adagrad_step (default (decimal 1 100) lr)
                (default (decimal 1 100000000) eps)) fst source
       (v, zeros_like v) st).
Proof.
  intros Hd Hp Hplan.
  unfold adagrad.optimize. cbv beta iota zeta.
  apply wp_bind, wp_ret. apply wp_bind, wp_planner.
  rewrite Hplan. cbv beta iota zeta.
  set (rate := default (decimal 1 100) lr).
  set (epsilon := default (decimal 1 100000000) eps).
  eapply wp_bind_new_zeros_like_ext; [done|]. intros a st0 E0 S0 Hfresh Ha0.
  assert (p ≠ a) as Hpa.
  { intros ->. by pose proof (eq_trans (eq_sym Hp) Hfresh). }
  apply wp_bind.
  apply (wp_replay_loop (adagrad_step rate epsilon) fst source
           (λ u s st', dataset u.1.1 u.1.2 n st' ∧
                       heap st' !! u.2 = Some (Tensor s.1) ∧
                       heap st' !! a = Some (Tensor s.2) ∧ u.2 ≠ a)
           _ _ _ (v, zeros_like v)).
  - intros _ [[X1 y1] c] [w sv] st1 Q1 (Hd1 & Hc1 & Ha1 & Hca) HQ1.
    simpl in Hd1, Hc1, Ha1, Hca.
    eapply wp_bind_shuffled_ext; [done|]. intros X2 y2 st2 E2 S2 Hd2.
    apply wp_bind.
    apply (wp_replay_loop (adagrad_step rate epsilon) fst source
             (λ c' s st', dataset X2 y2 n st' ∧
                          heap st' !! c' = Some (Tensor s.1) ∧
                          heap st' !! a = Some (Tensor s.2) ∧ c' ≠ a)
             _ _ c (w, sv)).
    + intros idx c' [w' sv'] st3 Q3 (Hd3 & Hc3 & Ha3 & Hca3) HQ3.
      simpl in Hc3, Ha3.
      destruct Hd3 as (xs & ys & HX & Hy & Hlx & Hly).
      eapply wp_bind_batch_gradient_ext; [done..|]. intros st4 E4 S4.
      apply wp_bind_load with sv'; [by apply E4|].
      lift_cases Hs; [step_fails HQ3 st4 S4|].
      eapply wp_bind_store_ext; [by apply E4|]. intros st5 S5 Ha5 Hkept.
      pose proof (since_quiet _ _ _ _ S4 S5) as S45.
      apply wp_bind_load with w'; [by apply Hkept, E4|].
      apply wp_bind_load with l; [done|].
      lift_cases Hstep; [step_fails HQ3 st5 S45|].
      lift_cases Hw; [step_fails HQ3 st5 S45|].
      apply wp_new_ext. intros c1 st6 E6 S6 Hc5 Hc6.
      pose proof (since_quiet _ _ _ _ S45 S6) as S46.
      step_done HQ3 st6 S46. simpl.
      split; [|split; [done|split; [by apply E6|]]].
      * eapply dataset_since; [exact S46|]. by exists xs, ys.
      * intros ->. by pose proof (eq_trans (eq_sym Ha5) Hc5).
    + simpl. split; [done|]. split; [by apply E2|]. split; [by apply E2 | done].
    + intros st3 cur Hs3.
      specialize (HQ1 st3 cur (since_trans _ _ _ _ _ S2 Hs3)).
      destruct (replay _ _ _ cur (w, sv)) as [e|s']; [done|].
      intros c' (Hd' & Hc' & Ha' & Hca'). apply wp_ret. by apply HQ1.
  - simpl. split; [by eapply dataset_since|]. split; [by apply E0 | done].
  - intros st' cur Hs'.
    destruct (replay _ _ _ cur (v, zeros_like v)) as [e|s'] eqn:Hr.
    + eapply (replays_of_played _ _ _ _ st st0); [done | done |].
      by rewrite Hr.
    + intros [[X1 y1] c] (_ & Hc & _). apply wp_ret.
      eapply (replays_of_played _ _ _ _ st st0); [done | done |].
      rewrite Hr. by exists c.
Qed.

Lemma replays_rmsprop (st : state) X y p source lr decay epochs bs bf eps n v
    b iterations :
  dataset X y n st →
  heap st !! p = Some (Tensor v) →
  (calculate_batch_size_and_iteration (default (PyInt 1) bs) bf X st).1
    = inr (b, iterations) →
  wp (rmsprop.optimize X y p source lr decay epochs bs bf eps) st
    (replays (rmsprop_step (default (decimal 1 100) lr)
                (default (decimal 99 100) decay)
                (default (decimal 1 100000000) eps)) fst source
       (v, zeros_like v) st).
Proof.
  intros Hd Hp Hplan.
  unfold rmsprop.optimize. cbv beta iota zeta.
  apply wp_bind, wp_ret. apply wp_bind, wp_planner.
  rewrite Hplan. cbv beta iota zeta.
  set (rate := default (decimal 1 100) lr).
  set (rho := default (decimal 99 100) decay).
  set (epsilon := default (decimal 1 100000000) eps).
  eapply wp_bind_new_zeros_like_ext; [done|]. intros a0 st0 E0 S0 _ Ha0.
  apply wp_bind.
  apply (wp_replay_loop (rmsprop_step rate rho epsilon) fst source
           (λ u s st', dataset u.1.1.1 u.1.1.2 n st' ∧
                       heap st' !! u.1.2 = Some (Tensor s.1) ∧
                       heap st' !! u.2 = Some (Tensor s.2))
           _ _ _ (v, zeros_like v)).
  - intros _ [[[X1 y1] c] a] [w sv] st1 Q1 (Hd1 & Hc1 & Ha1) HQ1.
    simpl in Hd1, Hc1, Ha1.
    eapply wp_bind_shuffled_ext; [done|]. intros X2 y2 st2 E2 S2 Hd2.
    apply wp_bind.
    apply (wp_replay_loop (rmsprop_step rate rho epsilon) fst source
             (λ u s st', dataset X2 y2 n st' ∧
                         heap st' !! u.1 = Some (Tensor s.1) ∧
                         heap st' !! u.2 = Some (Tensor s.2))
             _ _ (c, a) (w, sv)).
    + intros idx [c' a'] [w' sv'] st3 Q3 (Hd3 & Hc3 & Ha3) HQ3.
      simpl in Hc3, Ha3.
      destruct Hd3 as (xs & ys & HX & Hy & Hlx & Hly).
      eapply wp_bind_batch_gradient_ext; [done..|]. intros st4 E4 S4.
      apply wp_bind_load with sv'; [by apply E4|].
      lift_cases Hs; [step_fails HQ3 st4 S4|].
      apply wp_bind_new_ext. intros a1 st5 E5 S5 _ Ha5.
      pose proof (since_quiet _ _ _ _ S4 S5) as S45.
      apply wp_bind_load with w'; [by apply E5, E4|].
      apply wp_bind_load with l; [done|].
      lift_cases Hstep; [step_fails HQ3 st5 S45|].
      lift_cases Hw; [step_fails HQ3 st5 S45|].
      apply wp_bind_new_ext. intros c1 st6 E6 S6 _ Hc6.
      pose proof (since_quiet _ _ _ _ S45 S6) as S46.
      apply wp_ret. step_done HQ3 st6 S46. simpl.
      split; [|split; [done | by apply E6]].
      eapply dataset_since; [exact S46|]. by exists xs, ys.
    + simpl. split; [done|]. split; by apply E2.
    + intros st3 cur Hs3.
      specialize (HQ1 st3 cur (since_trans _ _ _ _ _ S2 Hs3)).
      destruct (replay _ _ _ cur (w, sv)) as [e|s']; [done|].
      intros [c' a'] (Hd' & Hc' & Ha'). apply wp_ret. by apply HQ1.
  - simpl. split; [by eapply dataset_since|]. split; [by apply E0 | done].
  - intros st' cur Hs'.
    destruct (replay _ _ _ cur (v, zeros_like v)) as [e|s'] eqn:Hr.
    + eapply (replays_of_played _ _ _ _ st st0); [done | done |].
      by rewrite Hr.
    + intros [[[X1 y1] c] a] (_ & Hc & _). apply wp_ret.
      eapply (replays_of_played _ _ _ _ st st0); [done | done |].
      rewrite Hr. by exists c.
Qed.

Lemma replays_adam (st : state) X y p net flag lr d1 d2 epochs bs bf eps xs ys v
    b iterations :
  heap st !! X = Some (Rows xs) → heap st !! y = Some (Rows ys) →
  heap st !! p = Some (Tensor v) →
  (calculate_batch_size_and_iteration (default (PyInt 10) bs) bf X st).1
    = inr (b, iterations) →
  wp (adam.optimize X y p net flag lr d1 d2 epochs bs bf eps) st
    (replays (adam_step (default (decimal 1 100) lr)
                (default (decimal 9 10) d1) (default (decimal 99 100) d2)
                (default (decimal 1 100000000) eps))
       (λ s, s.1.1.1)
       (λ X_selected y_selected solution,
          net X_selected y_selected solution flag)
       (v, zeros_like v, zeros_like v, 0) st).
Proof.
  intros HX Hy Hp Hplan.
  unfold adam.optimize. cbv beta iota zeta.
  apply wp_bind, wp_ret. apply wp_bind, wp_planner.
  rewrite Hplan. cbv beta iota zeta.
  set (rate := default (decimal 1 100) lr).
  set (beta1 := default (decimal 9 10) d1).
  set (beta2 := default (decimal 99 100) d2).
  set (epsilon := default (decimal 1 100000000) eps).
  eapply wp_bind_new_zeros_like_ext; [done|]. intros m0 st0 E0 S0 _ Hm0.
  eapply wp_bind_new_zeros_like_ext; [by apply E0|]. intros a0 st0' E0' S0' _ Ha0.
  pose proof (since_quiet _ _ _ _ S0 S0') as S00.
  apply wp_bind.
  set (inv := λ (u : loc * loc * loc * nat)
                (s : list F * list F * list F * nat) (st' : state),
                (heap st' !! X = Some (Rows xs) ∧
                 heap st' !! y = Some (Rows ys)) ∧
                heap st' !! u.1.1.1 = Some (Tensor s.1.1.1) ∧
                heap st' !! u.1.1.2 = Some (Tensor s.1.1.2) ∧
                heap st' !! u.1.2 = Some (Tensor s.1.2) ∧
                u.2 = s.2).
  apply (wp_replay_loop (adam_step rate beta1 beta2 epsilon) (λ s, s.1.1.1)
           (λ X_selected y_selected solution,
              net X_selected y_selected solution flag)
           inv _ _ _ (v, zeros_like v, zeros_like v, 0)).
  - intros _ [[[c m] a] k] [[[w mv] sv] t] st1 Q1
      ([HX1 Hy1] & Hc1 & Hm1 & Ha1 & Hk1) HQ1.
    simpl in Hc1, Hm1, Ha1, Hk1.
    apply wp_bind. eapply wp_shape0; [done|].
    apply wp_bind_permutation_ext. intros idx st2 E2 S2.
    apply (wp_replay_loop (adam_step rate beta1 beta2 epsilon) (λ s, s.1.1.1)
             (λ X_selected y_selected solution,
                net X_selected y_selected solution flag)
             inv _ _ (c, m, a, k) (w, mv, sv, t)).
    + intros i [[[c' m'] a'] k'] [[[w' mv'] sv'] t'] st3 Q3
        ([HX3 Hy3] & Hc3 & Hm3 & Ha3 & Hk3) HQ3.
      simpl in Hc3, Hm3, Ha3, Hk3. subst k'.
      eapply (wp_bind_batch_gradient_ext
                (λ X_selected y_selected solution,
                   net X_selected y_selected solution flag)); [done..|].
      intros st4 E4 S4.
      apply wp_bind_load with mv'; [by apply E4|].
      lift_cases Hm; [step_fails HQ3 st4 S4|].
      apply wp_bind_new_ext. intros m1 st5 E5 S5 _ Hm5.
      pose proof (since_quiet _ _ _ _ S4 S5) as S45.
      apply wp_bind_load with sv'; [by apply E5, E4|].
      lift_cases Hs; [step_fails HQ3 st5 S45|].
      apply wp_bind_new_ext. intros a1 st6 E6 S6 _ Ha6.
      pose proof (since_quiet _ _ _ _ S45 S6) as S46.
      apply wp_bind_load with l; [by apply E6|].
      apply wp_bind_load with l0; [done|].
      apply wp_bind_load with w'; [by apply E6, E5, E4|].
      lift_cases Hstep; [step_fails HQ3 st6 S46|].
      lift_cases Hw; [step_fails HQ3 st6 S46|].
      apply wp_bind_new_ext. intros c1 st7 E7 S7 _ Hc7.
      pose proof (since_quiet _ _ _ _ S46 S7) as S47.
      apply wp_ret. step_done HQ3 st7 S47. unfold inv. simpl.
      split; [split; by apply S47|].
      split; [done|]. split; [by apply E7, E6|]. split; [by apply E7 | done].
    + unfold inv. simpl.
      split; [split; by apply E2|].
      split; [by apply E2|]. split; [by apply E2|]. split; [by apply E2 | done].
    + intros st3 cur Hs3.
      specialize (HQ1 st3 cur (since_trans _ _ _ _ _ S2 Hs3)).
      by destruct (replay _ _ _ cur (w, mv, sv, t)) as [e|s'].
  - unfold inv. simpl.
    split; [split; by apply E0', E0|].
    split; [by apply E0', E0|]. split; [by apply E0'|]. by split.
  - intros st' cur Hs'.
    destruct (replay _ _ _ cur (v, zeros_like v, zeros_like v, 0))
      as [e|s'] eqn:Hr.
    + eapply (replays_of_played _ _ _ _ st st0'); [done | done |].
      by rewrite Hr.
    + intros [[[c m] a] k] (_ & Hc & _). apply wp_ret.
      eapply (replays_of_played _ _ _ _ st st0'); [done | done |].
      rewrite Hr. by exists c.
Qed.
End replays_of_the_optimizers.

(** ** The update rules at a stationary point, over the real numbers *)

Section stationary_rules.
Open Scope R_scope.
Implicit Types v : list R.

Lemma zip_with_maps {A B C D} (f : B → C → D) (g : A → B) (h : A → C)
    (l : list A) :
  zip_with f (map g l) (map h l) = map (λ x, f (g x) (h x)) l.
Proof. induction l as [|x l IH]; simpl; [done | by rewrite IH]. Qed.

Lemma zip_with_map_r_same {A C D} (f : A → C → D) (h : A → C) (l : list A) :
  zip_with f l (map h l) = map (λ x, f x (h x)) l.
Proof. induction l as [|x l IH]; simpl; [done | by rewrite IH]. Qed.

Lemma map_id_ext {A} (f : A → A) (l : list A) :
  (∀ x, f x = x) → map f l = l.
Proof. intros Hf. induction l as [|x l IH]; simpl; [done | by rewrite Hf, IH]. Qed.

Lemma R_zeros v : zeros_like v = map (λ _, 0) v.
Proof. done. Qed.

Lemma R_scale_zeros c v : scale c (zeros_like v) = zeros_like v.
Proof.
  unfold scale, zeros_like. rewrite map_map. apply map_ext. intros _. simpl. lra.
Qed.

Lemma R_square_zeros v : square (zeros_like v) = zeros_like v.
Proof.
  unfold square, zeros_like. rewrite map_map. apply map_ext. intros _. simpl. lra.
Qed.

Lemma R_sub_zeros v : np_sub v (zeros_like v) = inr v.
Proof.
  unfold np_sub. rewrite R_broadcast_same by (by rewrite length_zeros_like).
  f_equal. unfold zeros_like. rewrite zip_with_map_r_same.
  apply map_id_ext. intros x. simpl. lra.
Qed.

Lemma R_add_zeros v : np_add v (zeros_like v) = inr v.
Proof.
  unfold np_add. rewrite R_broadcast_same by (by rewrite length_zeros_like).
  f_equal. unfold zeros_like. rewrite zip_with_map_r_same.
  apply map_id_ext. intros x. simpl. lra.
Qed.

Lemma R_sub_zeros_zeros v :
  np_sub (zeros_like v) (zeros_like v) = inr (zeros_like v).
Proof.
  unfold np_sub. rewrite R_broadcast_same by done.
  f_equal. unfold zeros_like. rewrite zip_with_maps.
  apply map_ext. intros _. simpl. lra.
Qed.

Lemma R_iadd_zeros v : np_iadd (zeros_like v) (zeros_like v) = inr (zeros_like v).
Proof.
  unfold np_iadd. rewrite decide_True by done.
  f_equal. unfold zeros_like. rewrite zip_with_maps.
  apply map_ext. intros _. simpl. lra.
Qed.

Lemma R_moving_average_zeros decay v :
  moving_average decay (zeros_like v) (zeros_like v) = inr (zeros_like v).
Proof.
  unfold moving_average, np_add. rewrite !R_scale_zeros.
  rewrite R_broadcast_same by done.
  f_equal. unfold zeros_like. rewrite zip_with_maps.
  apply map_ext. intros _. simpl. lra.
Qed.

Lemma R_scaled_step_zeros learning_rate epsilon v :
  scaled_step learning_rate epsilon (zeros_like v) (zeros_like v)
  = inr (zeros_like v).
Proof.
  unfold scaled_step, np_div. rewrite R_scale_zeros.
  rewrite R_broadcast_same
    by (unfold add_scalar, np_sqrt; by rewrite !length_map).
  f_equal. unfold add_scalar, np_sqrt, zeros_like. rewrite !map_map.
  rewrite zip_with_maps. apply map_ext. intros _. simpl. unfold Rdiv. lra.
Qed.

Lemma R_bias_correction_zeros decay counter v :
  adam.bias_correction decay counter (zeros_like v) = zeros_like v.
Proof.
  unfold adam.bias_correction, divide_by, zeros_like. rewrite map_map.
  apply map_ext. intros _. simpl. unfold Rdiv. lra.
Qed.

Lemma descent_step_stationary learning_rate v :
  descent_step learning_rate v (zeros_like v) = inr v.
Proof. unfold descent_step. by rewrite R_scale_zeros, R_sub_zeros. Qed.

Lemma momentum_step_stationary learning_rate decay v :
  momentum_step learning_rate decay (v, zeros_like v) (zeros_like v)
  = inr (v, zeros_like v).
Proof.
  unfold momentum_step. rewrite !R_scale_zeros, R_sub_zeros_zeros. simpl.
  by rewrite R_add_zeros.
Qed.

Lemma adagrad_step_stationary learning_rate epsilon v :
  adagrad_step learning_rate epsilon (v, zeros_like v) (zeros_like v)
  = inr (v, zeros_like v).
Proof.
  unfold adagrad_step. rewrite R_square_zeros, R_iadd_zeros. simpl.
  rewrite R_scaled_step_zeros. simpl. by rewrite R_sub_zeros.
Qed.

Lemma rmsprop_step_stationary learning_rate decay epsilon v :
  rmsprop_step learning_rate decay epsilon (v, zeros_like v) (zeros_like v)
  = inr (v, zeros_like v).
Proof.
  unfold rmsprop_step. rewrite R_square_zeros, R_moving_average_zeros. simpl.
  rewrite R_scaled_step_zeros. simpl. by rewrite R_sub_zeros.
Qed.

Lemma adam_step_stationary learning_rate decay1 decay2 epsilon v counter :
  adam_step learning_rate decay1 decay2 epsilon
    (v, zeros_like v, zeros_like v, counter) (zeros_like v)
  = inr (v, zeros_like v, zeros_like v, S counter).
Proof.
  unfold adam_step. rewrite R_moving_average_zeros. simpl.
  rewrite R_square_zeros, R_moving_average_zeros. simpl.
  rewrite !R_bias_correction_zeros, R_scaled_step_zeros. simpl.
  by rewrite R_sub_zeros.
Qed.

Context {Row : Type}.
Implicit Types calls : list (list Row * list Row * list R).

(** Along any calls, a rule that stays where it is when the gradient is
    zero stays where it started. *)
Lemma replay_stationary {S} (step : S → list R → exception + S) parameters
    (source : list Row → list Row → list R → list R) (J : S → Prop) v calls s :
  (∀ X_selected y_selected, source X_selected y_selected v = zeros_like v) →
  (∀ s, J s → parameters s = v ∧
              ∃ s', step s (zeros_like v) = inr s' ∧ J s') →
  J s →
  ∃ s', replay step parameters source calls s = inr s' ∧ parameters s' = v.
Proof.
  intros Hsource Hstep. revert s.
  induction calls as [|c calls IH]; intros s Hs; simpl.
  - exists s. split; [done|]. by apply Hstep.
  - destruct (Hstep s Hs) as (-> & s' & Hs' & HJ').
    rewrite Hsource, Hs'. by apply IH.
Qed.
End stationary_rules.

Section replays_of_optimize.
Context {F Row Rng : Type} `{Scalar F} `{RandomSource Rng}.

Lemma returned_of_replays {S} (step : S → list F → exception + S) parameters
    source (s : S) (st : state F Row Rng) run v :
  replays step parameters source s st run.1 run.2 →
  (∀ calls, ∃ s', replay step parameters source calls s = inr s' ∧
                  parameters s' = v) →
  returned run = Some v.
Proof.
  intros (calls & _ & Hr) Hv. destruct (Hv calls) as (s' & Hs' & <-).
  rewrite Hs' in Hr. destruct Hr as (l & Hl & Hheap).
  unfold returned. by rewrite Hl, Hheap.
Qed.
End replays_of_optimize.

Section stationary_runs.
Context {Row Rng : Type} `{RandomSource Rng}.
Open Scope R_scope.

Lemma stationary_optimize a X y p source kw (st : state R Row Rng) xs ys v
    batch_size b iterations :
  heap st !! X = Some (Rows xs) →
  heap st !! y = Some (Rows ys) →
  length ys = length xs →
  heap st !! p = Some (Tensor v) →
  kw_batch_size kw = Some batch_size →
  (calculate_batch_size_and_iteration batch_size (kw_batch_fraction kw) X st).1
    = inr (b, iterations) →
  (∀ X_selected y_selected, source X_selected y_selected v = zeros_like v) →
  returned (optimize a X y p source kw st) = Some v.
Proof.
  intros HX Hy Hlen Hp Hbs Hplan Hsource.
  assert (dataset X y (length xs) st) as Hd by (by exists xs, ys).
  destruct a; simpl; rewrite Hbs.
  - eapply returned_of_replays; [by eapply replays_mini_batch|].
    intros calls.
    apply (replay_stationary _ _ _ (λ w, w = v)); [done | | done].
    intros w ->. split; [done|]. eexists. split; [|done].
    apply descent_step_stationary.
  - eapply returned_of_replays; [by eapply replays_momentum|].
    intros calls.
    apply (replay_stationary _ _ _ (λ s, s = (v, zeros_like v))); [done | | done].
    intros s ->. split; [done|]. eexists. split; [|done].
    apply momentum_step_stationary.
  - eapply returned_of_replays; [by eapply replays_adagrad|].
    intros calls.
    apply (replay_stationary _ _ _ (λ s, s = (v, zeros_like v))); [done | | done].
    intros s ->. split; [done|]. eexists. split; [|done].
    apply adagrad_step_stationary.
  - eapply returned_of_replays; [by eapply replays_rmsprop|].
    intros calls.
    apply (replay_stationary _ _ _ (λ s, s = (v, zeros_like v))); [done | | done].
    intros s ->. split; [done|]. eexists. split; [|done].
    apply rmsprop_step_stationary.
  - eapply returned_of_replays; [by eapply replays_adam|].
    intros calls.
    apply (replay_stationary _ _ _
             (λ s, ∃ t, s = (v, zeros_like v, zeros_like v, t)));
      [done | | by exists 0%nat].
    intros s [t ->]. split; [done|]. eexists. split; [|by eexists].
    apply adam_step_stationary.
Qed.
End stationary_runs.

(** ** How far [adagrad] moves a parameter *)

Section adagrad_bound.
Open Scope R_scope.

(** One parameter: with the square of the gradient in the accumulator, the
    step is smaller than the learning rate. *)
Lemma adagrad_step_magnitude (learning_rate epsilon x a : R) :
  0 < epsilon → 0 <= a →
  Rabs (learning_rate * x / (R_sqrt.sqrt (a + x * x) + epsilon))
  <= Rabs learning_rate.
Proof.
  intros He Ha.
  assert (Rabs x <= R_sqrt.sqrt (a + x * x)) as Hx.
  { rewrite <-sqrt_Rsqr_abs. apply sqrt_le_1_alt. unfold Rsqr. lra. }
  assert (0 <= Rabs x) as Hx0 by apply Rabs_pos.
  assert (0 < R_sqrt.sqrt (a + x * x) + epsilon) as Hd by lra.
  unfold Rdiv. rewrite !Rabs_mult, Rabs_inv, (Rabs_pos_eq (_ + _)) by lra.
  rewrite Rmult_assoc.
  rewrite <-(Rmult_1_r (Rabs learning_rate)) at 2.
  apply Rmult_le_compat_l; [apply Rabs_pos|].
  apply (Rmult_le_reg_r (R_sqrt.sqrt (a + x * x) + epsilon)); [done|].
  rewrite Rmult_assoc, Rinv_l by lra. lra.
Qed.

Lemma adagrad_step_moves (learning_rate epsilon : R) (w s g : list R) :
  0 < epsilon →
  length s = length w → length g = length w →
  Forall (λ a, 0 <= a) s →
  ∃ w' s',
    adagrad_step learning_rate epsilon (w, s) g = inr (w', s') ∧
    length w' = length w ∧ length s' = length w ∧
    Forall (λ a, 0 <= a) s' ∧
    Forall2 (λ a b, Rabs (b - a) <= Rabs learning_rate) w w'.
Proof.
  intros He Hs Hg Hpos. unfold adagrad_step.
  rewrite R_np_iadd_square by congruence. simpl.
  rewrite R_scaled_step by (rewrite length_zip_with; lia). simpl.
  unfold np_sub. rewrite R_broadcast_same
    by (rewrite !length_zip_with; lia).
  simpl. eexists _, _. split; [done|].
  split; [rewrite !length_zip_with; lia|].
  split; [rewrite !length_zip_with; lia|].
  split.
  - clear Hg. revert g s Hs Hpos.
    induction w as [|x w IH]; intros g [|a s] Hs Hpos; simplify_eq/=;
      destruct g as [|z g]; simpl; try constructor.
    + apply Forall_cons in Hpos as [Ha _]. nra.
    + apply Forall_cons in Hpos as [_ Hpos]. by apply (IH g s).
  - revert g s Hs Hg Hpos.
    induction w as [|x w IH]; intros [|z g] [|a s] Hs Hg Hpos; simplify_eq/=;
      constructor.
    + apply Forall_cons in Hpos as [Ha _].
      replace (x - learning_rate * z / (R_sqrt.sqrt (a + z * z) + epsilon) - x)
        with (- (learning_rate * z / (R_sqrt.sqrt (a + z * z) + epsilon)))
        by lra.
      rewrite Rabs_Ropp. by apply adagrad_step_magnitude.
    + apply Forall_cons in Hpos as [_ Hpos]. by apply IH.
Qed.

Context {Row : Type}.

Lemma adagrad_replay_moves (learning_rate epsilon : R)
    (source : list Row → list Row → list R → list R) v calls (k : nat) w s :
  0 < epsilon →
  (∀ X_selected y_selected w,
     length w = length v → length (source X_selected y_selected w) = length v) →
  length w = length v → length s = length v →
  Forall (λ a, 0 <= a) s →
  Forall2 (λ a b, Rabs (b - a) <= INR k * Rabs learning_rate) v w →
  ∃ w' s',
    replay (adagrad_step learning_rate epsilon) fst source calls (w, s)
      = inr (w', s') ∧
    Forall2 (λ a b, Rabs (b - a) <= INR (k + length calls) * Rabs learning_rate)
      v w'.
Proof.
  intros He Hsource. revert k w s.
  induction calls as [|c calls IH]; intros k w s Hw Hs Hpos Hv.
  - exists w, s. split; [done|]. by rewrite Nat.add_0_r.
  - change (replay ?step ?par ?src (c :: calls) (w, s))
      with (match step (w, s) (src c.1.1 c.1.2 w) with
            | inr s' => replay step par src calls s'
            | inl e => inl e
            end).
    destruct (adagrad_step_moves learning_rate epsilon w s
                (source c.1.1 c.1.2 w) He)
      as (w' & s' & -> & Hw' & Hs' & Hpos' & Hmove);
      [congruence | by rewrite Hsource | done |].
    destruct (IH (S k) w' s') as (w'' & s'' & -> & Hfinal);
      [congruence | congruence | done | |].
    + rewrite S_INR.
      apply Forall2_same_length_lookup. split; [congruence|].
      intros i a b Ha Hb.
      destruct (Forall2_lookup_l _ _ _ _ _ Hv Ha) as (m & Hm & Ham).
      destruct (Forall2_lookup_l _ _ _ _ _ Hmove Hm) as (b' & Hb' & Hmb).
      simplify_eq.
      replace (b - a) with ((b - m) + (m - a)) by lra.
      eapply Rle_trans; [apply Rabs_triang|]. lra.
    + exists w'', s''. split; [done|]. simpl length.
      by replace (k + S (length calls))%nat with (S k + length calls)%nat by lia.
Qed.
End adagrad_bound.

(** ** The first step of [adam] *)

Section adam_first.
Open Scope R_scope.

Lemma R_moving_average_zero_square (decay : R) (p g : list R) :
  length p = length g →
  moving_average decay (zeros_like p) (square g)
  = inr (map (λ x, decay * 0 + (1 - decay) * (x * x)) g).
Proof.
  intros Hl. rewrite R_moving_average_zero by (by rewrite length_square).
  unfold square. by rewrite map_map.
Qed.

Lemma R_bias_correction_first_square (decay : R) (g : list R) :
  1 - decay ≠ 0 →
  adam.bias_correction decay 1
    (map (λ x, decay * 0 + (1 - decay) * (x * x)) g)
  = map (λ x, x * x) g.
Proof.
  intros Hd. unfold adam.bias_correction, divide_by. rewrite map_map.
  apply map_ext. intros x. simpl. by field.
Qed.

Lemma adam_first_step (learning_rate decay1 decay2 epsilon : R) (v g : list R) :
  length g = length v →
  1 - decay1 ≠ 0 → 1 - decay2 ≠ 0 →
  ∃ momentum squared_gradients,
    adam_step learning_rate decay1 decay2 epsilon
      (v, zeros_like v, zeros_like v, 0%nat) g
    = inr (zip_with (λ a x, a - learning_rate * x / (Rabs x + epsilon)) v g,
           momentum, squared_gradients, 1%nat).
Proof.
  intros Hg Hd1 Hd2. unfold adam_step.
  rewrite R_moving_average_zero by done. simpl.
  rewrite R_moving_average_zero_square by done. simpl.
  rewrite R_bias_correction_first, R_bias_correction_first_square by done.
  rewrite R_scaled_step by (by rewrite length_map). simpl.
  unfold np_sub. rewrite R_broadcast_same
    by (by rewrite length_zip_with, length_map, Nat.min_id).
  simpl. eexists _, _. do 2 f_equal. f_equal. f_equal.
  rewrite zip_with_map_r_same.
  clear Hg. revert g. induction v as [|a v IH]; intros [|x g]; simpl; [done..|].
  f_equal; [|apply IH].
  change (x * x) with (Rsqr x). by rewrite sqrt_Rsqr_abs.
Qed.

Lemma first_step_magnitude (learning_rate epsilon a x : R) :
  0 < learning_rate → 0 < epsilon →
  Rabs (a - learning_rate * x / (Rabs x + epsilon) - a) < learning_rate.
Proof.
  intros Hl He.
  assert (0 <= Rabs x) as Hx by apply Rabs_pos.
  replace (a - learning_rate * x / (Rabs x + epsilon) - a)
    with (- (learning_rate * x / (Rabs x + epsilon))) by lra.
  rewrite Rabs_Ropp. unfold Rdiv.
  rewrite !Rabs_mult, Rabs_inv, (Rabs_pos_eq learning_rate),
    (Rabs_pos_eq (_ + _)) by lra.
  rewrite Rmult_assoc. rewrite <-(Rmult_1_r learning_rate) at 2.
  apply Rmult_lt_compat_l; [done|].
  apply (Rmult_lt_reg_r (Rabs x + epsilon)); [lra|].
  rewrite Rmult_assoc, Rinv_l by lra. lra.
Qed.
End adam_first.

Section rules.
Context {F Row Rng : Type} `{Scalar F} `{RandomSource Rng}.

(** X12. Plain descent computes what its update rule tells, whatever the
    arithmetic: the parameters it returns are those that
    [current_solution - learning_rate * gradient] leads to from the initial
    ones along the calls of the log, the gradient of a call being what the
    source returns for the batch of the call and the parameters of the
    time; and it raises what the rule raises along them. *)
Theorem plain_descent_follows_its_rule X y initial_solution source learning_rate
    max_num_epoch batch_size batch_fraction xs ys v b iterations
    (st : state F Row Rng) :
  heap st !! X = Some (Rows xs) →
  heap st !! y = Some (Rows ys) →
  length ys = length xs →
  heap st !! initial_solution = Some (Tensor v) →
  (calculate_batch_size_and_iteration (default (PyInt 42) batch_size)
     batch_fraction X st).1 = inr (b, iterations) →
  replays (descent_step (default (decimal 1 100) learning_rate)) (λ w, w)
    source v st
    (mini_batch_gradient_descent.optimize X y initial_solution source
       learning_rate max_num_epoch batch_size batch_fraction st).1
    (mini_batch_gradient_descent.optimize X y initial_solution source
       learning_rate max_num_epoch batch_size batch_fraction st).2.
Proof.
  intros HX Hy Hlen Hp Hplan.
  eapply replays_mini_batch; [by exists xs, ys | done..].
Qed.

(** X13. Descent with momentum computes what its update rule tells: from
    the initial parameters and a zero momentum, along the calls of the log,
    [momentum = momentum_decay * momentum - learning_rate * gradient] and
    [current_solution = current_solution + momentum]; the momentum is
    carried from one epoch to the next. *)
Theorem momentum_follows_its_rule X y initial_solution source learning_rate
    momentum_decay max_num_epoch batch_size batch_fraction xs ys v b iterations
    (st : state F Row Rng) :
  heap st !! X = Some (Rows xs) →
  heap st !! y = Some (Rows ys) →
  length ys = length xs →
  heap st !! initial_solution = Some (Tensor v) →
  (calculate_batch_size_and_iteration (default (PyInt 1) batch_size)
     batch_fraction X st).1 = inr (b, iterations) →
  replays (momentum_step (default (decimal 1 100) learning_rate)
             (default (decimal 9 10) momentum_decay)) fst
    source (v, zeros_like v) st
    (mini_batch_gradient_descent_with_momentum.optimize X y initial_solution
       source learning_rate momentum_decay max_num_epoch batch_size
       batch_fraction st).1
    (mini_batch_gradient_descent_with_momentum.optimize X y initial_solution
       source learning_rate momentum_decay max_num_epoch batch_size
       batch_fraction st).2.
Proof.
  intros HX Hy Hlen Hp Hplan.
  eapply replays_momentum; [by exists xs, ys | done..].
Qed.

(** X14. [adagrad] computes what its update rule tells: from the initial
    parameters and a zero accumulator, along the calls of the log, the
    accumulator grows by the square of the gradient and the parameters move
    by [learning_rate * gradient / (sqrt(squared_gradients) + epsilon)]; the
    accumulator, which is updated in place, is never reset between
    epochs. *)
Theorem adagrad_follows_its_rule X y initial_solution source learning_rate
    max_num_epoch batch_size batch_fraction epsilon xs ys v b iterations
    (st : state F Row Rng) :
  heap st !! X = Some (Rows xs) →
  heap st !! y = Some (Rows ys) →
  length ys = length xs →
  heap st !! initial_solution = Some (Tensor v) →
  (calculate_batch_size_and_iteration (default (PyInt 1) batch_size)
     batch_fraction X st).1 = inr (b, iterations) →
  replays (adagrad_step (default (decimal 1 100) learning_rate)
             (default (decimal 1 100000000) epsilon)) fst
    source (v, zeros_like v) st
    (adagrad.optimize X y initial_solution source learning_rate max_num_epoch
       batch_size batch_fraction epsilon st).1
    (adagrad.optimize X y initial_solution source learning_rate max_num_epoch
       batch_size batch_fraction epsilon st).2.
Proof.
  intros HX Hy Hlen Hp Hplan.
  eapply replays_adagrad; [by exists xs, ys | done..].
Qed.

(** X15. [rmsprop] computes what its update rule tells: from the initial
    parameters and a zero average, along the calls of the log, the moving
    average of the squared gradients and the step scaled by its square
    root. *)
Theorem rmsprop_follows_its_rule X y initial_solution source learning_rate
    squared_gradient_decay max_num_epoch batch_size batch_fraction epsilon
    xs ys v b iterations (st : state F Row Rng) :
  heap st !! X = Some (Rows xs) →
  heap st !! y = Some (Rows ys) →
  length ys = length xs →
  heap st !! initial_solution = Some (Tensor v) →
  (calculate_batch_size_and_iteration (default (PyInt 1) batch_size)
     batch_fraction X st).1 = inr (b, iterations) →
  replays (rmsprop_step (default (decimal 1 100) learning_rate)
             (default (decimal 99 100) squared_gradient_decay)
             (default (decimal 1 100000000) epsilon)) fst
    source (v, zeros_like v) st
    (rmsprop.optimize X y initial_solution source learning_rate
       squared_gradient_decay max_num_epoch batch_size batch_fraction
       epsilon st).1
    (rmsprop.optimize X y initial_solution source learning_rate
       squared_gradient_decay max_num_epoch batch_size batch_fraction
       epsilon st).2.
Proof.
  intros HX Hy Hlen Hp Hplan.
  eapply replays_rmsprop; [by exists xs, ys | done..].
Qed.

(** X16. [adam] computes what its update rule tells: from the initial
    parameters, two zero averages and the counter 0, along the calls of the
    log, the two moving averages, their bias correction by
    [1 - decay ** counter] and the scaled step; the counter counts the calls
    of the whole run, not those of an epoch. *)
Theorem adam_follows_its_rule X y initial_solution neural_network
    using_backpropagation learning_rate momentum_decay squared_gradient_decay
    max_num_epoch batch_size batch_fraction epsilon xs ys v b iterations
    (st : state F Row Rng) :
  heap st !! X = Some (Rows xs) →
  heap st !! y = Some (Rows ys) →
  heap st !! initial_solution = Some (Tensor v) →
  (calculate_batch_size_and_iteration (default (PyInt 10) batch_size)
     batch_fraction X st).1 = inr (b, iterations) →
  replays (adam_step (default (decimal 1 100) learning_rate)
             (default (decimal 9 10) momentum_decay)
             (default (decimal 99 100) squared_gradient_decay)
             (default (decimal 1 100000000) epsilon))
    (λ s, s.1.1.1)
    (λ X_selected y_selected solution,
       neural_network X_selected y_selected solution using_backpropagation)
    (v, zeros_like v, zeros_like v, 0) st
    (adam.optimize X y initial_solution neural_network using_backpropagation
       learning_rate momentum_decay squared_gradient_decay max_num_epoch
       batch_size batch_fraction epsilon st).1
    (adam.optimize X y initial_solution neural_network using_backpropagation
       learning_rate momentum_decay squared_gradient_decay max_num_epoch
       batch_size batch_fraction epsilon st).2.
Proof. intros HX Hy Hp Hplan. by eapply replays_adam. Qed.
End rules.

Lemma plain_descent_follows_its_rule_witness :
  replays (descent_step (default (decimal 1 100) (Some (decimal 1 10))))
    (λ w, w) first_feature [0%float] (three_samples [1])
    (mini_batch_gradient_descent.optimize 0 1 2 first_feature
       (Some (decimal 1 10)) (Some 1%Z) (Some (PyInt 2)) None
       (three_samples [1])).1
    (mini_batch_gradient_descent.optimize 0 1 2 first_feature
       (Some (decimal 1 10)) (Some 1%Z) (Some (PyInt 2)) None
       (three_samples [1])).2.
Proof.
  apply (plain_descent_follows_its_rule 0 1 2 first_feature
           (Some (decimal 1 10)) (Some 1%Z) (Some (PyInt 2)) None
           [[1%float]; [2%float]; [3%float]] [[1%float]; [2%float]; [3%float]]
           [0%float] 2 1 (three_samples [1])).
  - reflexivity.
  - reflexivity.
  - reflexivity.
  - reflexivity.
  - vm_compute. reflexivity.
Defined.

Lemma momentum_follows_its_rule_witness :
  replays (momentum_step (default (decimal 1 100) (Some (decimal 1 10)))
             (default (decimal 9 10) None)) fst
    first_feature ([0%float], zeros_like [0%float]) (three_samples [1])
    (mini_batch_gradient_descent_with_momentum.optimize 0 1 2 first_feature
       (Some (decimal 1 10)) None (Some 2%Z) (Some (PyInt 1)) None
       (three_samples [1])).1
    (mini_batch_gradient_descent_with_momentum.optimize 0 1 2 first_feature
       (Some (decimal 1 10)) None (Some 2%Z) (Some (PyInt 1)) None
       (three_samples [1])).2.
Proof.
  apply (momentum_follows_its_rule 0 1 2 first_feature
           (Some (decimal 1 10)) None (Some 2%Z) (Some (PyInt 1)) None
           [[1%float]; [2%float]; [3%float]] [[1%float]; [2%float]; [3%float]]
           [0%float] 1 3 (three_samples [1])).
  - reflexivity.
  - reflexivity.
  - reflexivity.
  - reflexivity.
  - vm_compute. reflexivity.
Defined.

Lemma adagrad_follows_its_rule_witness :
  replays (adagrad_step (default (decimal 1 100) None)
             (default (decimal 1 100000000) None)) fst
    first_feature ([0%float], zeros_like [0%float]) (three_samples [1])
    (adagrad.optimize 0 1 2 first_feature None (Some 2%Z) (Some (PyInt 1)) None
       None (three_samples [1])).1
    (adagrad.optimize 0 1 2 first_feature None (Some 2%Z) (Some (PyInt 1)) None
       None (three_samples [1])).2.
Proof.
  apply (adagrad_follows_its_rule 0 1 2 first_feature None (Some 2%Z)
           (Some (PyInt 1)) None None
           [[1%float]; [2%float]; [3%float]] [[1%float]; [2%float]; [3%float]]
           [0%float] 1 3 (three_samples [1])).
  - reflexivity.
  - reflexivity.
  - reflexivity.
  - reflexivity.
  - vm_compute. reflexivity.
Defined.

Lemma rmsprop_follows_its_rule_witness :
  replays (rmsprop_step (default (decimal 1 100) None)
             (default (decimal 99 100) None)
             (default (decimal 1 100000000) None)) fst
    first_feature ([0%float], zeros_like [0%float]) (three_samples [1])
    (rmsprop.optimize 0 1 2 first_feature None None (Some 2%Z) (Some (PyInt 1))
       None None (three_samples [1])).1
    (rmsprop.optimize 0 1 2 first_feature None None (Some 2%Z) (Some (PyInt 1))
       None None (three_samples [1])).2.
Proof.
  apply (rmsprop_follows_its_rule 0 1 2 first_feature None None (Some 2%Z)
           (Some (PyInt 1)) None None
           [[1%float]; [2%float]; [3%float]] [[1%float]; [2%float]; [3%float]]
           [0%float] 1 3 (three_samples [1])).
  - reflexivity.
  - reflexivity.
  - reflexivity.
  - reflexivity.
  - vm_compute. reflexivity.
Defined.

Lemma adam_follows_its_rule_witness :
  replays (adam_step (default (decimal 1 100) None)
             (default (decimal 9 10) None) (default (decimal 99 100) None)
             (default (decimal 1 100000000) None))
    (λ s, s.1.1.1)
    (λ X_selected y_selected solution,
       first_feature X_selected y_selected solution)
    ([0%float], zeros_like [0%float], zeros_like [0%float], 0)
    (three_samples [1])
    (adam.optimize 0 1 2 (λ X_selected y_selected solution _,
                            first_feature X_selected y_selected solution) true
       None None None (Some 2%Z) (Some (PyInt 1)) None None
       (three_samples [1])).1
    (adam.optimize 0 1 2 (λ X_selected y_selected solution _,
                            first_feature X_selected y_selected solution) true
       None None None (Some 2%Z) (Some (PyInt 1)) None None
       (three_samples [1])).2.
Proof.
  apply (adam_follows_its_rule 0 1 2
           (λ X_selected y_selected solution _,
              first_feature X_selected y_selected solution) true
           None None None (Some 2%Z) (Some (PyInt 1)) None None
           [[1%float]; [2%float]; [3%float]] [[1%float]; [2%float]; [3%float]]
           [0%float] 1 3 (three_samples [1])).
  - reflexivity.
  - reflexivity.
  - reflexivity.
  - vm_compute. reflexivity.
Defined.

Section rules_on_reals.
Context {Row Rng : Type} `{RandomSource Rng}.
Open Scope R_scope.

(** X17. Over the real numbers, at a stationary point no optimizer moves:
    when the gradient source returns zeros at the initial parameters for
    every batch, [optimize] returns parameters equal to the initial ones,
    whatever the number of epochs and the permutations. (With a positive
    [epsilon] and decay rates in [0, 1), none of the divisions of the rules
    is a division of zero by zero, which numpy and the real numbers of Rocq
    treat differently.) *)
Theorem stationary_point a X y initial_solution source kw xs ys v batch_size
    b iterations (st : state R Row Rng) :
  heap st !! X = Some (Rows xs) →
  heap st !! y = Some (Rows ys) →
  length ys = length xs →
  heap st !! initial_solution = Some (Tensor v) →
  kw_batch_size kw = Some batch_size →
  (calculate_batch_size_and_iteration batch_size (kw_batch_fraction kw) X st).1
    = inr (b, iterations) →
  0 < default (decimal 1 100000000) (kw_epsilon kw) →
  0 <= default (decimal 9 10) (kw_momentum_decay kw) < 1 →
  0 <= default (decimal 99 100) (kw_squared_gradient_decay kw) < 1 →
  (∀ X_selected y_selected, source X_selected y_selected v = zeros_like v) →
  returned (optimize a X y initial_solution source kw st) = Some v.
Proof. intros HX Hy Hlen Hp Hbs Hplan _ _ _ Hsource. by eapply stationary_optimize. Qed.

(** X18. Over the real numbers, with a positive [epsilon] and gradients of
    the shape of the parameters, [adagrad] returns, and no update has moved
    a parameter by more than the learning rate: a parameter it returns is
    within [max_num_epoch * iterations * |learning_rate|] of its initial
    value, however large the gradients. *)
Theorem adagrad_moves_by_the_learning_rate X y initial_solution source kw
    xs ys v batch_size b iterations (st : state R Row Rng) :
  heap st !! X = Some (Rows xs) →
  heap st !! y = Some (Rows ys) →
  length ys = length xs →
  heap st !! initial_solution = Some (Tensor v) →
  kw_batch_size kw = Some batch_size →
  (calculate_batch_size_and_iteration batch_size (kw_batch_fraction kw) X st).1
    = inr (b, iterations) →
  0 < default (decimal 1 100000000) (kw_epsilon kw) →
  (∀ X_selected y_selected w,
     length w = length v → length (source X_selected y_selected w) = length v) →
  ∃ w,
    returned (optimize Adagrad X y initial_solution source kw st) = Some w ∧
    Forall2 (λ a b,
               Rabs (b - a)
               <= INR (Z.to_nat (default 1000%Z (kw_max_num_epoch kw))
                       * Z.to_nat iterations)
                  * Rabs (default (decimal 1 100) (kw_learning_rate kw)))
      v w.
Proof.
  intros HX Hy Hlen Hp Hbs Hplan Heps Hsource.
  destruct (makes_optimize Adagrad X y initial_solution source kw _ _ _ st
              Hbs Hplan) as (calls' & Hlog' & _ & Hcount).
  assert (dataset X y (length xs) st) as Hd by (by exists xs, ys).
  revert Hlog' Hcount. simpl. rewrite Hbs. intros Hlog' Hcount.
  destruct (replays_adagrad st X y initial_solution source
              (kw_learning_rate kw) (kw_max_num_epoch kw) (Some batch_size)
              (kw_batch_fraction kw) (kw_epsilon kw) _ v b iterations Hd Hp Hplan)
    as (calls & Hlog & Hr).
  destruct (adagrad_replay_moves
              (default (decimal 1 100) (kw_learning_rate kw))
              (default (decimal 1 100000000) (kw_epsilon kw))
              source v calls 0 v (zeros_like v) Heps Hsource)
    as (w & s & Hw & Hbound).
  { done. }
  { apply length_zeros_like. }
  { unfold zeros_like. apply Forall_map, Forall_true. intros _. simpl. lra. }
  { apply Forall2_same_length_lookup. split; [done|].
    intros i a b' Ha Hb. simplify_eq. simpl.
    replace (a - a) with 0 by lra. rewrite Rabs_R0. lra. }
  rewrite Hw in Hr. destruct Hr as (l & Hl & Hheap). simpl in Hheap.
  exists w. split; [unfold returned; by rewrite Hl, Hheap|].
  assert (calls = calls') as ->.
  { apply (app_inv_head (gradient_log st)). by rewrite <-Hlog, <-Hlog'. }
  rewrite <-(Hcount l Hl). exact Hbound.
Qed.

(** X19. Over the real numbers, the first update of [adam] (one epoch of
    one iteration) with decay rates other than 1 moves each parameter by
    [learning_rate * g / (|g| + epsilon)], where [g] is the gradient on the
    first batch: by less than the learning rate, whatever the size of the
    gradient. *)
Theorem adam_first_update X y initial_solution source kw xs ys v batch_size b
    (st : state R Row Rng) :
  heap st !! X = Some (Rows xs) →
  heap st !! y = Some (Rows ys) →
  heap st !! initial_solution = Some (Tensor v) →
  kw_batch_size kw = Some batch_size →
  (calculate_batch_size_and_iteration batch_size (kw_batch_fraction kw) X st).1
    = inr (b, 1%Z) →
  kw_max_num_epoch kw = Some 1%Z →
  length (source (py_slice xs 0 b) (py_slice ys 0 b) v) = length v →
  0 < default (decimal 1 100) (kw_learning_rate kw) →
  0 < default (decimal 1 100000000) (kw_epsilon kw) →
  0 <= default (decimal 9 10) (kw_momentum_decay kw) < 1 →
  0 <= default (decimal 99 100) (kw_squared_gradient_decay kw) < 1 →
  ∃ w,
    returned (optimize Adam X y initial_solution source kw st) = Some w ∧
    w = zip_with
          (λ a g, a - default (decimal 1 100) (kw_learning_rate kw) * g
                      / (Rabs g + default (decimal 1 100000000) (kw_epsilon kw)))
          v (source (py_slice xs 0 b) (py_slice ys 0 b) v) ∧
    Forall2 (λ a b, Rabs (b - a) < default (decimal 1 100) (kw_learning_rate kw))
      v w.
Proof.
  intros HX Hy Hp Hbs Hplan Hepochs Hg Hlr Heps Hd1 Hd2.
  set (g := source (py_slice xs 0 b) (py_slice ys 0 b) v) in *.
  set (rate := default (decimal 1 100) (kw_learning_rate kw)) in *.
  set (epsilon := default (decimal 1 100000000) (kw_epsilon kw)) in *.
  destruct (makes_optimize Adam X y initial_solution source kw _ _ _ st
              Hbs Hplan) as (calls' & Hlog' & Hle & Hcount).
  revert Hlog' Hle Hcount. simpl. rewrite Hbs, Hepochs. simpl.
  intros Hlog' Hle Hcount.
  pose proof (epochs_adam xs ys st X y initial_solution
                (λ X_selected y_selected solution _,
                   source X_selected y_selected solution) true
                (kw_learning_rate kw) (kw_momentum_decay kw)
                (kw_squared_gradient_decay kw) (Some 1%Z) (Some batch_size)
                (kw_batch_fraction kw) (kw_epsilon kw) b 1 HX Hy Hplan)
    as (done & Hlogd & Hdone & Hled & Hret).
  destruct (replays_adam st X y initial_solution
              (λ X_selected y_selected solution _,
                 source X_selected y_selected solution) true
              (kw_learning_rate kw) (kw_momentum_decay kw)
              (kw_squared_gradient_decay kw) (Some 1%Z) (Some batch_size)
              (kw_batch_fraction kw) (kw_epsilon kw) xs ys v b 1 HX Hy Hp Hplan)
    as (calls & Hlog & Hr).
  assert (calls = calls') as ->.
  { apply (app_inv_head (gradient_log st)). by rewrite <-Hlog, <-Hlog'. }
  assert (concat done = calls') as Hconcat.
  { apply (app_inv_head (gradient_log st)). by rewrite <-Hlogd, <-Hlog'. }
  destruct (adam_first_step rate
              (default (decimal 9 10) (kw_momentum_decay kw))
              (default (decimal 99 100) (kw_squared_gradient_decay kw))
              epsilon v g Hg) as (m1 & s1 & Hstep); [lra | lra |].
  assert (∀ c, calls' = [c] → c.1.1 = py_slice xs 0 b ∧ c.1.2 = py_slice ys 0 b)
    as Hfirst.
  { intros c ->.
    destruct done as [|e1 done]; [done|].
    apply Forall_cons in Hdone as [[Horder _] Hdone].
    destruct e1 as [|c1 e1].
    - destruct done as [|e2 done]; [done|]. simpl in Hled. lia.
    - simpl in Hconcat. injection Hconcat as -> _.
      destruct (Horder 0%nat c eq_refl) as [H1 H2].
      rewrite Z.mul_1_l in H1, H2. by split. }
  destruct calls' as [|c [|c' calls']]; simpl in Hle; [| |lia].
  - simpl in Hr. destruct Hr as (l & Hl & _).
    specialize (Hcount l Hl). done.
  - destruct (Hfirst c eq_refl) as [HcX Hcy].
    rewrite replay_one, HcX, Hcy in Hr.
    change ((v, zeros_like v, zeros_like v, 0%nat).1.1.1) with v in Hr.
    fold g rate epsilon in Hr. rewrite Hstep in Hr.
    destruct Hr as (l & Hl & Hheap). simpl in Hheap.
    eexists. split; [unfold returned; by rewrite Hl, Hheap|].
    split; [done|].
    apply Forall2_same_length_lookup.
    split; [by rewrite length_zip_with, Hg, Nat.min_id|].
    intros i a w Ha Hw.
    apply lookup_zip_with_Some in Hw as (a' & x & -> & Ha' & Hx).
    simplify_eq. by apply first_step_magnitude.
Qed.
End rules_on_reals.

Lemma stationary_point_witness :
  returned (optimize RMSProp 0 1 2 flat (with_batch_size 1)
              (three_real_samples_at 5)) = Some [5%R].
Proof.
  apply (stationary_point RMSProp 0 1 2 flat (with_batch_size 1)
           [1; 2; 3] [4; 5; 6] [5%R] (PyInt 1) 1 3 (three_real_samples_at 5)).
  - reflexivity.
  - reflexivity.
  - reflexivity.
  - reflexivity.
  - reflexivity.
  - cbn [kw_batch_fraction with_batch_size].
    rewrite (R_plan_of_size (three_real_samples_at 5) 0 [1; 2; 3] 1 eq_refl);
      [reflexivity | lia].
  - unfold decimal; simpl. lra.
  - unfold decimal; simpl. lra.
  - unfold decimal; simpl. lra.
  - reflexivity.
Defined.

Lemma adagrad_moves_by_the_learning_rate_witness :
  ∃ w,
    returned (optimize Adagrad 0 1 2 half_square (with_batch_size 1)
                (three_real_samples_at 5)) = Some w ∧
    Forall2 (λ a b,
               Rabs (b - a)
               <= INR (Z.to_nat 1000 * Z.to_nat 3) * Rabs (decimal 1 100))%R
      [5%R] w.
Proof.
  apply (adagrad_moves_by_the_learning_rate 0 1 2 half_square (with_batch_size 1)
           [1; 2; 3] [4; 5; 6] [5%R] (PyInt 1) 1 3 (three_real_samples_at 5)).
  - reflexivity.
  - reflexivity.
  - reflexivity.
  - reflexivity.
  - reflexivity.
  - cbn [kw_batch_fraction with_batch_size].
    rewrite (R_plan_of_size (three_real_samples_at 5) 0 [1; 2; 3] 1 eq_refl);
      [reflexivity | lia].
  - unfold decimal; simpl. lra.
  - intros ? ? w Hw. exact Hw.
Defined.

Lemma adam_first_update_witness :
  ∃ w,
    returned (optimize Adam 0 1 2 half_square whole_batch_once
                (three_real_samples_at 5)) = Some w ∧
    w = zip_with (λ a g, a - decimal 1 100 * g / (Rabs g + decimal 1 100000000))%R
          [5%R] (half_square (py_slice [1; 2; 3] 0 3) (py_slice [4; 5; 6] 0 3)
                   [5%R]) ∧
    Forall2 (λ a b, Rabs (b - a) < decimal 1 100)%R [5%R] w.
Proof.
  apply (adam_first_update 0 1 2 half_square whole_batch_once
           [1; 2; 3] [4; 5; 6] [5%R] (PyInt 3) 3 (three_real_samples_at 5)).
  - reflexivity.
  - reflexivity.
  - reflexivity.
  - reflexivity.
  - cbn [kw_batch_fraction whole_batch_once].
    rewrite (R_plan_of_size (three_real_samples_at 5) 0 [1; 2; 3] 3 eq_refl);
      [reflexivity | lia].
  - reflexivity.
  - reflexivity.
  - unfold decimal; simpl. lra.
  - unfold decimal; simpl. lra.
  - unfold decimal; simpl. lra.
  - unfold decimal; simpl. lra.
Defined.

(** ** What the presets present to the gradient source *)


Section presets.
Context {F Row Rng : Type}.
Local Abbreviation state := (state F Row Rng).
Local Abbreviation call := (list Row * list Row * list F)%type.

Lemma epochs_made_weaken (P P' : list call → Prop) epochs iterations
    (st st' : state) {A} (r : exception + A) :
  (∀ e, length e ≤ Z.to_nat iterations → P e → P' e) →
  epochs_made P epochs iterations st r st' →
  epochs_made P' epochs iterations st r st'.
Proof.
  intros HP (done & Hlog & Hdone & Hle & Hr). exists done.
  split; [done|]. split; [|by split].
  eapply Forall_impl; [exact Hdone|]. intros e [He Hl]. split; [by apply HP | done].
Qed.

Lemma py_slice_one (a : list Row) (i : nat) x :
  a !! i = Some x →
  py_slice a (Z.of_nat i * 1) ((Z.of_nat i + 1) * 1) = [x].
Proof.
  intros Hx. rewrite py_slice_tile by lia.
  replace (i * Z.to_nat 1) with i by lia.
  rewrite (drop_S _ _ _ Hx). done.
Qed.

Lemma py_slice_all (a : list Row) (n : Z) :
  n = Z.of_nat (length a) →
  py_slice a (Z.of_nat 0 * n) ((Z.of_nat 0 + 1) * n) = a.
Proof.
  intros ->. destruct (decide (length a = 0)) as [E|E].
  - by destruct a.
  - rewrite py_slice_tile by lia. simpl. rewrite drop_0, Nat2Z.id.
    by rewrite take_ge.
Qed.

(** With a batch size of 1, an epoch in the order of a permutation is on
    one pair per call. *)
Lemma shuffled_singles (xs ys : list Row) (e : list call) :
  length e ≤ length xs →
  shuffled_epoch xs ys 1 e → one_pair_per_call xs ys e.
Proof.
  intros Hle (xs' & ys' & Hp & Hlx & Hly & Horder).
  exists (zip xs' ys'). split; [done|].
  apply list_eq. intros i. rewrite !list_lookup_fmap.
  destruct (e !! i) as [c|] eqn:Hc; simpl.
  - pose proof (lookup_lt_Some _ _ _ Hc) as Hi.
    destruct (lookup_lt_is_Some_2 xs' i) as [x Hx]; [lia|].
    destruct (lookup_lt_is_Some_2 ys' i) as [t Ht]; [lia|].
    destruct (Horder i c Hc) as [H1 H2].
    rewrite (py_slice_one _ _ _ Hx) in H1.
    rewrite (py_slice_one _ _ _ Ht) in H2.
    rewrite lookup_take_lt by done.
    rewrite lookup_zip_with, Hx, Ht. simpl.
    unfold batch_of. by rewrite H1, H2.
  - apply lookup_ge_None in Hc.
    rewrite lookup_take_ge by done. done.
Qed.

(** A complete epoch of single pairs is on every pair of the caller, once. *)
Lemma singles_complete (xs ys : list Row) (e : list call) :
  length xs ≤ length ys → length e = length xs →
  one_pair_per_call xs ys e →
  map batch_of e ≡ₚ map (λ p, ([p.1], [p.2])) (zip xs ys).
Proof.
  intros Hlen He (pairs & Hp & ->).
  rewrite take_ge; [by rewrite Hp|].
  rewrite Hp, length_zip_with. lia.
Qed.

(** With a batch size that is the number of samples, an epoch of no more
    than one call is on the whole dataset. *)
Lemma shuffled_whole (xs ys : list Row) (e : list call) :
  length e ≤ 1 →
  shuffled_epoch xs ys (Z.of_nat (length xs)) e → whole_dataset xs ys e.
Proof.
  intros Hle (xs' & ys' & Hp & Hlx & Hly & Horder).
  destruct e as [|c [|c' e]]; [by constructor | | simpl in Hle; lia].
  constructor; [|constructor].
  destruct (Horder 0 c eq_refl) as [H1 H2].
  rewrite py_slice_all in H1 by congruence.
  rewrite py_slice_all in H2 by congruence.
  rewrite H1, H2. by repeat split.
Qed.
End presets.

Section presets_on_reals.
Context {Row Rng : Type} `{RandomSource Rng}.

(** X20. Over the real numbers, [stochastic_gradient_descent.optimize]
    presents one sample with its target at each call, and in an epoch no pair
    twice: the calls of an epoch go through the pairs of the caller in the
    order of one permutation. A run that returns has made [max_num_epoch]
    epochs, and each of them has visited every pair exactly once. *)
Theorem stochastic_descent_visits_every_pair X y initial_solution source
    learning_rate max_num_epoch xs ys (st : state R Row Rng) :
  heap st !! X = Some (Rows xs) →
  heap st !! y = Some (Rows ys) →
  length xs ≤ length ys →
  ∃ done,
    gradient_log
      (stochastic_gradient_descent.optimize X y initial_solution source
         learning_rate max_num_epoch st).2
    = gradient_log st ++ concat done ∧
    length done ≤ Z.to_nat (default 1000%Z max_num_epoch) ∧
    Forall (one_pair_per_call xs ys) done ∧
    ∀ l,
      (stochastic_gradient_descent.optimize X y initial_solution source
         learning_rate max_num_epoch st).1 = inr l →
      length done = Z.to_nat (default 1000%Z max_num_epoch) ∧
      Forall (λ e, map batch_of e
                   ≡ₚ map (λ p, ([p.1], [p.2])) (zip xs ys)) done.
Proof.
  intros HX Hy Hlen.
  pose proof (epochs_mini_batch xs ys st X y initial_solution source
                (Some (default (decimal 1 100) learning_rate))
                (Some (default 1000%Z max_num_epoch))
                (Some (PyInt 1)) None 1 (Z.of_nat (length xs)) HX Hy Hlen)
    as Hrun.
  destruct Hrun as (done & Hlog & Hdone & Hle & Hr).
  { cbv beta iota delta [default from_option Datatypes.id].
    rewrite (R_plan_of_size st X xs 1 HX) by lia.
    cbv beta iota delta [fst]. by rewrite Z.div_1_r. }
  assert (Forall (one_pair_per_call xs ys) done) as Hsingles.
  { eapply Forall_impl; [exact Hdone|]. intros e [He Hl].
    apply shuffled_singles; [lia | done]. }
  exists done. split; [exact Hlog|]. split; [exact Hle|]. split; [done|].
  intros l Hl. destruct (Hr l Hl) as [Hn Hfull]. split; [exact Hn|].
  apply Forall_forall. intros e He.
  apply singles_complete; [done | |].
  - rewrite Forall_forall in Hfull. rewrite (Hfull e He). lia.
  - rewrite Forall_forall in Hsingles. by apply Hsingles.
Qed.

(** X21. Over the real numbers, on a dataset that is not empty,
    [full_batch_gradient_descent.optimize] calls the gradient source once
    in an epoch, on all the samples with their targets, put in another
    order by the shuffle of the epoch; a run that returns has made
    [max_num_epoch] calls. *)
Theorem full_batch_is_the_whole_dataset X y initial_solution source
    learning_rate max_num_epoch xs ys (st : state R Row Rng) :
  heap st !! X = Some (Rows xs) →
  heap st !! y = Some (Rows ys) →
  length xs ≤ length ys →
  1 ≤ length xs →
  ∃ calls,
    gradient_log
      (full_batch_gradient_descent.optimize X y initial_solution source
         learning_rate max_num_epoch st).2
    = gradient_log st ++ calls ∧
    length calls ≤ Z.to_nat (default 1000%Z max_num_epoch) ∧
    whole_dataset xs ys calls ∧
    ∀ l,
      (full_batch_gradient_descent.optimize X y initial_solution source
         learning_rate max_num_epoch st).1 = inr l →
      length calls = Z.to_nat (default 1000%Z max_num_epoch).
Proof.
  intros HX Hy Hlen Hne.
  pose proof (epochs_mini_batch xs ys st X y initial_solution source
                (Some (default (decimal 1 100) learning_rate))
                (Some (default 1000%Z max_num_epoch))
                None (Some (PyInt 1)) (Z.of_nat (length xs)) 1 HX Hy Hlen)
    as Hrun.
  destruct Hrun as (done & Hlog & Hdone & Hle & Hr).
  { cbv beta iota delta [default from_option Datatypes.id].
    by rewrite (R_plan_of_whole st X xs 42 HX) by lia. }
  assert (length (concat done) ≤ length done) as Hshort.
  { clear Hlog Hle Hr. induction Hdone as [|e done [_ He] _ IH]; [done|].
    simpl. rewrite length_app. simpl in He. lia. }
  exists (concat done). split; [exact Hlog|]. split; [simpl in Hle; lia|].
  split.
  - unfold whole_dataset. apply Forall_concat.
    eapply Forall_impl; [exact Hdone|]. intros e [He Hl].
    by apply shuffled_whole.
  - intros l Hl. destruct (Hr l Hl) as [Hn Hfull]. simpl in Hn.
    rewrite <-Hn. clear -Hfull.
    induction Hfull as [|e done He _ IH]; [done|].
    simpl. rewrite length_app, IH, He. done.
Qed.
End presets_on_reals.

Lemma stochastic_descent_visits_every_pair_witness :
  ∃ done,
    gradient_log
      (stochastic_gradient_descent.optimize 0 1 2 half_square None (Some 2%Z)
         (three_real_samples_at 5)).2
    = gradient_log (three_real_samples_at 5) ++ concat done ∧
    length done ≤ Z.to_nat (default 1000%Z (Some 2%Z)) ∧
    Forall (one_pair_per_call [1; 2; 3] [4; 5; 6]) done ∧
    ∀ l,
      (stochastic_gradient_descent.optimize 0 1 2 half_square None (Some 2%Z)
         (three_real_samples_at 5)).1 = inr l →
      length done = Z.to_nat (default 1000%Z (Some 2%Z)) ∧
      Forall (λ e, map batch_of e
                   ≡ₚ map (λ p, ([p.1], [p.2])) (zip [1; 2; 3] [4; 5; 6])) done.
Proof.
  apply (stochastic_descent_visits_every_pair 0 1 2 half_square None (Some 2%Z)
           [1; 2; 3] [4; 5; 6] (three_real_samples_at 5)).
  - reflexivity.
  - reflexivity.
  - simpl. lia.
Defined.

Lemma full_batch_is_the_whole_dataset_witness :
  ∃ calls,
    gradient_log
      (full_batch_gradient_descent.optimize 0 1 2 half_square None (Some 2%Z)
         (three_real_samples_at 5)).2
    = gradient_log (three_real_samples_at 5) ++ calls ∧
    length calls ≤ Z.to_nat (default 1000%Z (Some 2%Z)) ∧
    whole_dataset [1; 2; 3] [4; 5; 6] calls ∧
    ∀ l,
      (full_batch_gradient_descent.optimize 0 1 2 half_square None (Some 2%Z)
         (three_real_samples_at 5)).1 = inr l →
      length calls = Z.to_nat (default 1000%Z (Some 2%Z)).
Proof.
  apply (full_batch_is_the_whole_dataset 0 1 2 half_square None (Some 2%Z)
           [1; 2; 3] [4; 5; 6] (three_real_samples_at 5)).
  - reflexivity.
  - reflexivity.
  - simpl. lia.
  - simpl. lia.
Defined.

(** ** Gradients of the shape of the parameters *)

Section shaped.
Context {F : Type} `{Scalar F}.
Implicit Types w g : list F.

Lemma broadcast_same (op : F → F → F) (a b : list F) :
  length a = length b → broadcast op a b = inr (zip_with op a b).
Proof. intros Hl. unfold broadcast. by rewrite decide_True. Qed.

Lemma length_zip_same {A B C} (f : A → B → C) (a : list A) (b : list B) :
  length a = length b → length (zip_with f a b) = length b.
Proof. intros Hl. rewrite length_zip_with. lia. Qed.

Lemma np_sub_shaped a b :
  length a = length b →
  ∃ c, np_sub a b = inr c ∧ length c = length b.
Proof.
  intros Hl. unfold np_sub. rewrite broadcast_same by done.
  eexists. split; [done|]. by apply length_zip_same.
Qed.

Lemma np_add_shaped a b :
  length a = length b →
  ∃ c, np_add a b = inr c ∧ length c = length b.
Proof.
  intros Hl. unfold np_add. rewrite broadcast_same by done.
  eexists. split; [done|]. by apply length_zip_same.
Qed.






Lemma momentum_step_shaped learning_rate decay w m g :
  length m = length w → length g = length w →
  ∃ w' m', momentum_step learning_rate decay (w, m) g = inr (w', m') ∧
           length w' = length w ∧ length m' = length w.
Proof.
  intros Hm Hg. unfold momentum_step.
  destruct (np_sub_shaped (scale decay m) (scale learning_rate g))
    as (m' & -> & Hm'); [rewrite !length_scale; congruence|].
  rewrite length_scale in Hm'. simpl.
  destruct (np_add_shaped w m') as (w' & -> & Hw'); [congruence|].
  simpl. exists w', m'. split; [done|]. split; congruence.
Qed.




Context {Row : Type}.
Implicit Types calls : list (list Row * list Row * list F).

End shaped.

Section shaped_runs.
Context {F Row Rng : Type} `{Scalar F} `{RandomSource Rng}.


End shaped_runs.

(** ** Plain descent along a constant gradient *)

Section constant_gradient.
Open Scope R_scope.

Lemma zip_with_fst_id (v g : list R) (f : R → R → R) :
  length g = length v → (∀ a x, f a x = a) → zip_with f v g = v.
Proof.
  intros Hl Hf. revert g Hl.
  induction v as [|a v IH]; intros [|x g] Hl; simplify_eq/=; [done|].
  by rewrite Hf, IH.
Qed.

Lemma descent_step_constant (learning_rate c : R) (v g : list R) :
  length g = length v →
  descent_step learning_rate (zip_with (λ a x, a - c * x) v g) g
  = inr (zip_with (λ a x, a - (c + learning_rate) * x) v g).
Proof.
  intros Hl. unfold descent_step, np_sub, scale.
  rewrite R_broadcast_same by (rewrite length_zip_with, length_map; lia).
  f_equal. revert g Hl.
  induction v as [|a v IH]; intros [|x g] Hl; simplify_eq/=; [done|].
  f_equal; [lra | by apply IH].
Qed.

Context {Row : Type}.

Lemma replay_constant (learning_rate : R)
    (source : list Row → list Row → list R → list R) (v g : list R)
    (calls : list (list Row * list Row * list R)) (j : nat) :
  (∀ X_selected y_selected w, source X_selected y_selected w = g) →
  length g = length v →
  replay (descent_step learning_rate) (λ w, w) source calls
    (zip_with (λ a x, a - INR j * learning_rate * x) v g)
  = inr (zip_with (λ a x, a - INR (j + length calls) * learning_rate * x) v g).
Proof.
  intros Hsource Hl. revert j.
  induction calls as [|c calls IH]; intros j.
  - simpl. by rewrite Nat.add_0_r.
  - change (replay ?step ?par ?src (c :: calls) ?w)
      with (match step w (src c.1.1 c.1.2 (par w)) with
            | inr s' => replay step par src calls s'
            | inl e => inl e
            end).
    rewrite Hsource, descent_step_constant by done.
    replace (zip_with (λ a x, a - (INR j * learning_rate + learning_rate) * x) v g)
      with (zip_with (λ a x, a - INR (S j) * learning_rate * x) v g).
    + rewrite IH. simpl length.
      by replace (S j + length calls)%nat with (j + S (length calls))%nat by lia.
    + apply zip_with_ext; [|done..]. intros a x. rewrite S_INR. lra.
Qed.
End constant_gradient.

(** ** Momentum that does not last *)

Section no_decay.
Open Scope R_scope.

Lemma momentum_step_no_decay (learning_rate : R) (w m g : list R) :
  length m = length w → length g = length w →
  ∃ w' m',
    momentum_step learning_rate 0 (w, m) g = inr (w', m') ∧
    descent_step learning_rate w g = inr w' ∧
    length w' = length w ∧ length m' = length w.
Proof.
  intros Hm Hg.
  destruct (momentum_step_shaped learning_rate 0 w m g Hm Hg)
    as (w' & m' & Hstep & Hw' & Hm').
  exists w', m'. split; [done|]. split; [|done].
  revert Hstep. unfold momentum_step, descent_step, np_sub, scale.
  rewrite !R_broadcast_same by (rewrite !length_map; lia).
  simpl. unfold np_add.
  rewrite R_broadcast_same by (rewrite length_zip_with, !length_map; lia).
  simpl. intros [= <- _]. f_equal.
  clear Hw' Hm'. revert m g Hm Hg.
  induction w as [|a w IH]; intros [|b m] [|x g] Hm Hg; simplify_eq/=; [done|].
  f_equal; [lra | by apply IH].
Qed.

Context {Row : Type}.

Lemma replay_no_decay (learning_rate : R)
    (source : list Row → list Row → list R → list R) (n : nat)
    (calls : list (list Row * list Row * list R)) (w m : list R) :
  (∀ X_selected y_selected w,
     length w = n → length (source X_selected y_selected w) = n) →
  length w = n → length m = n →
  ∃ w' m',
    replay (momentum_step learning_rate 0) fst source calls (w, m)
      = inr (w', m') ∧
    replay (descent_step learning_rate) (λ w, w) source calls w = inr w'.
Proof.
  intros Hsource. revert w m.
  induction calls as [|c calls IH]; intros w m Hw Hm.
  - by exists w, m.
  - change (replay ?step ?par ?src (c :: calls) ?s)
      with (match step s (src c.1.1 c.1.2 (par s)) with
            | inr s' => replay step par src calls s'
            | inl e => inl e
            end).
    cbn [fst].
    destruct (momentum_step_no_decay learning_rate w m (source c.1.1 c.1.2 w))
      as (w' & m' & -> & -> & Hw' & Hm');
      [congruence | by rewrite Hsource |].
    apply IH; congruence.
Qed.
End no_decay.

(** ** How far [rmsprop] moves a parameter *)

Section rmsprop_bound.
Open Scope R_scope.

(** One parameter: the step is no larger than the learning rate over the
    square root of [1 - squared_gradient_decay]. *)
Lemma rmsprop_step_magnitude (learning_rate decay epsilon x a : R) :
  0 < epsilon → 0 <= decay < 1 → 0 <= a →
  Rabs (learning_rate * x
        / (R_sqrt.sqrt (decay * a + (1 - decay) * (x * x)) + epsilon))
  <= Rabs learning_rate / R_sqrt.sqrt (1 - decay).
Proof.
  intros He Hd Ha.
  set (d := R_sqrt.sqrt (1 - decay)).
  set (q := R_sqrt.sqrt (decay * a + (1 - decay) * (x * x))).
  assert (0 < d) as Hd0 by (apply sqrt_lt_R0; lra).
  assert (0 <= Rabs x) as Hx0 by apply Rabs_pos.
  assert (Rabs x * d <= q) as Hq.
  { unfold d, q. rewrite <-sqrt_Rsqr_abs, <-sqrt_mult_alt by apply Rle_0_sqr.
    apply sqrt_le_1_alt. unfold Rsqr.
    assert (0 <= decay * a) by (apply Rmult_le_pos; lra). lra. }
  assert (0 <= q) as Hq0 by apply sqrt_pos.
  assert (0 < q + epsilon) as HD by lra.
  unfold Rdiv. rewrite !Rabs_mult, Rabs_inv, (Rabs_pos_eq (_ + _)) by lra.
  rewrite Rmult_assoc.
  apply Rmult_le_compat_l; [apply Rabs_pos|].
  apply (Rmult_le_reg_r ((q + epsilon) * d)); [nra|].
  replace (Rabs x * / (q + epsilon) * ((q + epsilon) * d)) with (Rabs x * d)
    by (field; lra).
  replace (/ d * ((q + epsilon) * d)) with (q + epsilon) by (field; lra).
  lra.
Qed.

Lemma R_moving_average_square (decay : R) (s g : list R) :
  length s = length g →
  moving_average decay s (square g)
  = inr (zip_with (λ a x, decay * a + (1 - decay) * (x * x)) s g).
Proof.
  intros Hl. unfold moving_average, np_add, scale, square.
  rewrite R_broadcast_same by (by rewrite !length_map).
  f_equal. revert g Hl.
  induction s as [|a s IH]; intros [|x g] Hl; simplify_eq/=; [done|].
  f_equal. by apply IH.
Qed.

Lemma rmsprop_step_moves (learning_rate decay epsilon : R) (w s g : list R) :
  0 < epsilon → 0 <= decay < 1 →
  length s = length w → length g = length w →
  Forall (λ a, 0 <= a) s →
  ∃ w' s',
    rmsprop_step learning_rate decay epsilon (w, s) g = inr (w', s') ∧
    length w' = length w ∧ length s' = length w ∧
    Forall (λ a, 0 <= a) s' ∧
    Forall2 (λ a b, Rabs (b - a)
                    <= Rabs learning_rate / R_sqrt.sqrt (1 - decay)) w w'.
Proof.
  intros He Hd Hs Hg Hpos. unfold rmsprop_step.
  rewrite R_moving_average_square by congruence. simpl.
  rewrite R_scaled_step by (rewrite length_zip_with; lia). simpl.
  unfold np_sub. rewrite R_broadcast_same
    by (rewrite !length_zip_with; lia).
  simpl. eexists _, _. split; [done|].
  split; [rewrite !length_zip_with; lia|].
  split; [rewrite !length_zip_with; lia|].
  split.
  - clear Hg. revert g s Hs Hpos.
    induction w as [|x w IH]; intros g [|a s] Hs Hpos; simplify_eq/=;
      destruct g as [|z g]; simpl; try constructor.
    + apply Forall_cons in Hpos as [Ha _]. nra.
    + apply Forall_cons in Hpos as [_ Hpos]. by apply (IH g s).
  - revert g s Hs Hg Hpos.
    induction w as [|x w IH]; intros [|z g] [|a s] Hs Hg Hpos; simplify_eq/=;
      constructor.
    + apply Forall_cons in Hpos as [Ha _].
      replace (x - learning_rate * z
                   / (R_sqrt.sqrt (decay * a + (1 - decay) * (z * z)) + epsilon)
               - x)
        with (- (learning_rate * z
                 / (R_sqrt.sqrt (decay * a + (1 - decay) * (z * z)) + epsilon)))
        by lra.
      rewrite Rabs_Ropp. by apply rmsprop_step_magnitude.
    + apply Forall_cons in Hpos as [_ Hpos]. by apply IH.
Qed.

Context {Row : Type}.

Lemma rmsprop_replay_moves (learning_rate decay epsilon : R)
    (source : list Row → list Row → list R → list R) v calls (k : nat) w s :
  0 < epsilon → 0 <= decay < 1 →
  (∀ X_selected y_selected w,
     length w = length v → length (source X_selected y_selected w) = length v) →
  length w = length v → length s = length v →
  Forall (λ a, 0 <= a) s →
  Forall2 (λ a b, Rabs (b - a)
                  <= INR k * (Rabs learning_rate / R_sqrt.sqrt (1 - decay)))
    v w →
  ∃ w' s',
    replay (rmsprop_step learning_rate decay epsilon) fst source calls (w, s)
      = inr (w', s') ∧
    Forall2 (λ a b, Rabs (b - a)
                    <= INR (k + length calls)
                       * (Rabs learning_rate / R_sqrt.sqrt (1 - decay)))
      v w'.
Proof.
  intros He Hd Hsource. revert k w s.
  induction calls as [|c calls IH]; intros k w s Hw Hs Hpos Hv.
  - exists w, s. split; [done|]. by rewrite Nat.add_0_r.
  - change (replay ?step ?par ?src (c :: calls) (w, s))
      with (match step (w, s) (src c.1.1 c.1.2 w) with
            | inr s' => replay step par src calls s'
            | inl e => inl e
            end).
    destruct (rmsprop_step_moves learning_rate decay epsilon w s
                (source c.1.1 c.1.2 w) He Hd)
      as (w' & s' & -> & Hw' & Hs' & Hpos' & Hmove);
      [congruence | by rewrite Hsource | done |].
    destruct (IH (S k) w' s') as (w'' & s'' & -> & Hfinal);
      [congruence | congruence | done | |].
    + rewrite S_INR.
      apply Forall2_same_length_lookup. split; [congruence|].
      intros i a b Ha Hb.
      destruct (Forall2_lookup_l _ _ _ _ _ Hv Ha) as (m & Hm & Ham).
      destruct (Forall2_lookup_l _ _ _ _ _ Hmove Hm) as (b' & Hb' & Hmb).
      simplify_eq.
      replace (b - a) with ((b - m) + (m - a)) by lra.
      eapply Rle_trans; [apply Rabs_triang|]. lra.
    + exists w'', s''. split; [done|]. simpl length.
      by replace (k + S (length calls))%nat with (S k + length calls)%nat by lia.
Qed.
End rmsprop_bound.

Section shapes_kept.
Context {F Row Rng : Type} `{Scalar F} `{RandomSource Rng}.

End shapes_kept.

Section more_rules_on_reals.
Context {Row Rng : Type} `{RandomSource Rng}.
Open Scope R_scope.

(** X23. Over the real numbers, along a gradient that is the same [g]
    everywhere, plain descent returns
    [initial_solution - k * learning_rate * g], where [k] is
    [max_num_epoch * iterations], the number of its updates. *)
Theorem plain_descent_along_a_constant_gradient X y initial_solution source kw
    xs ys v g batch_size b iterations (st : state R Row Rng) :
  heap st !! X = Some (Rows xs) →
  heap st !! y = Some (Rows ys) →
  length ys = length xs →
  heap st !! initial_solution = Some (Tensor v) →
  kw_batch_size kw = Some batch_size →
  (calculate_batch_size_and_iteration batch_size (kw_batch_fraction kw) X st).1
    = inr (b, iterations) →
  (∀ X_selected y_selected w, source X_selected y_selected w = g) →
  length g = length v →
  returned (optimize PlainDescent X y initial_solution source kw st)
  = Some (zip_with
            (λ a x,
               a - INR (Z.to_nat (default 1000%Z (kw_max_num_epoch kw))
                        * Z.to_nat iterations)
                   * default (decimal 1 100) (kw_learning_rate kw) * x)
            v g).
Proof.
  intros HX Hy Hlen Hp Hbs Hplan Hsource Hg.
  destruct (makes_optimize PlainDescent X y initial_solution source kw _ _ _ st
              Hbs Hplan) as (calls' & Hlog' & _ & Hcount).
  assert (dataset X y (length xs) st) as Hd by (by exists xs, ys).
  revert Hlog' Hcount. simpl. rewrite Hbs. intros Hlog' Hcount.
  destruct (replays_mini_batch st X y initial_solution source
              (kw_learning_rate kw) (kw_max_num_epoch kw) (Some batch_size)
              (kw_batch_fraction kw) _ v b iterations Hd Hp Hplan)
    as (calls & Hlog & Hr).
  assert (calls = calls') as ->.
  { apply (app_inv_head (gradient_log st)). by rewrite <-Hlog, <-Hlog'. }
  pose proof (replay_constant (default (decimal 1 100) (kw_learning_rate kw))
                source v g calls' 0 Hsource Hg) as Hk.
  rewrite (zip_with_fst_id v g) in Hk; [|done|intros a x; simpl; lra].
  rewrite Hk in Hr. destruct Hr as (l & Hl & Hheap).
  unfold returned. rewrite Hl, Hheap. by rewrite <-(Hcount l Hl).
Qed.

(** X24. Over the real numbers, descent with momentum and
    [momentum_decay = 0] is plain descent: with gradients of the shape of
    the parameters, it returns what [current_solution - learning_rate *
    gradient] leads to from the initial parameters along its calls. *)
Theorem momentum_without_decay_is_plain_descent X y initial_solution source
    learning_rate max_num_epoch batch_size batch_fraction xs ys v b iterations
    (st : state R Row Rng) :
  heap st !! X = Some (Rows xs) →
  heap st !! y = Some (Rows ys) →
  length ys = length xs →
  heap st !! initial_solution = Some (Tensor v) →
  (calculate_batch_size_and_iteration (default (PyInt 1) batch_size)
     batch_fraction X st).1 = inr (b, iterations) →
  (∀ X_selected y_selected w,
     length w = length v →
     length (source X_selected y_selected w) = length v) →
  ∃ calls w,
    gradient_log
      (mini_batch_gradient_descent_with_momentum.optimize X y initial_solution
         source learning_rate (Some 0) max_num_epoch batch_size batch_fraction
         st).2
    = gradient_log st ++ calls ∧
    replay (descent_step (default (decimal 1 100) learning_rate)) (λ w, w)
      source calls v = inr w ∧
    returned
      (mini_batch_gradient_descent_with_momentum.optimize X y initial_solution
         source learning_rate (Some 0) max_num_epoch batch_size batch_fraction
         st)
    = Some w.
Proof.
  intros HX Hy Hlen Hp Hplan Hsource.
  assert (dataset X y (length xs) st) as Hd by (by exists xs, ys).
  destruct (replays_momentum st X y initial_solution source learning_rate
              (Some 0) max_num_epoch batch_size batch_fraction _ v b iterations
              Hd Hp Hplan) as (calls & Hlog & Hr).
  destruct (replay_no_decay (default (decimal 1 100) learning_rate) source
              (length v) calls v (zeros_like v) Hsource eq_refl
              (length_zeros_like v)) as (w & m & Hm & Hw).
  change (default (decimal 9 10) (Some 0)) with 0 in Hr.
  rewrite Hm in Hr. destruct Hr as (l & Hl & Hheap).
  exists calls, w. split; [done|]. split; [done|].
  unfold returned. by rewrite Hl, Hheap.
Qed.

(** X25. Over the real numbers, with a positive [epsilon], a decay rate in
    [0, 1) and gradients of the shape of the parameters, [rmsprop] returns,
    and no update has moved a parameter by more than
    [learning_rate / sqrt (1 - squared_gradient_decay)]: a parameter it
    returns is within [max_num_epoch * iterations] times that of its initial
    value, however large the gradients. *)
Theorem rmsprop_moves_by_the_learning_rate X y initial_solution source kw
    xs ys v batch_size b iterations (st : state R Row Rng) :
  heap st !! X = Some (Rows xs) →
  heap st !! y = Some (Rows ys) →
  length ys = length xs →
  heap st !! initial_solution = Some (Tensor v) →
  kw_batch_size kw = Some batch_size →
  (calculate_batch_size_and_iteration batch_size (kw_batch_fraction kw) X st).1
    = inr (b, iterations) →
  0 < default (decimal 1 100000000) (kw_epsilon kw) →
  0 <= default (decimal 99 100) (kw_squared_gradient_decay kw) < 1 →
  (∀ X_selected y_selected w,
     length w = length v → length (source X_selected y_selected w) = length v) →
  ∃ w,
    returned (optimize RMSProp X y initial_solution source kw st) = Some w ∧
    Forall2 (λ a b,
               Rabs (b - a)
               <= INR (Z.to_nat (default 1000%Z (kw_max_num_epoch kw))
                       * Z.to_nat iterations)
                  * (Rabs (default (decimal 1 100) (kw_learning_rate kw))
                     / R_sqrt.sqrt
                         (1 - default (decimal 99 100)
                                (kw_squared_gradient_decay kw))))
      v w.
Proof.
  intros HX Hy Hlen Hp Hbs Hplan Heps Hdecay Hsource.
  destruct (makes_optimize RMSProp X y initial_solution source kw _ _ _ st
              Hbs Hplan) as (calls' & Hlog' & _ & Hcount).
  assert (dataset X y (length xs) st) as Hd by (by exists xs, ys).
  revert Hlog' Hcount. simpl. rewrite Hbs. intros Hlog' Hcount.
  destruct (replays_rmsprop st X y initial_solution source
              (kw_learning_rate kw) (kw_squared_gradient_decay kw)
              (kw_max_num_epoch kw) (Some batch_size)
              (kw_batch_fraction kw) (kw_epsilon kw) _ v b iterations Hd Hp Hplan)
    as (calls & Hlog & Hr).
  destruct (rmsprop_replay_moves
              (default (decimal 1 100) (kw_learning_rate kw))
              (default (decimal 99 100) (kw_squared_gradient_decay kw))
              (default (decimal 1 100000000) (kw_epsilon kw))
              source v calls 0 v (zeros_like v) Heps Hdecay Hsource)
    as (w & s & Hw & Hbound).
  { done. }
  { apply length_zeros_like. }
  { unfold zeros_like. apply Forall_map, Forall_true. intros _. simpl. lra. }
  { apply Forall2_same_length_lookup. split; [done|].
    intros i a b' Ha Hb. simplify_eq. simpl.
    replace (a - a) with 0 by lra. rewrite Rabs_R0. lra. }
  rewrite Hw in Hr. destruct Hr as (l & Hl & Hheap). simpl in Hheap.
  exists w. split; [unfold returned; by rewrite Hl, Hheap|].
  assert (calls = calls') as ->.
  { apply (app_inv_head (gradient_log st)). by rewrite <-Hlog, <-Hlog'. }
  rewrite <-(Hcount l Hl). exact Hbound.
Qed.
End more_rules_on_reals.


Lemma plain_descent_along_a_constant_gradient_witness :
  returned (optimize PlainDescent 0 1 2 steady (with_batch_size 1)
              (three_real_samples_at 5))
  = Some (zip_with
            (λ a x, a - INR (Z.to_nat 1000 * Z.to_nat 3) * decimal 1 100 * x)%R
            [5%R] [1%R]).
Proof.
  apply (plain_descent_along_a_constant_gradient 0 1 2 steady (with_batch_size 1)
           [1; 2; 3] [4; 5; 6] [5%R] [1%R] (PyInt 1) 1 3
           (three_real_samples_at 5)).
  - reflexivity.
  - reflexivity.
  - reflexivity.
  - reflexivity.
  - reflexivity.
  - cbn [kw_batch_fraction with_batch_size].
    rewrite (R_plan_of_size (three_real_samples_at 5) 0 [1; 2; 3] 1 eq_refl);
      [reflexivity | lia].
  - reflexivity.
  - reflexivity.
Defined.

Lemma momentum_without_decay_is_plain_descent_witness :
  ∃ calls w,
    gradient_log
      (mini_batch_gradient_descent_with_momentum.optimize 0 1 2 half_square
         None (Some 0%R) (Some 2%Z) None None (three_real_samples_at 5)).2
    = gradient_log (three_real_samples_at 5) ++ calls ∧
    replay (descent_step (default (decimal 1 100) None)) (λ w, w)
      half_square calls [5%R] = inr w ∧
    returned
      (mini_batch_gradient_descent_with_momentum.optimize 0 1 2 half_square
         None (Some 0%R) (Some 2%Z) None None (three_real_samples_at 5))
    = Some w.
Proof.
  apply (momentum_without_decay_is_plain_descent 0 1 2 half_square None
           (Some 2%Z) None None [1; 2; 3] [4; 5; 6] [5%R] 1 3
           (three_real_samples_at 5)).
  - reflexivity.
  - reflexivity.
  - reflexivity.
  - reflexivity.
  - cbv beta iota delta [default from_option Datatypes.id].
    rewrite (R_plan_of_size (three_real_samples_at 5) 0 [1; 2; 3] 1 eq_refl);
      [reflexivity | lia].
  - intros ? ? w Hw. exact Hw.
Defined.

Lemma rmsprop_moves_by_the_learning_rate_witness :
  ∃ w,
    returned (optimize RMSProp 0 1 2 half_square (with_batch_size 1)
                (three_real_samples_at 5)) = Some w ∧
    Forall2 (λ a b,
               Rabs (b - a)
               <= INR (Z.to_nat 1000 * Z.to_nat 3)
                  * (Rabs (decimal 1 100)
                     / R_sqrt.sqrt (1 - decimal 99 100)))%R
      [5%R] w.
Proof.
  apply (rmsprop_moves_by_the_learning_rate 0 1 2 half_square (with_batch_size 1)
           [1; 2; 3] [4; 5; 6] [5%R] (PyInt 1) 1 3 (three_real_samples_at 5)).
  - reflexivity.
  - reflexivity.
  - reflexivity.
  - reflexivity.
  - reflexivity.
  - cbn [kw_batch_fraction with_batch_size].
    rewrite (R_plan_of_size (three_real_samples_at 5) 0 [1; 2; 3] 1 eq_refl);
      [reflexivity | lia].
  - unfold decimal; simpl. lra.
  - unfold decimal; simpl. lra.
  - intros ? ? w Hw. exact Hw.
Defined.

(** ** Batches that are full *)

Section full_batches.
Context {F Row : Type}.
Local Abbreviation call := (list Row * list Row * list F)%type.

Lemma in_order_full (xs ys : list Row) (b iterations : Z) (e : list call) :
  (1 ≤ b)%Z →
  (iterations * b ≤ Z.of_nat (length xs))%Z →
  length ys = length xs →
  length e ≤ Z.to_nat iterations →
  in_order xs ys b e →
  Forall (batch_of_size (Z.to_nat b)) e.
Proof.
  intros Hb Hfit Hlen Hle Horder.
  apply Forall_lookup. intros i c Hc.
  pose proof (lookup_lt_Some _ _ _ Hc) as Hi.
  destruct (Horder i c Hc) as [H1 H2]. unfold batch_of_size.
  rewrite H1, H2, !py_slice_tile by lia.
  split; rewrite length_take, length_drop; nia.
Qed.
End full_batches.

Section plan_on_reals.
Context {Row Rng : Type} `{RandomSource Rng}.

(** Over the real numbers the planner returns [N / batch_size] iterations,
    rounded down, whatever the size of the batches it returns. *)
Lemma R_plan_iterations (st : state R Row Rng) X rows batch_size batch_fraction
    (b iterations : Z) :
  heap st !! X = Some (Rows rows) →
  (calculate_batch_size_and_iteration batch_size batch_fraction X st).1
    = inr (b, iterations) →
  (1 ≤ b)%Z →
  iterations = (Z.of_nat (length rows) / b)%Z.
Proof.
  intros HX Hplan Hb. revert Hplan.
  unfold calculate_batch_size_and_iteration.
  destruct batch_size as [b0|x]; [|done].
  set (first := match batch_fraction with
                | Some f => _
                | None => _
                end).
  assert (reads first) as Hreads.
  { unfold first. destruct batch_fraction as [f|]; [|done].
    destruct (_ && _); [|done].
    apply reads_bind; [apply reads_shape0 | intros; apply reads_lift]. }
  unfold bind at 1.
  specialize (Hreads st).
  destruct (first st) as [[e|b'] st1]; [done|]. simpl in Hreads. subst st1.
  unfold bind at 1, shape0, bind at 1, load_rows. rewrite HX. simpl.
  unfold bind at 1, lift, py_truediv.
  destruct (Z.eqb_spec b' 0) as [->|Hne]; [done|]. simpl.
  intros [= -> <-]. apply R_trunc_quotient; lia.
Qed.
End plan_on_reals.

Section full_batches_on_reals.
Context {Row Rng : Type} `{RandomSource Rng}.

(** X26. Over the real numbers, with as many targets as samples and a
    batch size of 1 or more, every call of the gradient source is on a full
    batch: exactly [batch_size] samples and [batch_size] targets, for every
    optimizer. The planner makes [N / batch_size] iterations, rounded down,
    so that the samples left after the last full batch of an epoch are not
    presented in this epoch. *)
Theorem every_batch_is_full a X y initial_solution source kw xs ys batch_size
    b iterations (st : state R Row Rng) :
  heap st !! X = Some (Rows xs) →
  heap st !! y = Some (Rows ys) →
  length ys = length xs →
  kw_batch_size kw = Some batch_size →
  (calculate_batch_size_and_iteration batch_size (kw_batch_fraction kw) X st).1
    = inr (b, iterations) →
  (1 ≤ b)%Z →
  iterations = (Z.of_nat (length xs) / b)%Z ∧
  ∃ calls,
    gradient_log (optimize a X y initial_solution source kw st).2
    = gradient_log st ++ calls ∧
    Forall (batch_of_size (Z.to_nat b)) calls.
Proof.
  intros HX Hy Hlen Hbs Hplan Hb.
  pose proof (R_plan_iterations st X xs _ _ b iterations HX Hplan Hb) as Hit.
  split; [done|].
  assert (iterations * b ≤ Z.of_nat (length xs))%Z as Hfit.
  { rewrite Hit, Z.mul_comm. apply Z.mul_div_le. lia. }
  assert (∀ done : list (list (list Row * list Row * list R)),
            Forall (λ e, (shuffled_epoch xs ys b e ∨ in_order xs ys b e) ∧
                         length e ≤ Z.to_nat iterations) done →
            Forall (batch_of_size (Z.to_nat b)) (concat done)) as Hfull.
  { intros done Hdone. apply Forall_concat.
    eapply Forall_impl; [exact Hdone|]. intros e [He Hle].
    destruct He as [(xs' & ys' & _ & Hlx & Hly & Horder)|Horder].
    - apply (in_order_full xs' ys' b iterations); [done | lia | congruence | done..].
    - by apply (in_order_full xs ys b iterations). }
  assert (∀ r st',
            epochs_made (shuffled_epoch xs ys b)
              (default 1000%Z (kw_max_num_epoch kw)) iterations st
              (r : exception + loc) st' →
            ∃ calls, gradient_log st' = gradient_log st ++ calls ∧
                     Forall (batch_of_size (Z.to_nat b)) calls) as Hshuffled.
  { intros r st' (done & Hlog & Hdone & _).
    exists (concat done). split; [done|].
    apply Hfull. eapply Forall_impl; [exact Hdone|].
    intros e [He Hle]. split; [by left | done]. }
  destruct a; simpl; rewrite Hbs.
  - eapply Hshuffled. eapply epochs_mini_batch; [done | done | lia | done].
  - eapply Hshuffled. eapply epochs_momentum; [done | done | lia | done].
  - eapply Hshuffled. eapply epochs_adagrad; [done | done | lia | done].
  - eapply Hshuffled. eapply epochs_rmsprop; [done | done | lia | done].
  - pose proof (epochs_adam xs ys st X y initial_solution
                  (λ X_selected y_selected solution _,
                     source X_selected y_selected solution) true
                  (kw_learning_rate kw) (kw_momentum_decay kw)
                  (kw_squared_gradient_decay kw) (kw_max_num_epoch kw)
                  (Some batch_size) (kw_batch_fraction kw) (kw_epsilon kw)
                  b iterations HX Hy Hplan) as (done & Hlog & Hdone & _).
    exists (concat done). split; [done|].
    apply Hfull. eapply Forall_impl; [exact Hdone|].
    intros e [He Hle]. split; [by right | done].
Qed.
End full_batches_on_reals.

Lemma every_batch_is_full_witness :
  1%Z = (Z.of_nat (length [1; 2; 3]) / 2)%Z ∧
  ∃ calls,
    gradient_log (optimize Adagrad 0 1 2 half_square (with_batch_size 2)
                    (three_real_samples_at 5)).2
    = gradient_log (three_real_samples_at 5) ++ calls ∧
    Forall (batch_of_size (Z.to_nat 2)) calls.
Proof.
  apply (every_batch_is_full Adagrad 0 1 2 half_square (with_batch_size 2)
           [1; 2; 3] [4; 5; 6] (PyInt 2) 2 1 (three_real_samples_at 5)).
  - reflexivity.
  - reflexivity.
  - reflexivity.
  - reflexivity.
  - cbn [kw_batch_fraction with_batch_size].
    rewrite (R_plan_of_size (three_real_samples_at 5) 0 [1; 2; 3] 2 eq_refl);
      [reflexivity | lia].
  - lia.
Defined.

(** ** The generator *)


Section quiet_rules.
Context {F Row Rng : Type} `{Scalar F} `{RandomSource Rng}.
Local Abbreviation M := (M F Row Rng).
Local Abbreviation state := (state F Row Rng).

Lemma quiet_reads {A} (m : M A) : reads m → quiet m.
Proof. intros Hm st. by rewrite Hm. Qed.

Lemma quiet_ret {A} (x : A) : quiet (ret x : M A).
Proof. done. Qed.

Lemma quiet_raise {A} e : quiet (raise e : M A).
Proof. done. Qed.

Lemma quiet_lift {A} (r : exception + A) : quiet (lift r : M A).
Proof. by destruct r. Qed.

Lemma quiet_bind {A B} (m : M A) (k : A → M B) :
  quiet m → (∀ x, quiet (k x)) → quiet (bind m k).
Proof.
  intros Hm Hk st. specialize (Hm st). unfold bind.
  destruct (m st) as [[e|x] st1]; simpl in *; [done|].
  by rewrite Hk.
Qed.

Lemma quiet_load l : quiet (load l : M (list F)).
Proof. intros st. unfold load. by destruct (heap st !! l) as [[]|]. Qed.

Lemma quiet_load_rows l : quiet (load_rows l : M (list Row)).
Proof. intros st. unfold load_rows. by destruct (heap st !! l) as [[]|]. Qed.

Lemma quiet_alloc o : quiet (alloc o : M loc).
Proof. done. Qed.

Lemma quiet_store l v : quiet (store l v : M unit).
Proof. done. Qed.

Lemma quiet_call source (Xs ys : list Row) (v : list F) :
  quiet (call_gradient source Xs ys v : M (list F)).
Proof. done. Qed.

Lemma quiet_for_each {T} (body : nat → T → M T) idxs s :
  (∀ i s, quiet (body i s)) → quiet (for_each body idxs s).
Proof.
  intros Hbody. revert s.
  induction idxs as [|i idxs IH]; intros s; simpl.
  - apply quiet_ret.
  - by apply quiet_bind.
Qed.

Lemma quiet_for_range {T} k (body : nat → T → M T) s :
  (∀ i s, quiet (body i s)) → quiet (for_range k body s).
Proof. apply quiet_for_each. Qed.
End quiet_rules.

Ltac quiet_go :=
  repeat lazymatch goal with
  | |- quiet (bind _ _) => apply quiet_bind; [ | intros ? ]
  | |- quiet (match ?x with _ => _ end) => destruct x
  | |- quiet (for_range _ _ _) => apply quiet_for_range; intros ? ?
  | |- quiet _ =>
      first [ apply quiet_ret | apply quiet_lift | apply quiet_load
            | apply quiet_load_rows | apply quiet_alloc | apply quiet_store
            | apply quiet_call | apply quiet_raise ]
  end.

Section draws_of_a_run.
Context {F Row Rng : Type} `{Scalar F} `{RandomSource Rng}.
Local Abbreviation M := (M F Row Rng).
Local Abbreviation state := (state F Row Rng).
Local Abbreviation call := (list Row * list Row * list F)%type.

(** The shuffle draws one permutation of as many numbers as there are
    samples, also when it raises afterwards. *)
Lemma shuffled_draws X y xs (st : state) :
  heap st !! X = Some (Rows xs) →
  rng (shuffled X y st).2 = draw (length xs) (rng st).
Proof.
  intros HX.
  unfold shuffled, shape0, index_rows, bind, load_rows, np_random_permutation,
    draw.
  rewrite HX. simpl. rewrite Nat2Z.id.
  destruct (permutation (rng st) (length xs)) as [p r]. simpl.
  rewrite HX. simpl.
  destruct (take_rows xs p) as [e|xs']; simpl; [done|].
  destruct (_ !! y) as [[ys|v]|]; simpl; [|done..].
  by destruct (take_rows ys p).
Qed.

(** Epochs that draw one permutation of [n] each. *)
Lemma for_each_draws {T} (D : T → state → Prop) n (body : nat → T → M T)
    idxs s (st : state) :
  (∀ k s st, D s st →
     rng (body k s st).2 = draw n (rng st) ∧
     ∀ s', (body k s st).1 = inr s' → D s' (body k s st).2) →
  D s st →
  ∃ j, rng (for_each body idxs s st).2 = Nat.iter j (draw n) (rng st) ∧
       j ≤ length idxs ∧
       ∀ s', (for_each body idxs s st).1 = inr s' → j = length idxs.
Proof.
  intros Hbody. revert s st.
  induction idxs as [|i idxs IH]; intros s st Hs; simpl.
  - exists 0. by repeat split.
  - destruct (Hbody i s st Hs) as [Hr Hnext]. unfold bind.
    destruct (body i s st) as [[e|s1] st1]; simpl in *.
    + exists 1. split; [done|]. split; [lia | done].
    + destruct (IH s1 st1 (Hnext s1 eq_refl)) as (j & Hj & Hle & Hret).
      exists (S j). split.
      * rewrite Hj, Hr. by rewrite Nat.iter_succ_r.
      * split; [lia|]. intros s' Hs'. by rewrite (Hret s' Hs').
Qed.

Lemma rng_of_epochs {T A} (D : T → state → Prop) n (body : nat → T → M T)
    (suffix : T → M A) epochs s (st0 st : state) :
  rng st = rng st0 →
  (∀ k s st, D s st →
     rng (body k s st).2 = draw n (rng st) ∧
     ∀ s', (body k s st).1 = inr s' → D s' (body k s st).2) →
  (∀ s, quiet (suffix s)) →
  D s st →
  has_drawn n epochs st0
    (bind (for_range epochs body s) suffix st).1
    (bind (for_range epochs body s) suffix st).2.
Proof.
  intros Hst Hbody Hsuffix Hs. unfold for_range.
  destruct (for_each_draws D n body (seq 0 (Z.to_nat epochs)) s st Hbody Hs)
    as (j & Hj & Hle & Hret).
  rewrite length_seq in Hle, Hret. rewrite Hst in Hj.
  exists j. unfold bind.
  destruct (for_each body _ s st) as [[e|s'] st'] eqn:E; simpl in *.
  - split; [done|]. split; [done | by intros x [=]].
  - rewrite Hsuffix. split; [done|]. split; [done|].
    intros x _. by apply (Hret s').
Qed.

(** An epoch that starts with the shuffle draws one permutation. *)
Lemma shuffled_epoch_draws {T U} (xs ys : list Row) X y b iterations
    (body : loc → loc → nat → T → M T) (s : T) (k : loc → loc → T → U)
    (rebind : loc → loc → T → M U) (D : U → state → Prop) (st : state) :
  (∀ X y s, rebind X y s = ret (k X y s)) →
  reordered xs ys X y st →
  (∀ X' y' xs' ys' idx s (st : state) (Q : exception + T → state → Prop),
     heap st !! X' = Some (Rows xs') → heap st !! y' = Some (Rows ys') →
     (∀ e, Q (inl e) st) →
     (∀ r v st',
        since st st'
          [(py_slice xs' (Z.of_nat idx * b) ((Z.of_nat idx + 1) * b),
            py_slice ys' (Z.of_nat idx * b) ((Z.of_nat idx + 1) * b), v)] →
        Q r st') →
     wp (body X' y' idx s) st Q) →
  (∀ X' y' idx s, quiet (body X' y' idx s)) →
  (∀ X' y' s' st', reordered xs ys X' y' st' → D (k X' y' s') st') →
  rng ((let* '(X, y) := shuffled X y in
        let* s := for_range iterations (body X y) s in
        rebind X y s) st).2 = draw (length xs) (rng st) ∧
  ∀ u, ((let* '(X, y) := shuffled X y in
         let* s := for_range iterations (body X y) s in
         rebind X y s) st).1 = inr u →
       D u ((let* '(X, y) := shuffled X y in
             let* s := for_range iterations (body X y) s in
             rebind X y s) st).2.
Proof.
  intros Hk Hd Hbody Hquiet HD. split.
  - destruct Hd as (xs1 & ys1 & HX & Hy & Hp & Hlx & Hly).
    pose proof (shuffled_draws X y xs1 st HX) as Hr. rewrite Hlx in Hr.
    unfold bind at 1.
    destruct (shuffled X y st) as [[e|[X' y']] st1]; simpl in *; [done|].
    rewrite <-Hr.
    apply (quiet_bind _ (rebind X' y')).
    + by apply quiet_for_range.
    + intros s'. rewrite Hk. apply quiet_ret.
  - pose proof (wp_shuffled_epoch xs ys X y b iterations body s k rebind st
                  (λ r st', ∀ u, r = inr u → D u st') Hk Hd Hbody) as Hw.
    apply Hw. intros r st' cur _ _ _ Hr u Hu.
    destruct (Hr u Hu) as [(X' & y' & s' & -> & Hd') _]. by apply HD.
Qed.

(** An epoch that draws a permutation and leaves it unused. *)
Lemma unused_permutation {A} X xs (inner : M A) (st : state) :
  heap st !! X = Some (Rows xs) →
  (let* N := shape0 X in
   let* _ := np_random_permutation (Z.to_nat N) in
   inner) st
  = inner (State (heap st) (draw (length xs) (rng st)) (gradient_log st)).
Proof.
  intros HX. unfold shape0, load_rows, np_random_permutation, draw, bind.
  rewrite HX. simpl. rewrite Nat2Z.id.
  by destruct (permutation (rng st) (length xs)).
Qed.

Lemma new_zeros_like_runs p v (st : state) :
  heap st !! p = Some (Tensor v) →
  new_zeros_like p st
  = (inr (length (heap st)),
     State (heap st ++ [Tensor (zeros_like v)]) (rng st) (gradient_log st)).
Proof. intros Hp. unfold new_zeros_like, bind, load. by rewrite Hp. Qed.

Lemma reordered_alloc (xs ys : list Row) X y (st : state) o :
  heap st !! X = Some (Rows xs) → heap st !! y = Some (Rows ys) →
  length xs ≤ length ys →
  reordered xs ys X y (State (heap st ++ [o]) (rng st) (gradient_log st)).
Proof.
  intros HX Hy Hlen. exists xs, ys. simpl.
  split; [by apply lookup_app_l_Some|].
  split; [by apply lookup_app_l_Some|]. by repeat split.
Qed.
End draws_of_a_run.

Ltac to_the_epochs X y st Hplan :=
  unfold mini_batch_gradient_descent.optimize,
    mini_batch_gradient_descent_with_momentum.optimize,
    mini_batch_gradient_descent_with_momentum.locals,
    adagrad.optimize, rmsprop.optimize, adam.optimize,
    transfer_data_to_numpy;
  cbv beta iota zeta delta [from_option Datatypes.id];
  rewrite ?bind_bind, (bind_returns _ _ st (X, y) st eq_refl);
  rewrite ?bind_bind, (optimize_of_plan _ _ _ _ _ _ Hplan);
  cbv beta iota zeta.

Section draws_of_the_optimizers.
Context {F Row Rng : Type} `{Scalar F} `{RandomSource Rng}.
Local Abbreviation state := (state F Row Rng).
Context (xs ys : list Row).

Lemma draws_mini_batch (st : state) X y p source lr epochs bs bf b iterations :
  heap st !! X = Some (Rows xs) → heap st !! y = Some (Rows ys) →
  length xs ≤ length ys →
  (calculate_batch_size_and_iteration (default (PyInt 42) bs) bf X st).1
    = inr (b, iterations) →
  has_drawn (length xs) (default 1000%Z epochs) st
    (mini_batch_gradient_descent.optimize X y p source lr epochs bs bf st).1
    (mini_batch_gradient_descent.optimize X y p source lr epochs bs bf st).2.
Proof.
  intros HX Hy Hlen Hplan. to_the_epochs X y st Hplan.
  apply (rng_of_epochs (λ s st', reordered xs ys s.1.1 s.1.2 st'));
    [done | | intros [[? ?] ?]; apply quiet_ret | by exists xs, ys].
  intros _ [[X1 y1] c] st1 Hd. simpl in Hd.
  apply (shuffled_epoch_draws xs ys X1 y1 b iterations
           (λ X y idx current_solution, _) c (λ X y s, (X, y, s))
           (λ X y s, ret (X, y, s))
           (λ s st', reordered xs ys s.1.1 s.1.2 st') st1);
    [done | done | | | done].
  - intros X' y' xs' ys' idx c' st2 Q2 HX' Hy' He HQ2.
    apply (wp_bind_batch_gradient _ X' y' xs' ys'); [done | done | | done].
    intros v g st3 Hs. update_go HQ2.
  - intros X' y' idx c'.
    unfold select_batch, slice_rows, gradient_at, new. quiet_go.
Qed.

Lemma draws_momentum (st : state) X y p source lr decay epochs bs bf v
    b iterations :
  heap st !! X = Some (Rows xs) → heap st !! y = Some (Rows ys) →
  length xs ≤ length ys →
  heap st !! p = Some (Tensor v) →
  (calculate_batch_size_and_iteration (default (PyInt 1) bs) bf X st).1
    = inr (b, iterations) →
  has_drawn (length xs) (default 1000%Z epochs) st
    (mini_batch_gradient_descent_with_momentum.optimize
       X y p source lr decay epochs bs bf st).1
    (mini_batch_gradient_descent_with_momentum.optimize
       X y p source lr decay epochs bs bf st).2.
Proof.
  intros HX Hy Hlen Hp Hplan. to_the_epochs X y st Hplan.
  rewrite ?bind_bind, (bind_returns _ _ _ _ _ (new_zeros_like_runs p v st Hp)).
  apply (rng_of_epochs (λ s st', reordered xs ys s.1.1.1 s.1.1.2 st'));
    [done | | intros [[[? ?] ?] ?]; apply quiet_ret
    | by apply reordered_alloc].
  intros _ [[[X1 y1] c] m] st1 Hd. simpl in Hd.
  apply (shuffled_epoch_draws xs ys X1 y1 b iterations
           (λ X y idx '(current_solution, momentum), _) (c, m)
           (λ X y '(c, m), (X, y, c, m))
           (λ X y '(c, m), ret (X, y, c, m))
           (λ s st', reordered xs ys s.1.1.1 s.1.1.2 st') st1);
    [by intros ? ? [] | done | | | by intros ? ? []].
  - intros X' y' xs' ys' idx [c' m'] st2 Q2 HX' Hy' He HQ2.
    apply (wp_bind_batch_gradient _ X' y' xs' ys'); [done | done | | done].
    intros w g st3 Hs. update_go HQ2.
  - intros X' y' idx [c' m'].
    unfold select_batch, slice_rows, gradient_at, new. quiet_go.
Qed.

Lemma draws_adagrad (st : state) X y p source lr epochs bs bf eps v
    b iterations :
  heap st !! X = Some (Rows xs) → heap st !! y = Some (Rows ys) →
  length xs ≤ length ys →
  heap st !! p = Some (Tensor v) →
  (calculate_batch_size_and_iteration (default (PyInt 1) bs) bf X st).1
    = inr (b, iterations) →
  has_drawn (length xs) (default 1000%Z epochs) st
    (adagrad.optimize X y p source lr epochs bs bf eps st).1
    (adagrad.optimize X y p source lr epochs bs bf eps st).2.
Proof.
  intros HX Hy Hlen Hp Hplan. to_the_epochs X y st Hplan.
  rewrite ?bind_bind, (bind_returns _ _ _ _ _ (new_zeros_like_runs p v st Hp)).
  apply (rng_of_epochs (λ s st', reordered xs ys s.1.1 s.1.2 st'));
    [done | | intros [[? ?] ?]; apply quiet_ret | by apply reordered_alloc].
  intros _ [[X1 y1] c] st1 Hd. simpl in Hd.
  apply (shuffled_epoch_draws xs ys X1 y1 b iterations
           (λ X y idx current_solution, _) c (λ X y s, (X, y, s))
           (λ X y s, ret (X, y, s))
           (λ s st', reordered xs ys s.1.1 s.1.2 st') st1);
    [done | done | | | done].
  - intros X' y' xs' ys' idx c' st2 Q2 HX' Hy' He HQ2.
    apply (wp_bind_batch_gradient _ X' y' xs' ys'); [done | done | | done].
    intros w g st3 Hs. update_go HQ2.
  - intros X' y' idx c'.
    unfold select_batch, slice_rows, gradient_at, new. quiet_go.
Qed.

Lemma draws_rmsprop (st : state) X y p source lr decay epochs bs bf eps v
    b iterations :
  heap st !! X = Some (Rows xs) → heap st !! y = Some (Rows ys) →
  length xs ≤ length ys →
  heap st !! p = Some (Tensor v) →
  (calculate_batch_size_and_iteration (default (PyInt 1) bs) bf X st).1
    = inr (b, iterations) →
  has_drawn (length xs) (default 1000%Z epochs) st
    (rmsprop.optimize X y p source lr decay epochs bs bf eps st).1
    (rmsprop.optimize X y p source lr decay epochs bs bf eps st).2.
Proof.
  intros HX Hy Hlen Hp Hplan. to_the_epochs X y st Hplan.
  rewrite ?bind_bind, (bind_returns _ _ _ _ _ (new_zeros_like_runs p v st Hp)).
  apply (rng_of_epochs (λ s st', reordered xs ys s.1.1.1 s.1.1.2 st'));
    [done | | intros [[[? ?] ?] ?]; apply quiet_ret
    | by apply reordered_alloc].
  intros _ [[[X1 y1] c] m] st1 Hd. simpl in Hd.
  apply (shuffled_epoch_draws xs ys X1 y1 b iterations
           (λ X y idx '(current_solution, squared_gradients), _) (c, m)
           (λ X y '(c, m), (X, y, c, m))
           (λ X y '(c, m), ret (X, y, c, m))
           (λ s st', reordered xs ys s.1.1.1 s.1.1.2 st') st1);
    [by intros ? ? [] | done | | | by intros ? ? []].
  - intros X' y' xs' ys' idx [c' m'] st2 Q2 HX' Hy' He HQ2.
    apply (wp_bind_batch_gradient _ X' y' xs' ys'); [done | done | | done].
    intros w g st3 Hs. update_go HQ2.
  - intros X' y' idx [c' m'].
    unfold select_batch, slice_rows, gradient_at, new. quiet_go.
Qed.

Lemma draws_adam (st : state) X y p net flag lr d1 d2 epochs bs bf eps v
    b iterations :
  heap st !! X = Some (Rows xs) → heap st !! y = Some (Rows ys) →
  heap st !! p = Some (Tensor v) →
  (calculate_batch_size_and_iteration (default (PyInt 10) bs) bf X st).1
    = inr (b, iterations) →
  has_drawn (length xs) (default 1000%Z epochs) st
    (adam.optimize X y p net flag lr d1 d2 epochs bs bf eps st).1
    (adam.optimize X y p net flag lr d1 d2 epochs bs bf eps st).2.
Proof.
  intros HX Hy Hp Hplan. to_the_epochs X y st Hplan.
  rewrite ?bind_bind, (bind_returns _ _ _ _ _ (new_zeros_like_runs p v st Hp)).
  set (st0 := State _ _ _).
  assert (heap st0 !! p = Some (Tensor v)) as Hp0
    by (by apply lookup_app_l_Some).
  rewrite ?bind_bind, (bind_returns _ _ _ _ _ (new_zeros_like_runs p v st0 Hp0)).
  apply (rng_of_epochs (λ _ st', heap st' !! X = Some (Rows xs) ∧
                                 heap st' !! y = Some (Rows ys)));
    [done | | intros [[[? ?] ?] ?]; apply quiet_ret
    | simpl; split; by do 2 apply lookup_app_l_Some].
  intros _ [[[c m] a] k] st1 [HX1 Hy1].
  rewrite (unused_permutation X xs _ st1 HX1).
  set (st2 := State _ _ _).
  split.
  - apply quiet_for_range. intros i [[[c' m'] a'] k'].
    unfold select_batch, slice_rows, gradient_at, new. quiet_go.
  - intros s'.
    apply (wp_iterations _ X y xs ys b iterations (c, m, a, k) st2
             (λ r st', r = inr s' →
                heap st' !! X = Some (Rows xs) ∧
                heap st' !! y = Some (Rows ys))); [done | done | |].
    + intros i [[[c' m'] a'] k'] st4 Q2 HX' Hy' He HQ2.
      apply (wp_bind_batch_gradient _ X y xs ys); [done | done | | done].
      intros w g st5 Hs. update_go HQ2.
    + intros r1 st4 cur [Hrows _] _ _ _ _. split; by apply Hrows.
Qed.
End draws_of_the_optimizers.

Section further_generator.
Context {F Row Rng : Type} `{Scalar F} `{RandomSource Rng}.

(** X27. What a run takes from the random generator, whatever the
    arithmetic and the gradients: one permutation of as many numbers as
    there are samples in each epoch it starts, and nothing else. After a run
    that returns, the generator is in the state that [max_num_epoch] draws of
    [np.random.permutation(N)] in a row lead to; after a run that raises, in
    the state after no more than that many. This holds for [adam] too,
    which leaves the permutations unused. *)
Theorem one_permutation_per_epoch a X y initial_solution source kw xs ys v
    batch_size b iterations (st : state F Row Rng) :
  heap st !! X = Some (Rows xs) →
  heap st !! y = Some (Rows ys) →
  length xs ≤ length ys →
  heap st !! initial_solution = Some (Tensor v) →
  kw_batch_size kw = Some batch_size →
  (calculate_batch_size_and_iteration batch_size (kw_batch_fraction kw) X st).1
    = inr (b, iterations) →
  ∃ j,
    rng (optimize a X y initial_solution source kw st).2
    = Nat.iter j (draw (length xs)) (rng st) ∧
    j ≤ Z.to_nat (default 1000%Z (kw_max_num_epoch kw)) ∧
    ∀ l, (optimize a X y initial_solution source kw st).1 = inr l →
         j = Z.to_nat (default 1000%Z (kw_max_num_epoch kw)).
Proof.
  intros HX Hy Hlen Hp Hbs Hplan.
  change (has_drawn (length xs) (default 1000%Z (kw_max_num_epoch kw)) st
            (optimize a X y initial_solution source kw st).1
            (optimize a X y initial_solution source kw st).2).
  destruct a; simpl; rewrite Hbs.
  - by eapply draws_mini_batch.
  - by eapply draws_momentum.
  - by eapply draws_adagrad.
  - by eapply draws_rmsprop.
  - by eapply draws_adam.
Qed.
End further_generator.

Lemma one_permutation_per_epoch_witness :
  ∃ j,
    rng (optimize Adam 0 1 2 first_feature one_epoch_of_pairs
           (three_samples [1])).2
    = Nat.iter j (draw (length [[1%float]; [2%float]; [3%float]]))
        (rng (three_samples [1])) ∧
    j ≤ Z.to_nat (default 1000%Z (kw_max_num_epoch one_epoch_of_pairs)) ∧
    ∀ l, (optimize Adam 0 1 2 first_feature one_epoch_of_pairs
            (three_samples [1])).1 = inr l →
         j = Z.to_nat (default 1000%Z (kw_max_num_epoch one_epoch_of_pairs)).
Proof.
  apply (one_permutation_per_epoch Adam 0 1 2 first_feature one_epoch_of_pairs
           [[1%float]; [2%float]; [3%float]] [[1%float]; [2%float]; [3%float]]
           [0%float] (PyInt 2) 2 1 (three_samples [1])).
  - reflexivity.
  - reflexivity.
  - simpl. lia.
  - reflexivity.
  - reflexivity.
  - vm_compute. reflexivity.
Defined.
